(** * log_parser.py: normalisation of peer-to-peer message logs

    A shallow embedding of [src/p2p-signage/log_parser.py] and the
    properties of its line recognizers, payload classifier and renderers.

    Conventions of the embedding.
    - A Python [str] is a [string]; a character is one of the code points
      0..255, and the character classes of Python ([\d], [str.isspace])
      are the restrictions of the Unicode classes to that range.
    - [re.search] is a backtracking matcher over the pattern compiled from
      the very pattern text of the source.
    - [json.loads] and [datetime.strptime] belong to Python's standard
      library; the parser is parametric in them (Section variables), and a
      reference decoder is given for the concrete scenarios.
    - An exception that the source does not catch ends the function: every
      fallible function returns a [result].
    - Two limits of the embedding.  [json.loads] is a value or
      [JSONDecodeError]: what else it can raise (a [ValueError] for an
      integer literal beyond the digit limit, a [RecursionError] for a
      nesting too deep) is outside the model, and so is a text with a code
      point above 255.  [print] writes its line and does not raise: an
      encoding error of the output stream is outside the model.  The
      properties below are stated on the outcomes that the model names. *)

From Stdlib Require Import String Ascii List Bool Arith ZArith Lia Permutation.
From Stdlib Require Import DecimalString Sorted.
Import ListNotations.

Local Open Scope string_scope.
Local Open Scope list_scope.
Local Open Scope nat_scope.

(** String concatenation, Python's [+] on [str]. *)
Infix "+++" := String.append (right associativity, at level 60).

(* ================================================================== *)
(** ** Characters and strings *)

Module Str.

(** [c] as a code point. *)
Definition code (c : ascii) : nat := nat_of_ascii c.

(** [\d] on code points below 256: the ten ASCII digits. *)
Definition is_digit (c : ascii) : bool :=
  (48 <=? code c) && (code c <=? 57).

(** [str.isspace] on code points below 256: TAB, LF, VT, FF, CR,
    FS, GS, RS, US, SPACE, NEL (0x85) and NBSP (0xA0). *)
Definition is_space (c : ascii) : bool :=
  let n := code c in
  ((9 <=? n) && (n <=? 13)) || ((28 <=? n) && (n <=? 32))
  || (n =? 133) || (n =? 160).

Definition newline : ascii := ascii_of_nat 10.

Fixpoint rev_onto (s acc : string) : string :=
  match s with
  | EmptyString => acc
  | String c s' => rev_onto s' (String c acc)
  end.

Definition rev (s : string) : string := rev_onto s "".

(** [s.lstrip()] *)
Fixpoint lstrip (s : string) : string :=
  match s with
  | String c s' => if is_space c then lstrip s' else s
  | EmptyString => ""
  end.

(** [s.rstrip()] *)
Definition rstrip (s : string) : string := rev (lstrip (rev s)).

(** [s.strip()] *)
Definition strip (s : string) : string := rstrip (lstrip s).

(** [s[:n]] *)
Fixpoint take (n : nat) (s : string) : string :=
  match n, s with
  | S n', String c s' => String c (take n' s')
  | _, _ => ""
  end.

(** [s[n:]] *)
Fixpoint drop (n : nat) (s : string) : string :=
  match n, s with
  | S n', String _ s' => drop n' s'
  | _, _ => s
  end.

(** [s.startswith(p)], returning the remainder. *)
Fixpoint strip_prefix (p s : string) : option string :=
  match p, s with
  | EmptyString, _ => Some s
  | String a p', String b s' =>
      if Ascii.eqb a b then strip_prefix p' s' else None
  | String _ _, EmptyString => None
  end.

Definition starts_with (p s : string) : bool :=
  match strip_prefix p s with Some _ => true | None => false end.

(** [needle in s] *)
Fixpoint contains (needle s : string) : bool :=
  starts_with needle s
  || match s with
     | String _ s' => contains needle s'
     | EmptyString => false
     end.

(** The longest prefix whose characters satisfy [p], and the rest. *)
Fixpoint span (p : ascii -> bool) (s : string) : string * string :=
  match s with
  | String c s' =>
      if p c then let (a, b) := span p s' in (String c a, b) else ("", s)
  | EmptyString => ("", "")
  end.

Fixpoint all (p : ascii -> bool) (s : string) : bool :=
  match s with
  | String c s' => p c && all p s'
  | EmptyString => true
  end.

(** [r] is empty or begins with a character outside [p]. *)
Definition stops (p : ascii -> bool) (r : string) : Prop :=
  match r with
  | EmptyString => True
  | String c _ => p c = false
  end.

(** [c * n] *)
Fixpoint repeat (c : ascii) (n : nat) : string :=
  match n with
  | O => ""
  | S n' => String c (repeat c n')
  end.

(** [f"{s:<w}"] for a string [s]. *)
Definition ljust (w : nat) (s : string) : string :=
  s +++ repeat " " (w - String.length s).

(** [sep.join(l)] *)
Fixpoint join (sep : string) (l : list string) : string :=
  match l with
  | [] => ""
  | [x] => x
  | x :: l' => x +++ sep +++ join sep l'
  end.

(** [s.replace(a, b)] for single characters [a] and [b]. *)
Fixpoint replace (a b : ascii) (s : string) : string :=
  match s with
  | String c s' => String (if Ascii.eqb c a then b else c) (replace a b s')
  | EmptyString => ""
  end.

End Str.

(* ================================================================== *)
(** ** Regular expressions: the fragment of [re] used by the parser *)

Module Re.

(** One member of a bracketed class. *)
Inductive citem : Type :=
| IDigit                    (* \d *)
| IChr (c : ascii)          (* a literal character *)
| IRange (lo hi : ascii).   (* lo-hi *)

(** A set of characters. *)
Inductive cset : Type :=
| CDot                      (* .  : any character but the newline *)
| COne (i : citem)          (* \d or a literal *)
| CSet (l : list citem).    (* [...] *)

Inductive regex : Type :=
| REmpty
| RBol                      (* ^ *)
| REol                      (* $ *)
| RSet (cs : cset)
| RPlus (cs : cset)         (* greedy + on a character set *)
| RStar (cs : cset)         (* greedy * on a character set *)
| RSeq (r1 r2 : regex)
| RAlt (r1 r2 : regex)
| RGroup (n : nat) (r : regex).

Definition in_citem (i : citem) (c : ascii) : bool :=
  match i with
  | IDigit => Str.is_digit c
  | IChr a => Ascii.eqb a c
  | IRange lo hi => (Str.code lo <=? Str.code c) && (Str.code c <=? Str.code hi)
  end.

Definition in_cset (cs : cset) (c : ascii) : bool :=
  match cs with
  | CDot => negb (Ascii.eqb c Str.newline)
  | COne i => in_citem i c
  | CSet l => existsb (fun i => in_citem i c) l
  end.

(** The pattern of one literal character, and of a literal text
    followed by [r]. *)
Definition lit (c : ascii) : regex := RSet (COne (IChr c)).

Fixpoint lits (w : string) (r : regex) : regex :=
  match w with
  | EmptyString => r
  | String c w' => RSeq (lit c) (lits w' r)
  end.

(** *** Compiling the pattern text *)

Definition special (c : ascii) : bool :=
  existsb (Ascii.eqb c)
    ["("; ")"; "["; "]"; "{"; "}"; "|"; "+"; "*"; "?"; "."; "^"; "$"; "\"]%char.

Definition is_alnum (c : ascii) : bool :=
  let n := Str.code c in
  ((48 <=? n) && (n <=? 57)) || ((65 <=? n) && (n <=? 90))
  || ((97 <=? n) && (n <=? 122)).

(** An escape: [\d], or a backslash before a non-alphanumeric
    character, which stands for that character. *)
Definition escape (c : ascii) : option citem :=
  if Ascii.eqb c "d" then Some IDigit
  else if is_alnum c then None
  else Some (IChr c).

(** The members of a class, after the opening bracket. *)
Fixpoint parse_class (s : string) (acc : list citem)
  : option (list citem * string) :=
  match s with
  | String "]" s' => Some (List.rev acc, s')
  | String "\" (String c s') =>
      match escape c with
      | Some i => parse_class s' (i :: acc)
      | None => None
      end
  | String "-" _ | String "^" _ | String "[" _ => None
  | String c s' => parse_class s' (IChr c :: acc)
  | EmptyString => None
  end.

(** A character set at the head of the pattern. *)
Definition parse_cset (s : string) : option (cset * string) :=
  match s with
  | String "." s' => Some (CDot, s')
  | String "[" s' =>
      match parse_class s' [] with
      | Some (l, s'') => Some (CSet l, s'')
      | None => None
      end
  | String "\" (String c s') =>
      match escape c with
      | Some i => Some (COne i, s')
      | None => None
      end
  | String c s' => if special c then None else Some (COne (IChr c), s')
  | EmptyString => None
  end.

Definition mk_seq (r1 r2 : regex) : regex :=
  match r2 with
  | REmpty => r1
  | _ => RSeq r1 r2
  end.

(** [parse_alt] reads [seq ('|' seq)*], [parse_seq] a sequence of items
    up to a bar or a closing parenthesis, [parse_item] one anchor, group
    or (quantified) character set.  [n] is the number of the next group;
    groups are numbered by their opening parenthesis. *)
Fixpoint parse_alt (fuel n : nat) (s : string)
  : option (regex * nat * string) :=
  match fuel with
  | O => None
  | S f =>
      match parse_seq f n s with
      | Some (r1, n1, String "|" s1) =>
          match parse_alt f n1 s1 with
          | Some (r2, n2, s2) => Some (RAlt r1 r2, n2, s2)
          | None => None
          end
      | other => other
      end
  end
with parse_seq (fuel n : nat) (s : string)
  : option (regex * nat * string) :=
  match fuel with
  | O => None
  | S f =>
      match s with
      | EmptyString | String ")" _ | String "|" _ => Some (REmpty, n, s)
      | _ =>
          match parse_item f n s with
          | Some (r1, n1, s1) =>
              match parse_seq f n1 s1 with
              | Some (r2, n2, s2) => Some (mk_seq r1 r2, n2, s2)
              | None => None
              end
          | None => None
          end
      end
  end
with parse_item (fuel n : nat) (s : string)
  : option (regex * nat * string) :=
  match fuel with
  | O => None
  | S f =>
      match s with
      | String "^" s1 => Some (RBol, n, s1)
      | String "$" s1 => Some (REol, n, s1)
      | String "(" s1 =>
          match parse_alt f (S n) s1 with
          | Some (r, n1, String ")" s2) => Some (RGroup n r, n1, s2)
          | _ => None
          end
      | _ =>
          match parse_cset s with
          | Some (cs, String "+" s1) => Some (RPlus cs, n, s1)
          | Some (cs, String "*" s1) => Some (RStar cs, n, s1)
          | Some (cs, String "?" s1) => Some (RAlt (RSet cs) REmpty, n, s1)
          | Some (cs, s1) => Some (RSet cs, n, s1)
          | None => None
          end
      end
  end.

(** [re.compile(pattern)] *)
Definition compile (pattern : string) : option regex :=
  match parse_alt (S (3 * String.length pattern)) 1 pattern with
  | Some (r, _, EmptyString) => Some r
  | _ => None
  end.

(** *** Matching *)

(** The captured groups, most recent first. *)
Definition groups : Type := list (nat * string).

(** A matcher state: the position in the subject, what is left of the
    subject, and the groups captured so far. *)
Definition mstate : Type := (nat * string * groups)%type.

(** The states after one or more characters of [cs], longest run first
    (the order in which a greedy quantifier backtracks). *)
Fixpoint runs (cs : cset) (pos : nat) (s : string) : list (nat * string) :=
  match s with
  | String c s' =>
      if in_cset cs c then runs cs (S pos) s' ++ [(S pos, s')] else []
  | EmptyString => []
  end.

Definition at_eol (s : string) : bool :=
  match s with
  | EmptyString => true
  | String c EmptyString => Ascii.eqb c Str.newline
  | _ => false
  end.

(** Every way [r] matches at the head of the state, in the order the
    backtracking matcher of [re] finds them. *)
Fixpoint rmatch (r : regex) (st : mstate) : list mstate :=
  let '(pos, s, g) := st in
  match r with
  | REmpty => [st]
  | RBol => if pos =? 0 then [st] else []
  | REol => if at_eol s then [st] else []
  | RSet cs =>
      match s with
      | String c s' => if in_cset cs c then [(S pos, s', g)] else []
      | EmptyString => []
      end
  | RPlus cs => map (fun ps => (fst ps, snd ps, g)) (runs cs pos s)
  | RStar cs => map (fun ps => (fst ps, snd ps, g)) (runs cs pos s) ++ [st]
  | RSeq r1 r2 => flat_map (rmatch r2) (rmatch r1 st)
  | RAlt r1 r2 => rmatch r1 st ++ rmatch r2 st
  | RGroup n r1 =>
      map (fun st' : mstate =>
             let '(pos', s', g') := st' in
             (pos', s', (n, Str.take (pos' - pos) s) :: g'))
          (rmatch r1 st)
  end.

(** The first match starting at [pos], else at a later position. *)
Fixpoint search_from (r : regex) (pos : nat) (s : string) : option mstate :=
  match rmatch r (pos, s, []) with
  | st :: _ => Some st
  | [] =>
      match s with
      | String _ s' => search_from r (S pos) s'
      | EmptyString => None
      end
  end.

(** [re.search(pattern, s)]: the groups of the first match. *)
Definition search (pattern s : string) : option groups :=
  match compile pattern with
  | Some r =>
      match search_from r 0 s with
      | Some (_, _, g) => Some g
      | None => None
      end
  | None => None
  end.

(** [m.group(n)] for a group that took part in the match. *)
Fixpoint group (g : groups) (n : nat) : string :=
  match g with
  | (k, v) :: g' => if k =? n then v else group g' n
  | [] => ""
  end.

(** *** The texts a quantified set matches *)

(** [s] is a non-empty run of characters of [cs]: what [cs+] matches. *)
Definition is_run (cs : cset) (s : string) : bool :=
  negb (String.eqb s "") && Str.all (in_cset cs) s.

(** [\d+] *)
Definition is_digits : string -> bool := is_run (COne IDigit).

(** [[\d\.]+] *)
Definition is_dotted : string -> bool := is_run (CSet [IDigit; IChr "."]).

(** [[\d\.:]+] *)
Definition is_clock : string -> bool :=
  is_run (CSet [IDigit; IChr "."; IChr ":"]).

(** [node\d+] *)
Definition is_node_name (s : string) : bool :=
  match Str.strip_prefix "node" s with
  | Some d => is_digits d
  | None => false
  end.

(** [.*]: no newline. *)
Definition no_newline : string -> bool := Str.all (in_cset CDot).

(** What [$] accepts: the end of the subject, or the newline that ends
    the subject. *)
Definition is_end (t : string) : Prop := t = "" \/ t = String Str.newline "".

End Re.


(* ================================================================== *)
(** ** The four line patterns *)

Module Pattern.
Import Re.

(** Pattern for node sending a message to another node. *)
Definition outbound : string :=
  "^(node\d+): Sending message to (node\d+): (.*)$".

(** Pattern for a node receiving a message. *)
Definition inbound : string :=
  "^(node\d+): Received message from ([\d\.]+):\d+: (.*)$".

(** Pattern for UDP Transport sending a message. *)
Definition transport : string :=
  "^UDPTransport: Sending message to ([\d\.]+):(\d+): (.*)$".

(** Pattern for UDP_LOG from Dart. *)
Definition udp_log : string :=
  "^\[UDP_LOG\] \[(IN|OUT)\] \[([\d\.:]+)\] \[([\d]+)\] \[([\d\.]+):([\d]+)\] \[(.*)\]$".

Definition all_patterns : list string :=
  [outbound; inbound; transport; udp_log].

(** The compiled patterns. *)
Definition digit : cset := COne IDigit.
Definition digit_dot : cset := CSet [IDigit; IChr "."].
Definition payload_eol (n : nat) : regex := RSeq (RGroup n (RStar CDot)) REol.

Definition outbound_re : regex :=
  RSeq RBol
    (RSeq (RGroup 1 (lits "node" (RPlus digit)))
       (lits ": Sending message to "
          (RSeq (RGroup 2 (lits "node" (RPlus digit)))
             (lits ": " (payload_eol 3))))).

Definition inbound_re : regex :=
  RSeq RBol
    (RSeq (RGroup 1 (lits "node" (RPlus digit)))
       (lits ": Received message from "
          (RSeq (RGroup 2 (RPlus digit_dot))
             (lits ":" (RSeq (RPlus digit) (lits ": " (payload_eol 3))))))).

Definition transport_re : regex :=
  RSeq RBol
    (lits "UDPTransport: Sending message to "
       (RSeq (RGroup 1 (RPlus digit_dot))
          (lits ":" (RSeq (RGroup 2 (RPlus digit))
                       (lits ": " (payload_eol 3)))))).

Definition udp_log_re : regex :=
  RSeq RBol
    (lits "[UDP_LOG] ["
       (RSeq (RGroup 1 (RAlt (lits "I" (lit "N")) (lits "OU" (lit "T"))))
          (lits "] ["
             (RSeq (RGroup 2 (RPlus (CSet [IDigit; IChr "."; IChr ":"])))
                (lits "] ["
                   (RSeq (RGroup 3 (RPlus (CSet [IDigit])))
                      (lits "] ["
                         (RSeq (RGroup 4 (RPlus digit_dot))
                            (lits ":"
                               (RSeq (RGroup 5 (RPlus (CSet [IDigit])))
                                  (lits "] ["
                                     (RSeq (RGroup 6 (RStar CDot))
                                        (lits "]" REol))))))))))))).

(** [pattern] matches [s]. *)
Definition matches (pattern s : string) : bool :=
  match search pattern s with Some _ => true | None => false end.

(** The lines each pattern matches, with the groups it captures. *)

Definition outbound_shape (s : string) (g : groups) : Prop :=
  exists a b m t,
    s = "node" +++ a +++ ": Sending message to " +++
        "node" +++ b +++ ": " +++ m +++ t /\
    is_digits a = true /\ is_digits b = true /\
    no_newline m = true /\ is_end t /\
    g = [(3, m); (2, "node" +++ b); (1, "node" +++ a)].

Definition inbound_shape (s : string) (g : groups) : Prop :=
  exists a ip port m t,
    s = "node" +++ a +++ ": Received message from " +++
        ip +++ ":" +++ port +++ ": " +++ m +++ t /\
    is_digits a = true /\ is_dotted ip = true /\ is_digits port = true /\
    no_newline m = true /\ is_end t /\
    g = [(3, m); (2, ip); (1, "node" +++ a)].

Definition transport_shape (s : string) (g : groups) : Prop :=
  exists ip port m t,
    s = "UDPTransport: Sending message to " +++
        ip +++ ":" +++ port +++ ": " +++ m +++ t /\
    is_dotted ip = true /\ is_digits port = true /\
    no_newline m = true /\ is_end t /\
    g = [(3, m); (2, port); (1, ip)].

Definition udp_log_shape (s : string) (g : groups) : Prop :=
  exists dir clock lport raddr rport m t,
    s = "[UDP_LOG] [" +++ dir +++ "] [" +++ clock +++ "] [" +++ lport +++
        "] [" +++ raddr +++ ":" +++ rport +++ "] [" +++ m +++ "]" +++ t /\
    (dir = "IN" \/ dir = "OUT") /\
    is_clock clock = true /\
    is_run (CSet [IDigit]) lport = true /\
    is_dotted raddr = true /\
    is_run (CSet [IDigit]) rport = true /\
    no_newline m = true /\ is_end t /\
    g = [(6, m); (5, rport); (4, raddr); (3, lport); (2, clock); (1, dir)].

(** A text without a colon. *)
Definition not_colon (c : ascii) : bool := negb (Ascii.eqb c ":").
Definition no_colon : string -> bool := Str.all not_colon.

(** A line of the outbound form, [<a>: Sending message to <b>: <m>],
    and one of the inbound form, [<a>: Received message from <m>],
    for names [a] and [b] of any kind without a colon. *)
Definition outbound_like (s a b m : string) : Prop :=
  s = a +++ ": Sending message to " +++ b +++ ": " +++ m /\
  no_colon a = true /\ no_colon b = true.

Definition inbound_like (s a m : string) : Prop :=
  s = a +++ ": Received message from " +++ m /\ no_colon a = true.

(** The lines of the inbound grammar,
    [<peer>: Received message from <ip>:<port>: <payload>]. *)
Definition inbound_line (s peer ip port payload : string) : Prop :=
  s = peer +++ ": Received message from " +++ ip +++ ":" +++ port +++ ": "
      +++ payload /\
  is_node_name peer = true /\ is_dotted ip = true /\
  is_digits port = true /\ no_newline payload = true.

End Pattern.

(* ================================================================== *)
(** ** Python values, exceptions and dictionaries *)

(** The exceptions the module can raise. *)
Inductive exn : Type :=
| JSONDecodeError
| AttributeError
| TypeError
| KeyError
| ValueError.

Definition exn_eqb (a b : exn) : bool :=
  match a, b with
  | JSONDecodeError, JSONDecodeError
  | AttributeError, AttributeError
  | TypeError, TypeError
  | KeyError, KeyError
  | ValueError, ValueError => true
  | _, _ => false
  end.

(** The outcome of a computation: a value, or an exception on its way up. *)
Inductive result (A : Type) : Type :=
| Ok (a : A)
| Raise (e : exn).

Arguments Ok {A} a.
Arguments Raise {A} e.

Definition bind {A B : Type} (m : result A) (k : A -> result B) : result B :=
  match m with
  | Ok a => k a
  | Raise e => Raise e
  end.

Notation "x <- m ;; k" := (bind m (fun x => k))
  (at level 61, m at next level, right associativity).
Notation "' p <- m ;; k" := (bind m (fun p => k))
  (at level 61, p pattern, m at next level, right associativity).

(** [try: body  except (excs): handler] *)
Definition try_except {A : Type} (body : result A) (excs : list exn)
    (handler : result A) : result A :=
  match body with
  | Ok a => Ok a
  | Raise e => if existsb (exn_eqb e) excs then handler else Raise e
  end.

(** The values [json.loads] can return.  A float stands for its [repr];
    no function of the module computes on floats.  A [dict] keeps its
    items in insertion order, with distinct keys. *)
#[warnings="-register-all"]
Inductive pyval : Type :=
| PyNone
| PyBool (b : bool)
| PyInt (z : Z)
| PyFloat (repr : string)
| PyStr (s : string)
| PyList (l : list pyval)
| PyDict (d : list (string * pyval)).

Fixpoint dict_get (d : list (string * pyval)) (k : string) : option pyval :=
  match d with
  | (k', v) :: d' => if String.eqb k' k then Some v else dict_get d' k
  | [] => None
  end.

(** [d.get(key, default)] for a [dict]. *)
Definition get_or (d : list (string * pyval)) (key : string)
    (default : pyval) : pyval :=
  match dict_get d key with
  | Some v => v
  | None => default
  end.

(** [v.get(key, default)]: only a [dict] has the method. *)
Definition py_get (v : pyval) (key : string) (default : pyval) : result pyval :=
  match v with
  | PyDict d =>
      match dict_get d key with
      | Some x => Ok x
      | None => Ok default
      end
  | _ => Raise AttributeError
  end.

Definition is_str (s : string) (v : pyval) : bool :=
  match v with
  | PyStr s' => String.eqb s' s
  | _ => false
  end.

(** [needle in v] for a string [needle]: a key of a [dict], an element
    of a [list], a substring of a [str]; the other values are not
    containers. *)
Definition py_in (needle : string) (v : pyval) : result bool :=
  match v with
  | PyDict d => Ok (match dict_get d needle with Some _ => true | None => false end)
  | PyList l => Ok (existsb (is_str needle) l)
  | PyStr s => Ok (Str.contains needle s)
  | _ => Raise TypeError
  end.

(** [v[key]] for a string [key]. *)
Definition py_getitem (v : pyval) (key : string) : result pyval :=
  match v with
  | PyDict d =>
      match dict_get d key with
      | Some x => Ok x
      | None => Raise KeyError
      end
  | _ => Raise TypeError
  end.

(* ================================================================== *)
(** ** Exchange records *)

(** The dictionary [parse_log_file] appends for a matched line.  The key
    ['timestamp'] is present only in the records of [UDP_LOG] lines; a
    [datetime] is a number of microseconds.  [source] and [type] can be
    any value of the payload. *)
Record record : Type := mk_record {
  timestamp : option Z;
  source : pyval;
  destination : string;
  protocol : string;
  type : pyval;
  info : string
}.

(* ================================================================== *)
(** ** parse_log_file *)

Section Parser.

(** [json.loads] on a [str]: [None] is [json.JSONDecodeError]. *)
Variable json_loads : string -> option pyval.

(** [datetime.strptime(f'{today} {s}', '%Y-%m-%d %H:%M:%S.%f')] as a
    function of the date [today] and the text [s]: [None] is
    [ValueError]. *)
Variable strptime : Z -> string -> option Z.

(** [datetime.now().date()] as read while the [i]-th line is parsed. *)
Variable today : nat -> Z.

(** [json.loads(v)]: a value that is not a [str] is a [TypeError]. *)
Definition loads (v : pyval) : result pyval :=
  match v with
  | PyStr s =>
      match json_loads s with
      | Some x => Ok x
      | None => Raise JSONDecodeError
      end
  | _ => Raise TypeError
  end.

(** What each branch of the loop does with its match [m]: the record
    it appends. *)

(* Pattern for node sending a message to another node *)
Definition on_outbound (m : Re.groups) : result record :=
  let source := Re.group m 1 in
  let destination := Re.group m 2 in
  let message_str := Re.group m 3 in
  msg_type <-
    try_except
      (message_json <- loads (PyStr message_str) ;;
       py_get message_json "type" (PyStr "json"))
      [JSONDecodeError]
      (Ok (PyStr "text")) ;;
  Ok (mk_record None (PyStr source) destination "P2P" msg_type message_str).

(* Pattern for a node receiving a message *)
Definition on_inbound (m : Re.groups) : result record :=
  let destination := Re.group m 1 in
  let source_ip := Re.group m 2 in
  let message_str := Re.group m 3 in
  '(msg_type, source) <-
    try_except
      (message_json <- loads (PyStr message_str) ;;
       sender <- py_get message_json "sender" (PyStr "unknown") ;;
       message <- py_get message_json "message" (PyStr "{}") ;;
       message_content <- loads message ;;
       msg_type <- py_get message_content "type" (PyStr "json") ;;
       (* The real source is in the message payload *)
       Ok (msg_type, sender))
      [JSONDecodeError; TypeError]
      (Ok (PyStr "text", PyStr source_ip)) ;;
  Ok (mk_record None source destination "P2P" msg_type message_str).

(* Pattern for UDP Transport sending a message *)
Definition on_transport (m : Re.groups) : result record :=
  let destination := Re.group m 1 +++ ":" +++ Re.group m 2 in
  let message_str := Re.group m 3 in
  '(msg_type, source) <-
    try_except
      (message_json <- loads (PyStr message_str) ;;
       source <- py_get message_json "sender" (PyStr "unknown") ;;
       message <- py_get message_json "message" (PyStr "{}") ;;
       message_content <- loads message ;;
       msg_type <- py_get message_content "type" (PyStr "json") ;;
       Ok (msg_type, source))
      [JSONDecodeError; TypeError]
      (Ok (PyStr "text", PyStr "unknown")) ;;
  Ok (mk_record None source destination "UDP" msg_type message_str).

(* New pattern for UDP_LOG from Dart *)
Definition on_udp_log (i : nat) (m : Re.groups) : result record :=
  let direction := Re.group m 1 in
  let timestamp_str := Re.group m 2 in
  let local_port := Re.group m 3 in
  let remote_address := Re.group m 4 in
  let remote_port := Re.group m 5 in
  let message_preview := Re.group m 6 in
  (* Parse timestamp (assuming a dummy date for comparison) *)
  timestamp <-
    match strptime (today i) timestamp_str with
    | Some t => Ok t
    | None => Raise ValueError
    end ;;
  let '(source, destination) :=
    if String.eqb direction "IN"
    then (remote_address +++ ":" +++ remote_port,
          "localhost:" +++ local_port)
    else ("localhost:" +++ local_port,
          remote_address +++ ":" +++ remote_port) in
  (* Default type, kept when the preview is not JSON or has no type *)
  msg_type <-
    try_except
      (message_json <- loads (PyStr message_preview) ;;
       has_type <- py_in "type" message_json ;;
       if has_type : bool then py_getitem message_json "type"
       else Ok (PyStr "UDP_DATA"))
      [JSONDecodeError]
      (Ok (PyStr "UDP_DATA")) ;;
  Ok (mk_record (Some timestamp) (PyStr source) destination "UDP"
        msg_type message_preview).

(** The body of the loop for the [i]-th line: the patterns are tried in
    turn on the stripped line, and the first that matches decides the
    record ([continue] ends each branch); a line that matches none
    appends nothing. *)
Definition parse_line (i : nat) (log : string) : result (option record) :=
  let log := Str.strip log in
  match Re.search Pattern.outbound log with
  | Some m => r <- on_outbound m ;; Ok (Some r)
  | None =>
  match Re.search Pattern.inbound log with
  | Some m => r <- on_inbound m ;; Ok (Some r)
  | None =>
  match Re.search Pattern.transport log with
  | Some m => r <- on_transport m ;; Ok (Some r)
  | None =>
  match Re.search Pattern.udp_log log with
  | Some m => r <- on_udp_log i m ;; Ok (Some r)
  | None => Ok None
  end end end end.

(** The same loop body over a list of recognizers, a pattern and what
    to do with its match, tried in the order of the list. *)
Definition recognizer : Type := (string * (Re.groups -> result record))%type.

Definition recognizers (i : nat) : list recognizer :=
  [(Pattern.outbound, on_outbound);
   (Pattern.inbound, on_inbound);
   (Pattern.transport, on_transport);
   (Pattern.udp_log, on_udp_log i)].

Fixpoint first_match (rs : list recognizer) (log : string)
  : result (option record) :=
  match rs with
  | [] => Ok None
  | (pattern, body) :: rs' =>
      match Re.search pattern log with
      | Some m => r <- body m ;; Ok (Some r)
      | None => first_match rs' log
      end
  end.

(** [for log in logs: ...], appending to [parsed_logs]; [i] counts the
    lines read so far. *)
Fixpoint parse_loop (i : nat) (logs : list string)
    (parsed_logs : list record) : result (list record) :=
  match logs with
  | [] => Ok parsed_logs
  | log :: logs' =>
      match parse_line i log with
      | Raise e => Raise e
      | Ok None => parse_loop (S i) logs' parsed_logs
      | Ok (Some r) => parse_loop (S i) logs' (parsed_logs ++ [r])
      end
  end.

(** The records the [i]-th line contributes: one if it is matched and
    its record is built, none otherwise. *)
Definition line_records (i : nat) (log : string) : list record :=
  match parse_line i log with
  | Ok (Some r) => [r]
  | _ => []
  end.

(** The lines with their numbers, from [i] on: [enumerate(logs, i)]. *)
Definition enumerate (i : nat) (logs : list string) : list (nat * string) :=
  combine (seq i (List.length logs)) logs.

(** [parse_log_file], from the lines [logs] of the file
    ([f.read().splitlines()]). *)
Definition parse_log_file (logs : list string) : result (list record) :=
  parse_loop 0 logs [].

End Parser.

(** The sentinel of a record's family: ['UDP_DATA'] for the records of
    [UDP_LOG] lines, which are those with a timestamp, ['text'] for the
    others. *)
Definition sentinel (r : record) : pyval :=
  match timestamp r with
  | Some _ => PyStr "UDP_DATA"
  | None => PyStr "text"
  end.

(** The source of a record is a non-empty string, or the sender that
    the payload of the line names. *)
Definition source_ok (json_loads : string -> option pyval) (r : record)
  : Prop :=
  (exists s, source r = PyStr s /\ s <> "") \/
  (exists d, json_loads (info r) = Some (PyDict d) /\
             dict_get d "sender" = Some (source r)).

(** The type of a record is the sentinel of its family when the payload
    does not decode; in any case it is one of the three sentinels or the
    [type] of an object that was decoded. *)
Definition type_ok (json_loads : string -> option pyval) (r : record)
  : Prop :=
  (json_loads (info r) = None -> type r = sentinel r) /\
  (type r = PyStr "text" \/ type r = PyStr "json" \/
   type r = PyStr "UDP_DATA" \/
   exists s d, json_loads s = Some (PyDict d) /\
               dict_get d "type" = Some (type r)).

(** Two recognizers of the list that match the same line are the same. *)
Definition exclusive_on (s : string) (rs : list recognizer) : Prop :=
  forall r1 r2, In r1 rs -> In r2 rs ->
    Pattern.matches (fst r1) s = true -> Pattern.matches (fst r2) s = true ->
    r1 = r2.

(* ================================================================== *)
(** ** Formatting *)

Module Fmt.

(** [str(n)] for an [int]. *)
Definition of_nat (n : nat) : string := NilZero.string_of_uint (Nat.to_uint n).
Definition of_Z (z : Z) : string := NilZero.string_of_int (Z.to_int z).

(** [f"{n:0wd}"] once [s] is [str(n)], for [n >= 0]. *)
Definition zfill (w : nat) (s : string) : string :=
  Str.repeat "0" (w - String.length s) +++ s.

(** [f"{x:.6f}"] for [x = timedelta(microseconds=us).total_seconds()].
    The float [us / 10**6] is within half a unit of its last place of
    the quotient, so its six-decimal rendering is the exact decimal
    expansion as long as the two datetimes are less than about 136
    years apart (an [ulp] below [10**-6]). *)
Definition seconds_6f (us : Z) : string :=
  ((if us <? 0 then "-" else "") +++ of_Z (Z.abs us / 1000000) +++ "."
   +++ zfill 6 (of_Z (Z.abs us mod 1000000)))%Z.

(** The escape character [\033]. *)
Definition esc : string := String (ascii_of_nat 27) "".

(** A hexadecimal digit, in lower case. *)
Definition hex_digit (n : nat) : ascii :=
  ascii_of_nat (if n <? 10 then 48 + n else 87 + n).

(** [str.isprintable] on code points below 256. *)
Definition printable (c : ascii) : bool :=
  let n := Str.code c in
  ((32 <=? n) && (n <=? 126)) || ((161 <=? n) && negb (n =? 173)).

(** The double and the single quote. *)
Definition dquote : ascii := ascii_of_nat 34.
Definition squote : ascii := ascii_of_nat 39.

(** [repr(s)] for a [str]: quoted with single quotes, or with double
    quotes when [s] has a single quote and no double one; the backslash,
    the quote in use and the characters that are not printable are
    escaped. *)
Fixpoint repr_chars (quote : ascii) (s : string) : string :=
  match s with
  | EmptyString => ""
  | String c s' =>
      let n := Str.code c in
      (if Ascii.eqb c "\" then "\\"
       else if Ascii.eqb c quote then String "\" (String c "")
       else if n =? 10 then "\n"
       else if n =? 13 then "\r"
       else if n =? 9 then "\t"
       else if printable c then String c ""
       else String "\" (String "x" (String (hex_digit (n / 16))
              (String (hex_digit (n mod 16)) ""))))
      +++ repr_chars quote s'
  end.

Definition repr_str (s : string) : string :=
  let quote :=
    if Str.contains (String squote "") s
       && negb (Str.contains (String dquote "") s)
    then dquote else squote in
  String quote (repr_chars quote s +++ String quote "").

(** [repr(v)] *)
Fixpoint py_repr (v : pyval) : string :=
  match v with
  | PyNone => "None"
  | PyBool true => "True"
  | PyBool false => "False"
  | PyInt z => of_Z z
  | PyFloat r => r
  | PyStr s => repr_str s
  | PyList l => "[" +++ Str.join ", " (map py_repr l) +++ "]"
  | PyDict d =>
      "{" +++ Str.join ", "
                (map (fun kv => repr_str (fst kv) +++ ": " +++ py_repr (snd kv)) d)
          +++ "}"
  end.

(** [str(v)], that is [f"{v}"]. *)
Definition py_str (v : pyval) : string :=
  match v with
  | PyStr s => s
  | _ => py_repr v
  end.

(** [f"{v:<w}"]: [None], lists and dictionaries take no format
    specification; a [bool] is formatted as the integer it is. *)
Definition py_ljust (w : nat) (v : pyval) : result string :=
  match v with
  | PyStr s => Ok (Str.ljust w s)
  | PyInt z => Ok (Str.ljust w (of_Z z))
  | PyBool b => Ok (Str.ljust w (if b then "1" else "0"))
  | PyFloat r => Ok (Str.ljust w r)
  | PyNone | PyList _ | PyDict _ => Raise TypeError
  end.

End Fmt.

(* ================================================================== *)
(** ** Printing *)

(** A computation that prints: from the lines printed so far to the lines
    printed when it ends, with its value or the exception that ended it. *)
Definition io (A : Type) : Type := list string -> list string * result A.

Definition io_ret {A : Type} (a : A) : io A := fun out => (out, Ok a).

Definition io_bind {A B : Type} (m : io A) (k : A -> io B) : io B :=
  fun out =>
    match m out with
    | (out', Ok a) => k a out'
    | (out', Raise e) => (out', Raise e)
    end.

(** [print(s)] *)
Definition print (s : string) : io unit := fun out => (out ++ [s], Ok tt).

Definition lift {A : Type} (r : result A) : io A := fun out => (out, r).

Notation "x <~ m ;; k" := (io_bind m (fun x => k))
  (at level 61, m at next level, right associativity).
Notation "m ;;; k" := (io_bind m (fun _ => k))
  (at level 61, right associativity).

(** What a run prints, and how it ends. *)
Definition run {A : Type} (m : io A) : list string * result A := m [].

(* ================================================================== *)
(** ** print_wireshark_style *)

(** ["\n".join(l)] *)
Definition lines (l : list string) : string :=
  Str.join (String Str.newline "") l.

(** The first two lines of the trace. *)
Definition header : string :=
  "Time            Source                    Destination               "
  +++ "Protocol   Type            Info".

Definition rule : string := Str.repeat "-" 140.

(** [log['timestamp']] *)
Definition get_timestamp (log : record) : result Z :=
  match timestamp log with
  | Some t => Ok t
  | None => Raise KeyError
  end.

Definition color_code (msg_type : pyval) (protocol : string) : string :=
  if is_str "ack" msg_type then Fmt.esc +++ "[92m"
  else if is_str "gossip" msg_type then Fmt.esc +++ "[94m"
  else if is_str "auth" msg_type then Fmt.esc +++ "[93m"
  else if String.eqb protocol "UDP" then Fmt.esc +++ "[90m"
  else Fmt.esc +++ "[0m".

(** The row printed for [log], [relative_time] being in microseconds. *)
Definition row (relative_time : Z) (log : record) : result string :=
  source <- Fmt.py_ljust 25 (source log) ;;
  msg_type <- Fmt.py_ljust 15 (type log) ;;
  Ok (color_code (type log) (protocol log)
      +++ Str.ljust 15 (Fmt.seconds_6f relative_time) +++ " "
      +++ source +++ " "
      +++ Str.ljust 25 (destination log) +++ " "
      +++ Str.ljust 10 (protocol log) +++ " "
      +++ msg_type +++ " "
      +++ Str.take 50 (info log) +++ "..." +++ Fmt.esc +++ "[0m").

(** The first loop: one row per record, counting the packets whose
    destination has the local marker. *)
Fixpoint print_rows (start_time : Z) (logs : list record)
    (in_count out_count : nat) : io (nat * nat) :=
  match logs with
  | [] => io_ret (in_count, out_count)
  | log :: logs' =>
      t <~ lift (get_timestamp log) ;;
      let relative_time := (t - start_time)%Z in
      let '(in_count, out_count) :=
        if Str.contains "localhost" (destination log)
        then (S in_count, out_count) else (in_count, S out_count) in
      line <~ lift (row relative_time log) ;;
      print line ;;;
      print_rows start_time logs' in_count out_count
  end.

(** [timeline_intervals[interval].append(t)], creating the entry first
    when the key is new. *)
Fixpoint timeline_add (interval : Z) (t : pyval) (d : list (Z * list pyval))
  : list (Z * list pyval) :=
  match d with
  | [] => [(interval, [t])]
  | (k, ts) :: d' =>
      if (k =? interval)%Z then (k, ts ++ [t]) :: d'
      else (k, ts) :: timeline_add interval t d'
  end.

(** The second loop: the types of the packets of each second. *)
Fixpoint timeline (start_time : Z) (logs : list record)
    (d : list (Z * list pyval)) : result (list (Z * list pyval)) :=
  match logs with
  | [] => Ok d
  | log :: logs' =>
      t <- get_timestamp log ;;
      let relative_time := (t - start_time)%Z in
      let interval := Z.quot relative_time 1000000 in
      timeline start_time logs' (timeline_add interval (type log) d)
  end.

Fixpoint timeline_get (d : list (Z * list pyval)) (i : Z) : list pyval :=
  match d with
  | [] => []
  | (k, ts) :: d' => if (k =? i)%Z then ts else timeline_get d' i
  end.

Definition glyph (event_type : pyval) : string :=
  if is_str "ack" event_type then "A"
  else if is_str "gossip" event_type then "G"
  else if is_str "auth" event_type then "H"
  else ".".

Definition timeline_row (d : list (Z * list pyval)) (i : nat) : string :=
  fold_left (fun timeline_str event_type => timeline_str +++ glyph event_type)
    (timeline_get d (Z.of_nat i))
    (Str.ljust 5 (Fmt.of_nat i) +++ "s | ").

Fixpoint print_all (lines : list string) : io unit :=
  match lines with
  | [] => io_ret tt
  | l :: lines' => print l ;;; print_all lines'
  end.

Definition print_wireshark_style (parsed_logs : list record) : io unit :=
  match parsed_logs with
  | [] => print "No logs to display."
  | first :: _ =>
      print (Str.ljust 15 "Time" +++ " " +++ Str.ljust 25 "Source" +++ " "
             +++ Str.ljust 25 "Destination" +++ " " +++ Str.ljust 10 "Protocol"
             +++ " " +++ Str.ljust 15 "Type" +++ " " +++ "Info") ;;;
      print rule ;;;
      start_time <~ lift (get_timestamp first) ;;
      counts <~ print_rows start_time parsed_logs 0 0 ;;
      let '(in_count, out_count) := counts in
      print (String Str.newline (Str.repeat "=" 140)) ;;;
      print ("Total Packets: " +++ Fmt.of_nat (List.length parsed_logs)) ;;;
      print ("Incoming Packets: " +++ Fmt.of_nat in_count) ;;;
      print ("Outgoing Packets: " +++ Fmt.of_nat out_count) ;;;
      print (Str.repeat "=" 140) ;;;
      (* Simple Timeline Visualization *)
      print (String Str.newline "Time Plot (Relative Seconds):") ;;;
      print rule ;;;
      timeline_intervals <~ lift (timeline start_time parsed_logs []) ;;
      let max_interval :=
        match timeline_intervals with
        | [] => 0%Z
        | (k, _) :: d' => fold_left Z.max (map fst d') k
        end in
      print_all (map (timeline_row timeline_intervals)
                     (seq 0 (Z.to_nat (max_interval + 1)))) ;;;
      print rule
  end.

(* ================================================================== *)
(** ** Participants *)

(** [sorted] on distinct strings: insertion in code-point order. *)
Fixpoint insert_sorted (x : string) (l : list string) : list string :=
  match l with
  | [] => [x]
  | y :: l' =>
      if String.eqb x y then l
      else if String.ltb x y then x :: l
      else y :: insert_sorted x l'
  end.

Definition sorted_set (l : list string) : list string :=
  fold_right insert_sorted [] l.

Fixpoint str_sources (logs : list record) : option (list string) :=
  match logs with
  | [] => Some []
  | log :: logs' =>
      match source log, str_sources logs' with
      | PyStr s, Some l => Some (s :: l)
      | _, _ => None
      end
  end.

(** [sorted(list(set(sources + destinations)))].  A source that is a list
    or a dictionary cannot enter a set; any other source that is not a
    [str] cannot be compared with the destinations, which are: both are
    a [TypeError]. *)
Definition participants (parsed_logs : list record) : result (list string) :=
  match str_sources parsed_logs with
  | Some sources => Ok (sorted_set (sources ++ map destination parsed_logs))
  | None => Raise TypeError
  end.

(** [p.replace(':', '_').replace('.', '_')] *)
Definition sanitize (p : string) : string :=
  Str.replace "." "_" (Str.replace ":" "_" p).

(** The same on a value: only a [str] has the method. *)
Definition py_sanitize (v : pyval) : result string :=
  match v with
  | PyStr s => Ok (sanitize s)
  | _ => Raise AttributeError
  end.

(* ================================================================== *)
(** ** The PlantUML generators *)

Fixpoint sequence_messages (logs : list record) (plantuml_output : list string)
  : result (list string) :=
  match logs with
  | [] => Ok plantuml_output
  | log :: logs' =>
      sender <- py_sanitize (source log) ;;
      let receiver := sanitize (destination log) in
      let message_type := type log in
      let message_info :=
        if 30 <? String.length (info log)
        then Str.take 30 (info log) +++ "..." else info log in
      is_local <- py_in "localhost" (source log) ;;
      let arrow := if is_local : bool then "->" else "<-" in
      sequence_messages logs'
        (plantuml_output ++
         [sender +++ " " +++ arrow +++ " " +++ receiver +++ ": ["
          +++ Fmt.py_str message_type +++ "] " +++ message_info])
  end.

Definition generate_sequence_diagram_plantuml (parsed_logs : list record)
  : result string :=
  let plantuml_output := ["@startuml"; "skinparam monochrome true"] in
  participants <- participants parsed_logs ;;
  let plantuml_output :=
    plantuml_output ++ map (fun p => "participant " +++ sanitize p) participants in
  let plantuml_output := plantuml_output ++ [""] in
  plantuml_output <- sequence_messages parsed_logs plantuml_output ;;
  let plantuml_output := plantuml_output ++ ["@enduml"] in
  Ok (lines plantuml_output).

Fixpoint activity_blocks (i : nat) (logs : list record)
    (plantuml_output : list string) : result (list string) :=
  match logs with
  | [] => Ok plantuml_output
  | log :: logs' =>
      let message_type := type log in
      let activity_description :=
        Fmt.py_str message_type +++ " (" +++ Fmt.of_nat i +++ ")" in
      is_local <- py_in "localhost" (source log) ;;
      activity_blocks (S i) logs'
        (plantuml_output ++
         [if is_local : bool
          then "#green:Local Host sends " +++ activity_description +++ ";"
          else "#blue:Remote Host sends " +++ activity_description +++ ";"])
  end.

Definition generate_activity_diagram_plantuml (parsed_logs : list record)
  : result string :=
  let plantuml_output := ["@startuml"; "skinparam monochrome true"; "start"] in
  plantuml_output <- activity_blocks 0 parsed_logs plantuml_output ;;
  let plantuml_output := plantuml_output ++ ["stop"; "@enduml"] in
  Ok (lines plantuml_output).

(** The transitions of one participant: the state reached and the lines
    appended.  [arrow current new event] is the line of a transition. *)
Fixpoint transitions (arrow : string -> string -> string -> string)
    (participant : string) (i : nat) (logs : list record)
    (current_state : string) (output : list string) : string * list string :=
  match logs with
  | [] => (current_state, output)
  | log :: logs' =>
      if is_str participant (source log) then
        let event := "Sends " +++ Fmt.py_str (type log) in
        let new_state :=
          "Sent_" +++ Fmt.py_str (type log) +++ "_" +++ Fmt.of_nat i in
        transitions arrow participant (S i) logs' new_state
          (output ++ [arrow current_state new_state event])
      else if String.eqb (destination log) participant then
        let event := "Receives " +++ Fmt.py_str (type log) in
        let new_state :=
          "Received_" +++ Fmt.py_str (type log) +++ "_" +++ Fmt.of_nat i in
        transitions arrow participant (S i) logs' new_state
          (output ++ [arrow current_state new_state event])
      else transitions arrow participant (S i) logs' current_state output
  end.

Definition state_diagram_of (parsed_logs : list record)
    (plantuml_output : list string) (participant : string) : list string :=
  let plantuml_output :=
    plantuml_output ++
    ["@startuml State Diagram for " +++ sanitize participant;
     "skinparam monochrome true";
     "[*] --> Idle"] in
  let '(current_state, plantuml_output) :=
    transitions
      (fun current new event => current +++ " --> " +++ new +++ " : " +++ event)
      participant 0 parsed_logs "Idle" plantuml_output in
  plantuml_output ++
  [current_state +++ " --> [*]"; "@enduml"; String Str.newline ""].

Definition generate_state_diagram_plantuml (parsed_logs : list record)
  : result string :=
  unique_participants <- participants parsed_logs ;;
  let plantuml_output :=
    fold_left (state_diagram_of parsed_logs) unique_participants [] in
  Ok (lines plantuml_output).

(** A PlantUML document: a text that opens with [@startuml] and closes
    with [@enduml]. *)
Definition plantuml_document (t : string) : bool :=
  Str.starts_with "@startuml" t
  && Str.starts_with (Str.rev "@enduml") (Str.rev t).

(* ================================================================== *)
(** ** The ASCII generators *)

(** [p.split(':')[-1]]: what follows the last colon. *)
Fixpoint last_segment_from (s acc : string) : string :=
  match s with
  | EmptyString => Str.rev acc
  | String c s' =>
      if Ascii.eqb c ":" then last_segment_from s' ""
      else last_segment_from s' (String c acc)
  end.

Definition last_segment (p : string) : string := last_segment_from p "".

(** [participant_cols[p]]: fifteen columns per place in the sorted list. *)
Fixpoint participant_col (unique_participants : list string) (p : string)
  : result nat :=
  match unique_participants with
  | [] => Raise KeyError
  | q :: l =>
      if String.eqb q p then Ok 0
      else col <- participant_col l p ;; Ok (15 + col)
  end.

(** [line[i] = c], for [i] within the line. *)
Fixpoint set_char (i : nat) (c : ascii) (line : list ascii) : list ascii :=
  match line, i with
  | [], _ => []
  | _ :: l, O => c :: l
  | x :: l, S i' => x :: set_char i' c l
  end.

(** [for i in range(a, b): line[i] = c] *)
Definition fill (a b : nat) (c : ascii) (line : list ascii) : list ascii :=
  fold_left (fun line i => set_char i c line) (seq a (b - a)) line.

(** [for i, char in enumerate(text): if start + i < len(line): ...] *)
Fixpoint write_text (start : nat) (text : string) (line : list ascii)
  : list ascii :=
  match text with
  | EmptyString => line
  | String c text' =>
      write_text (S start) text'
        (if start <? List.length line then set_char start c line else line)
  end.

Definition sequence_line (unique_participants : list string) (log : record)
  : result string :=
  sender <- match source log with
            | PyStr s => Ok s
            | _ => Raise KeyError
            end ;;
  let receiver := destination log in
  let message_type := type log in
  sender_col <- participant_col unique_participants sender ;;
  receiver_col <- participant_col unique_participants receiver ;;
  let line := List.repeat " "%char (Nat.max sender_col receiver_col + 15) in
  (* Draw participants' lifelines *)
  let line :=
    fold_left
      (fun line col =>
         if col <? List.length line then set_char col "|" line else line)
      (map (fun i => i * 15) (seq 0 (List.length unique_participants)))
      line in
  (* Draw message arrow *)
  let '(line, message_start) :=
    if sender_col <? receiver_col then
      let line := fill (sender_col + 1) receiver_col "-" line in
      let line := set_char receiver_col ">" line in
      let line := set_char sender_col "|" line in
      (line, sender_col + 1)
    else
      let line := fill (receiver_col + 1) sender_col "-" line in
      let line := set_char receiver_col "<" line in
      let line := set_char sender_col "|" line in
      (line, receiver_col + 1) in
  let message_text := "[" +++ Fmt.py_str message_type +++ "]" in
  let line := write_text message_start message_text line in
  Ok (string_of_list_ascii line).

Fixpoint sequence_lines (unique_participants : list string)
    (logs : list record) (output : list string) : result (list string) :=
  match logs with
  | [] => Ok output
  | log :: logs' =>
      line <- sequence_line unique_participants log ;;
      sequence_lines unique_participants logs' (output ++ [line])
  end.

Definition generate_ascii_sequence_diagram (parsed_logs : list record)
  : result string :=
  let output := ["ASCII Sequence Diagram:"; "-----------------------"] in
  unique_participants <- participants parsed_logs ;;
  (* Print participant headers *)
  let header_line :=
    fold_left (fun header_line p => header_line +++ Str.ljust 15 (last_segment p))
      unique_participants "" in
  let output := output ++ [header_line] in
  let output := output ++ [Str.repeat "-" (String.length header_line)] in
  output <- sequence_lines unique_participants parsed_logs output ;;
  let output := output ++ ["-----------------------"] in
  Ok (lines output).

Fixpoint activity_lines (i : nat) (logs : list record) (output : list string)
  : result (list string) :=
  match logs with
  | [] => Ok output
  | log :: logs' =>
      is_local <- py_in "localhost" (source log) ;;
      let direction := if is_local : bool then "OUT" else "IN" in
      activity_lines (S i) logs'
        (output ++
         [Fmt.zfill 3 (Fmt.of_nat i) +++ ": " +++ direction +++ " "
          +++ Fmt.py_str (type log) +++ " (" +++ Fmt.py_str (source log)
          +++ " -> " +++ destination log +++ ")"])
  end.

Definition generate_ascii_activity_flow (parsed_logs : list record)
  : result string :=
  let output := ["ASCII Activity Flow:"; "---------------------"] in
  output <- activity_lines 0 parsed_logs output ;;
  let output := output ++ ["---------------------"] in
  Ok (lines output).

Definition state_flow_of (parsed_logs : list record) (output : list string)
    (participant : string) : list string :=
  let output :=
    output ++
    [String Str.newline "Participant: " +++ participant;
     "  Initial State: Idle"] in
  let '(current_state, output) :=
    transitions
      (fun current new event =>
         "  " +++ current +++ " --(" +++ event +++ ")--> " +++ new)
      participant 0 parsed_logs "Idle" output in
  output ++ ["  " +++ current_state +++ " --(End)--> Final"].

Definition generate_ascii_state_flow (parsed_logs : list record)
  : result string :=
  let output :=
    ["ASCII State Flow (per participant):";
     "-----------------------------------"] in
  unique_participants <- participants parsed_logs ;;
  let output := fold_left (state_flow_of parsed_logs) unique_participants output in
  let output := output ++ ["-----------------------------------"] in
  Ok (lines output).

(* ================================================================== *)
(** ** A reference decoder for [json.loads]

    The decoder of Python's [json] module on the strings of this model:
    the grammar of RFC 8259 with the constants [NaN], [Infinity] and
    [-Infinity].  It instantiates the parameter [json_loads] in the
    concrete scenarios.  Two limits: a number with a fraction or an
    exponent is kept as its literal (its [repr] when the literal is the
    shortest one), and an escape [\uXXXX] above [\u00ff] denotes a
    character outside the model and is refused. *)

Module Json.

Definition is_ws (c : ascii) : bool :=
  let n := Str.code c in (n =? 32) || (n =? 9) || (n =? 10) || (n =? 13).

Fixpoint skip_ws (s : string) : string :=
  match s with
  | String c s' => if is_ws c then skip_ws s' else s
  | EmptyString => ""
  end.

Definition hex_value (c : ascii) : option nat :=
  let n := Str.code c in
  if (48 <=? n) && (n <=? 57) then Some (n - 48)
  else if (65 <=? n) && (n <=? 70) then Some (n - 55)
  else if (97 <=? n) && (n <=? 102) then Some (n - 87)
  else None.

(** The characters of a string after its opening quote, up to the
    closing one; [acc] is what was read, reversed. *)
Fixpoint scan_string (s acc : string) : option (string * string) :=
  match s with
  | EmptyString => None
  | String c s' =>
      if Ascii.eqb c Fmt.dquote then Some (Str.rev acc, s')
      else if Ascii.eqb c "\" then
        match s' with
        | String "u" (String a (String b (String x (String y s'')))) =>
            match hex_value a, hex_value b, hex_value x, hex_value y with
            | Some 0, Some 0, Some h, Some l =>
                scan_string s'' (String (ascii_of_nat (16 * h + l)) acc)
            | _, _, _, _ => None
            end
        | String e s'' =>
            let unescaped :=
              if Ascii.eqb e Fmt.dquote then Some Fmt.dquote
              else if Ascii.eqb e "\" then Some "\"%char
              else if Ascii.eqb e "/" then Some "/"%char
              else if Ascii.eqb e "b" then Some (ascii_of_nat 8)
              else if Ascii.eqb e "f" then Some (ascii_of_nat 12)
              else if Ascii.eqb e "n" then Some (ascii_of_nat 10)
              else if Ascii.eqb e "r" then Some (ascii_of_nat 13)
              else if Ascii.eqb e "t" then Some (ascii_of_nat 9)
              else None in
            match unescaped with
            | Some c' => scan_string s'' (String c' acc)
            | None => None
            end
        | EmptyString => None
        end
      else if Str.code c <? 32 then None
      else scan_string s' (String c acc)
  end.

Fixpoint digits_value (s : string) (acc : Z) : Z :=
  match s with
  | EmptyString => acc
  | String c s' => digits_value s' (10 * acc + Z.of_nat (Str.code c - 48))%Z
  end.

(** A number at the head of [s]: an optional minus sign, then [0] or
    digits that do not begin with [0], then an optional fraction (a dot
    and digits) and an optional exponent ([e] or [E], an optional sign
    and digits).  Without fraction and exponent it is an [int]. *)
Definition scan_number (s : string) : option (pyval * string) :=
  let '(sign, s1) :=
    match s with
    | String "-" s' => ("-", s')
    | _ => ("", s)
    end in
  let '(int_part, s2) :=
    match s1 with
    | String "0" s' => ("0", s')
    | _ => Str.span Str.is_digit s1
    end in
  if String.eqb int_part "" then None
  else
    let '(frac, s3) :=
      match s2 with
      | String "." s' =>
          let '(d, r) := Str.span Str.is_digit s' in
          if String.eqb d "" then ("", s2) else ("." +++ d, r)
      | _ => ("", s2)
      end in
    let '(exp, s4) :=
      match s3 with
      | String e s' =>
          if Ascii.eqb e "e" || Ascii.eqb e "E" then
            let '(sg, s'') :=
              match s' with
              | String "+" r => ("+", r)
              | String "-" r => ("-", r)
              | _ => ("", s')
              end in
            let '(d, r) := Str.span Str.is_digit s'' in
            if String.eqb d "" then ("", s3)
            else (String e "" +++ sg +++ d, r)
          else ("", s3)
      | EmptyString => ("", s3)
      end in
    if String.eqb frac "" && String.eqb exp "" then
      let n := digits_value int_part 0 in
      Some (PyInt (if String.eqb sign "-" then - n else n)%Z, s4)
    else Some (PyFloat (sign +++ int_part +++ frac +++ exp), s4).

(** [d[k] = v] on a dictionary under construction. *)
Fixpoint dict_set (d : list (string * pyval)) (k : string) (v : pyval)
  : list (string * pyval) :=
  match d with
  | [] => [(k, v)]
  | (k', v') :: d' =>
      if String.eqb k' k then (k', v) :: d' else (k', v') :: dict_set d' k v
  end.

(** [value] reads one value at the head of [s]; [elements] the values
    of an array, [s] being at the head of one of them; [members] the
    items of an object, [s] being at the quote that opens a key.  Each
    call is made after a character was read, so a fuel above the
    length of the text is never used up. *)
Fixpoint value (fuel : nat) (s : string) : option (pyval * string) :=
  match fuel with
  | O => None
  | S f =>
      match s with
      | String c s' =>
          if Ascii.eqb c Fmt.dquote then
            match scan_string s' "" with
            | Some (str, r) => Some (PyStr str, r)
            | None => None
            end
          else if Ascii.eqb c "{" then
            match skip_ws s' with
            | String "}" r => Some (PyDict [], r)
            | r => members f r []
            end
          else if Ascii.eqb c "[" then
            match skip_ws s' with
            | String "]" r => Some (PyList [], r)
            | r => elements f r []
            end
          else
            match Str.strip_prefix "null" s, Str.strip_prefix "true" s,
                  Str.strip_prefix "false" s with
            | Some r, _, _ => Some (PyNone, r)
            | _, Some r, _ => Some (PyBool true, r)
            | _, _, Some r => Some (PyBool false, r)
            | None, None, None =>
                match scan_number s with
                | Some x => Some x
                | None =>
                    match Str.strip_prefix "NaN" s,
                          Str.strip_prefix "Infinity" s,
                          Str.strip_prefix "-Infinity" s with
                    | Some r, _, _ => Some (PyFloat "nan", r)
                    | _, Some r, _ => Some (PyFloat "inf", r)
                    | _, _, Some r => Some (PyFloat "-inf", r)
                    | None, None, None => None
                    end
                end
            end
      | EmptyString => None
      end
  end
with elements (fuel : nat) (s : string) (acc : list pyval)
  : option (pyval * string) :=
  match fuel with
  | O => None
  | S f =>
      match value f s with
      | Some (v, r) =>
          match skip_ws r with
          | String "," r' => elements f (skip_ws r') (acc ++ [v])
          | String "]" r' => Some (PyList (acc ++ [v]), r')
          | _ => None
          end
      | None => None
      end
  end
with members (fuel : nat) (s : string) (acc : list (string * pyval))
  : option (pyval * string) :=
  match fuel with
  | O => None
  | S f =>
      match s with
      | String c s' =>
          if Ascii.eqb c Fmt.dquote then
            match scan_string s' "" with
            | Some (key, r) =>
                match skip_ws r with
                | String ":" r' =>
                    match value f (skip_ws r') with
                    | Some (v, r'') =>
                        match skip_ws r'' with
                        | String "," r3 =>
                            members f (skip_ws r3) (dict_set acc key v)
                        | String "}" r3 => Some (PyDict (dict_set acc key v), r3)
                        | _ => None
                        end
                    | None => None
                    end
                | _ => None
                end
            | None => None
            end
          else None
      | EmptyString => None
      end
  end.

(** [json.loads(s)]: one value between optional white space. *)
Definition loads (s : string) : option pyval :=
  match value (S (String.length s)) (skip_ws s) with
  | Some (v, r) =>
      match skip_ws r with
      | EmptyString => Some v
      | _ => None
      end
  | None => None
  end.

End Json.

(* ================================================================== *)
(** ** A reference [strptime] for the time of day

    [datetime.strptime(f'{today} {s}', '%Y-%m-%d %H:%M:%S.%f')]: the date
    is printed and read back unchanged, and the time of day [s] is read
    by the pattern that [_strptime] builds for [%H:%M:%S.%f]. *)

Module Strptime.
Import Re.

Definition range (lo hi : ascii) : regex := RSet (CSet [IRange lo hi]).
Definition d : regex := RSet (COne IDigit).
Definition opt (r : regex) : regex := RAlt r REmpty.

(** [[0-9]{1,6}]: one digit, then up to five more, as many as there
    are. *)
Definition digits_1_6 : regex :=
  let r := range "0" "9" in
  RSeq r (opt (RSeq r (opt (RSeq r (opt (RSeq r (opt (RSeq r (opt r))))))))).

(** [(2[0-3]|[0-1]\d|\d):([0-5]\d|\d):(6[0-1]|[0-5]\d|\d)\.([0-9]{1,6})] *)
Definition time_re : regex :=
  RSeq (RGroup 1 (RAlt (RSeq (lit "2") (range "0" "3"))
                    (RAlt (RSeq (range "0" "1") d) d)))
    (RSeq (lit ":")
       (RSeq (RGroup 2 (RAlt (RSeq (range "0" "5") d) d))
          (RSeq (lit ":")
             (RSeq (RGroup 3 (RAlt (RSeq (lit "6") (range "0" "1"))
                                (RAlt (RSeq (range "0" "5") d) d)))
                (RSeq (lit ".") (RGroup 4 digits_1_6)))))).

Definition to_Z (s : string) : Z := Json.digits_value s 0.

(** The microseconds since midnight; [None] is [ValueError]: the text
    does not match, some of it is left over, or the second is 60 or 61,
    which the pattern accepts and [datetime] refuses. *)
Definition time_of_day (s : string) : option Z :=
  match rmatch time_re (0, s, []) with
  | (_, EmptyString, g) :: _ =>
      let hour := to_Z (group g 1) in
      let minute := to_Z (group g 2) in
      let second := to_Z (group g 3) in
      let f := group g 4 in
      let fraction := to_Z (f +++ Str.repeat "0" (6 - String.length f)) in
      if (second <=? 59)%Z
      then Some (((hour * 60 + minute) * 60 + second) * 1000000 + fraction)%Z
      else None
  | _ => None
  end.

(** The datetime, in microseconds, [today] being a number of days. *)
Definition strptime (today : Z) (s : string) : option Z :=
  match time_of_day s with
  | Some t => Some (today * 86400000000 + t)%Z
  | None => None
  end.

End Strptime.

(* ================================================================== *)
(** ** Writing the scenarios *)

(** The text [s] with every ['] read as a double quote. *)
Definition dq (s : string) : string := Str.replace Fmt.squote Fmt.dquote s.

(** The lines of the round-trip scenario, and the variant of the fourth
    line that is in the grammar of [UDP_LOG] lines, with the remote
    address and port in one bracket. *)
Module Scenario.

Definition line1 : string :=
  dq "node1: Sending message to node2: {'type':'gossip','payload':1}".

Definition line2 : string :=
  dq "node2: Received message from 10.0.0.5:4000: {'sender':'node1','message':'{\'type\':\'ack\'}'}".

Definition line3 : string :=
  dq "UDPTransport: Sending message to 10.0.0.9:5000: {'sender':'node3','message':'{\'type\':\'auth\'}'}".

Definition line4 : string :=
  dq "[UDP_LOG] [IN] [12:00:00.000] [4000] [10.0.0.5] [5000] [{'type':'ping'}]".

Definition line4_one_bracket : string :=
  dq "[UDP_LOG] [IN] [12:00:00.000] [4000] [10.0.0.5:5000] [{'type':'ping'}]".

Definition logs : list string := [line1; line2; line3; line4].

Definition logs_one_bracket : list string :=
  [line1; line2; line3; line4_one_bracket].

(** Other lines. *)
Definition undecodable : string :=
  "node2: Received message from 10.0.0.5:4000: hello".

Definition inner_undecodable_payload : string :=
  dq "{'sender':'node1','message':'zz'}".

Definition inner_undecodable : string :=
  "node2: Received message from 10.0.0.5:4000: " +++ inner_undecodable_payload.

Definition enveloped_payload : string :=
  dq "{'sender':'node1','message':'{\'type\':\'ack\'}'}".

Definition empty_sender : string :=
  dq "node1: Received message from 1.2.3.4:5: {'sender':''}".

Definition empty_type : string :=
  dq "node1: Sending message to node2: {'type':''}".

Definition other_names : string := "alice: Sending message to bob: hi".

Definition plain : string := "node1: Sending message to node2: hi".

Definition plain_record : record :=
  mk_record None (PyStr "node1") "node2" "P2P" (PyStr "text") "hi".

(** The record of [line4_one_bracket], read on day 0. *)
Definition ping_record : record :=
  mk_record (Some 43200000000%Z) (PyStr "10.0.0.5:5000") "localhost:4000"
    "UDP" (PyStr "ping") (dq "{'type':'ping'}").

(** The parser with the reference decoders, on a day that is day 0. *)
Definition day0 : nat -> Z := fun _ => 0%Z.

Definition run_line : nat -> string -> result (option record) :=
  parse_line Json.loads Strptime.strptime day0.

Definition run_file : list string -> result (list record) :=
  parse_log_file Json.loads Strptime.strptime day0.

End Scenario.

(* ================================================================== *)
(** ** The lines of the other three grammars *)

Module Line.
Import Re.

(** [<src>: Sending message to <dst>: <payload>] *)
Definition outbound_line (s src dst payload : string) : Prop :=
  s = src +++ ": Sending message to " +++ dst +++ ": " +++ payload /\
  is_node_name src = true /\ is_node_name dst = true /\
  no_newline payload = true.

(** [UDPTransport: Sending message to <ip>:<port>: <payload>] *)
Definition transport_line (s ip port payload : string) : Prop :=
  s = "UDPTransport: Sending message to " +++ ip +++ ":" +++ port +++ ": "
      +++ payload /\
  is_dotted ip = true /\ is_digits port = true /\ no_newline payload = true.

(** [[UDP_LOG] [<dir>] [<clock>] [<lport>] [<raddr>:<rport>] [<preview>]] *)
Definition udp_log_line (s dir clock lport raddr rport preview : string)
  : Prop :=
  s = "[UDP_LOG] [" +++ dir +++ "] [" +++ clock +++ "] [" +++ lport +++ "] ["
      +++ raddr +++ ":" +++ rport +++ "] [" +++ preview +++ "]" /\
  (dir = "IN" \/ dir = "OUT") /\
  is_clock clock = true /\ is_digits lport = true /\
  is_dotted raddr = true /\ is_digits rport = true /\
  no_newline preview = true.

(** The two ends of a [UDP_LOG] event: the remote one and the local one,
    source and destination by the direction. *)
Definition endpoints (dir lport raddr rport : string) : string * string :=
  if String.eqb dir "IN"
  then (raddr +++ ":" +++ rport, "localhost:" +++ lport)
  else ("localhost:" +++ lport, raddr +++ ":" +++ rport).

End Line.

(* ================================================================== *)
(** ** The module run as a program *)

Section Main.

Variable json_loads : string -> option pyval.
Variable strptime : Z -> string -> option Z.
Variable today : nat -> Z.

(** The body of [if __name__ == "__main__":], on the file whose lines
    are [logs]: the trace, then the three ASCII diagrams, each between
    two rules.  An argument of [print] is computed before anything of
    that call is printed. *)
Definition main (logs : list string) : io unit :=
  parsed <~ lift (parse_log_file json_loads strptime today logs) ;;
  print_wireshark_style parsed ;;;
  print (String Str.newline (Str.repeat "=" 140)) ;;;
  diagram <~ lift (generate_ascii_sequence_diagram parsed) ;;
  print diagram ;;;
  print (Str.repeat "=" 140) ;;;
  print (String Str.newline (Str.repeat "=" 140)) ;;;
  flow <~ lift (generate_ascii_activity_flow parsed) ;;
  print flow ;;;
  print (Str.repeat "=" 140) ;;;
  print (String Str.newline (Str.repeat "=" 140)) ;;;
  flow <~ lift (generate_ascii_state_flow parsed) ;;
  print flow ;;;
  print (Str.repeat "=" 140).

End Main.

(* ================================================================== *)
(** ** More lines and records for the scenarios *)

Module Sample.
Import Scenario.

(** A peer line whose payload decodes to a number. *)
Definition number_payload : string := "node1: Sending message to node2: 5".

(** An inbound-peer line whose payload decodes to a number. *)
Definition number_inbound : string :=
  "node2: Received message from 10.0.0.5:4000: 42".

(** The record of [Scenario.line2]. *)
Definition ack_record : record :=
  mk_record None (PyStr "node1") "node2" "P2P" (PyStr "ack")
    enveloped_payload.

(** [Scenario.plain] between white space. *)
Definition padded : string :=
  String (ascii_of_nat 9) " " +++ plain +++ "  ".

(** A line that no pattern matches. *)
Definition noise : string := "listening on port 4000".

(** The payload of [Scenario.line3]. *)
Definition transport_payload : string :=
  dq "{'sender':'node3','message':'{\'type\':\'auth\'}'}".

(** The participants of [Scenario.ping_record], and its line in the
    ASCII sequence diagram. *)
Definition ping_participants : list string :=
  ["10.0.0.5:5000"; "localhost:4000"].

Definition ping_arrow : string :=
  "|[ping]-------->" +++ Str.repeat " " 14.

End Sample.

(* ================================================================== *)
(** * Properties *)

(** ** Strings *)

Module StrFacts.
Import Str.

Lemma app_nil_r (s : string) : s +++ "" = s.
Proof. induction s as [|c s IH]; simpl; [reflexivity | now rewrite IH]. Qed.

Lemma app_assoc (a b c : string) : (a +++ b) +++ c = a +++ (b +++ c).
Proof. induction a as [|x a IH]; simpl; [reflexivity | now rewrite IH]. Qed.

Lemma length_app (a b : string) :
  String.length (a +++ b) = String.length a + String.length b.
Proof. induction a as [|x a IH]; simpl; [reflexivity | now rewrite IH]. Qed.

Lemma app_inv_head (a b c : string) : a +++ b = a +++ c -> b = c.
Proof.
  induction a as [|x a IH]; simpl; intros H; [exact H|].
  injection H as H. now apply IH.
Qed.

Lemma app_inv_tail (a b c : string) : a +++ c = b +++ c -> a = b.
Proof.
  revert b. induction a as [|x a IH]; intros [|y b] H; simpl in H.
  - reflexivity.
  - exfalso. apply (f_equal String.length) in H. simpl in H.
    rewrite length_app in H. lia.
  - exfalso. apply (f_equal String.length) in H. simpl in H.
    rewrite length_app in H. lia.
  - injection H as -> H. f_equal. now apply IH.
Qed.

Lemma take_app (a b : string) : take (String.length a) (a +++ b) = a.
Proof. induction a as [|x a IH]; simpl; [now destruct b | now rewrite IH]. Qed.

Lemma all_app (p : ascii -> bool) (a b : string) :
  all p (a +++ b) = all p a && all p b.
Proof.
  induction a as [|x a IH]; simpl; [reflexivity|].
  rewrite IH. now rewrite andb_assoc.
Qed.

Lemma strip_prefix_app (w s : string) : strip_prefix w (w +++ s) = Some s.
Proof.
  induction w as [|c w IH]; simpl; [reflexivity|].
  now rewrite Ascii.eqb_refl.
Qed.

Lemma strip_prefix_some (w s s' : string) :
  strip_prefix w s = Some s' <-> s = w +++ s'.
Proof.
  split.
  - revert s. induction w as [|c w IH]; intros s H; simpl in *.
    + now injection H as ->.
    + destruct s as [|b s]; [discriminate|].
      destruct (Ascii.eqb_spec c b) as [->|]; [|discriminate].
      f_equal. now apply IH.
  - intros ->. apply strip_prefix_app.
Qed.

Lemma span_app (p : ascii -> bool) (d r : string) :
  all p d = true -> stops p r -> span p (d +++ r) = (d, r).
Proof.
  induction d as [|c d IH]; simpl; intros Hd Hr.
  - destruct r as [|c r]; [reflexivity|]. simpl in Hr. simpl. now rewrite Hr.
  - apply andb_true_iff in Hd as [Hc Hd]. rewrite Hc.
    now rewrite (IH Hd Hr).
Qed.

(** A run of [p] followed by something that stops it is found in one
    way only. *)
Lemma split_unique (p : ascii -> bool) (d1 r1 d2 r2 : string) :
  all p d1 = true -> stops p r1 ->
  all p d2 = true -> stops p r2 ->
  d1 +++ r1 = d2 +++ r2 -> d1 = d2 /\ r1 = r2.
Proof.
  intros H1 S1 H2 S2 E.
  pose proof (span_app p d1 r1 H1 S1) as A.
  pose proof (span_app p d2 r2 H2 S2) as B.
  rewrite E in A. rewrite A in B. now injection B.
Qed.

End StrFacts.

(** ** The matcher *)

Module ReFacts.
Import Str Re StrFacts.

Lemma in_runs (cs : cset) (s : string) :
  forall p p' s',
    In (p', s') (runs cs p s) <->
    exists d, d <> "" /\ all (in_cset cs) d = true /\
              s = d +++ s' /\ p' = p + String.length d.
Proof.
  induction s as [|c s IH]; intros p p' s'; simpl.
  - split; [intros []|]. intros (d & Hd & _ & E & _).
    destruct d; [now apply Hd | discriminate].
  - destruct (in_cset cs c) eqn:Hc.
    + rewrite in_app_iff, IH. simpl. split.
      * intros [(d & Hd & Ha & -> & ->) | [E | []]].
        -- exists (String c d). simpl. rewrite Hc, Ha.
           repeat split; try easy; lia.
        -- injection E as <- <-. exists (String c ""). simpl. rewrite Hc.
           repeat split; try easy; lia.
      * intros (d & Hd & Ha & E & ->).
        destruct d as [|x d]; [now contradiction Hd|].
        simpl in E, Ha. injection E as <- ->.
        apply andb_true_iff in Ha as [_ Ha].
        destruct d as [|y d].
        -- right. left. simpl. f_equal. lia.
        -- left. exists (String y d). repeat split; try easy; simpl; lia.
    + split; [intros []|]. intros (d & Hd & Ha & E & _).
      destruct d as [|x d]; [now apply Hd|].
      simpl in E, Ha. injection E as <- _. now rewrite Hc in Ha.
Qed.

(** What a match consumes is a prefix of the subject. *)
Lemma rmatch_consumes (r : regex) :
  forall p s g p' s' g',
    In (p', s', g') (rmatch r (p, s, g)) ->
    exists u, s = u +++ s' /\ p' = p + String.length u.
Proof.
  induction r as [| | |cs|cs|cs|r1 IH1 r2 IH2|r1 IH1 r2 IH2|n r IH];
    intros p s g p' s' g' H; simpl in H.
  - destruct H as [E|[]]. injection E as <- <- <-. exists "". split; [easy|simpl; lia].
  - destruct (p =? 0); [|easy]. destruct H as [E|[]].
    injection E as <- <- <-. exists "". split; [easy|simpl; lia].
  - destruct (at_eol s); [|easy]. destruct H as [E|[]].
    injection E as <- <- <-. exists "". split; [easy|simpl; lia].
  - destruct s as [|c s]; [easy|]. destruct (in_cset cs c); [|easy].
    destruct H as [E|[]]. injection E as <- <- <-.
    exists (String c ""). split; [easy|simpl; lia].
  - apply in_map_iff in H as ([q t] & E & H). simpl in E.
    injection E as <- <- <-.
    apply in_runs in H as (d & _ & _ & -> & ->). now exists d.
  - apply in_app_iff in H as [H|[E|[]]].
    + apply in_map_iff in H as ([q t] & E & H). simpl in E.
      injection E as <- <- <-.
      apply in_runs in H as (d & _ & _ & -> & ->). now exists d.
    + injection E as <- <- <-. exists "". split; [easy|simpl; lia].
  - apply in_flat_map in H as ([[q t] h] & H1 & H2).
    apply IH1 in H1 as (u & -> & ->). apply IH2 in H2 as (v & -> & ->).
    exists (u +++ v). rewrite app_assoc, length_app. split; [easy|lia].
  - apply in_app_iff in H as [H|H]; [now apply IH1 in H | now apply IH2 in H].
  - apply in_map_iff in H as ([[q t] h] & E & H).
    injection E as <- <- <-. now apply IH in H.
Qed.

Lemma in_seq (r1 r2 : regex) (st x : mstate) :
  In x (rmatch (RSeq r1 r2) st) <->
  exists y, In y (rmatch r1 st) /\ In x (rmatch r2 y).
Proof. destruct st as [[p s] g]. simpl. apply in_flat_map. Qed.

Lemma in_alt (r1 r2 : regex) (st x : mstate) :
  In x (rmatch (RAlt r1 r2) st) <->
  In x (rmatch r1 st) \/ In x (rmatch r2 st).
Proof. destruct st as [[p s] g]. simpl. apply in_app_iff. Qed.

Lemma in_lit (c : ascii) (p : nat) (s : string) (g : groups) (x : mstate) :
  In x (rmatch (lit c) (p, s, g)) <->
  exists s1, s = String c s1 /\ x = (S p, s1, g).
Proof.
  simpl. destruct s as [|b s].
  - split; [intros []|]. now intros (s1 & E & _).
  - destruct (Ascii.eqb_spec c b) as [->|N].
    + split.
      * intros [<-|[]]. now exists s.
      * intros (s1 & E & ->). injection E as ->. now left.
    + split; [intros []|]. intros (s1 & E & _). congruence.
Qed.

Lemma in_lits (w : string) (r : regex) :
  forall p s g x,
    In x (rmatch (lits w r) (p, s, g)) <->
    exists s1, s = w +++ s1 /\ In x (rmatch r (p + String.length w, s1, g)).
Proof.
  induction w as [|c w IH]; intros p s g x.
  - simpl lits. simpl String.length. rewrite Nat.add_0_r. split.
    + intros H. now exists s.
    + now intros (s1 & -> & H).
  - change (lits (String c w) r) with (RSeq (lit c) (lits w r)).
    rewrite in_seq. split.
    + intros (y & Hy & Hx). apply in_lit in Hy as (s1 & -> & ->).
      apply IH in Hx as (s2 & -> & Hx). exists s2. split; [easy|].
      simpl String.length. now rewrite Nat.add_succ_r.
    + intros (s1 & -> & Hx). exists (S p, w +++ s1, g). split.
      * apply in_lit. now exists (w +++ s1).
      * apply IH. exists s1. split; [easy|].
        simpl String.length in Hx. now rewrite Nat.add_succ_r in Hx.
Qed.

Lemma is_run_iff (cs : cset) (d : string) :
  is_run cs d = true <-> d <> "" /\ all (in_cset cs) d = true.
Proof.
  unfold is_run. rewrite andb_true_iff, negb_true_iff, String.eqb_neq.
  reflexivity.
Qed.

Lemma in_plus (cs : cset) (p : nat) (s : string) (g : groups) (x : mstate) :
  In x (rmatch (RPlus cs) (p, s, g)) <->
  exists d s', is_run cs d = true /\ s = d +++ s' /\
               x = (p + String.length d, s', g).
Proof.
  simpl. rewrite in_map_iff. split.
  - intros ([q t] & <- & H). apply in_runs in H as (d & Hd & Ha & -> & ->).
    exists d, t. now rewrite is_run_iff.
  - intros (d & s' & Hd & -> & ->). apply is_run_iff in Hd as [Hd Ha].
    exists (p + String.length d, s'). split; [easy|].
    apply in_runs. now exists d.
Qed.

Lemma in_star (cs : cset) (p : nat) (s : string) (g : groups) (x : mstate) :
  In x (rmatch (RStar cs) (p, s, g)) <->
  exists d s', all (in_cset cs) d = true /\ s = d +++ s' /\
               x = (p + String.length d, s', g).
Proof.
  simpl. rewrite in_app_iff, in_map_iff. split.
  - intros [([q t] & <- & H) | [<-|[]]].
    + apply in_runs in H as (d & Hd & Ha & -> & ->). now exists d, t.
    + exists "", s. simpl. now rewrite Nat.add_0_r.
  - intros (d & s' & Ha & -> & ->). destruct d as [|c d].
    + right. left. simpl. now rewrite Nat.add_0_r.
    + left. exists (p + String.length (String c d), s'). split; [easy|].
      apply in_runs. now exists (String c d).
Qed.

Lemma in_group (n : nat) (r : regex) (p : nat) (s : string) (g : groups)
    (x : mstate) :
  In x (rmatch (RGroup n r) (p, s, g)) <->
  exists u s' g', In (p + String.length u, s', g') (rmatch r (p, s, g)) /\
                  s = u +++ s' /\
                  x = (p + String.length u, s', (n, u) :: g').
Proof.
  simpl. rewrite in_map_iff. split.
  - intros ([[q t] h] & <- & H).
    destruct (rmatch_consumes _ _ _ _ _ _ _ H) as (u & -> & ->).
    exists u, t, h. repeat split; try easy.
    replace (p + String.length u - p) with (String.length u) by lia.
    now rewrite take_app.
  - intros (u & s' & g' & H & -> & ->).
    exists (p + String.length u, s', g'). split; [|easy].
    replace (p + String.length u - p) with (String.length u) by lia.
    now rewrite take_app.
Qed.

Lemma in_eol (p : nat) (s : string) (g : groups) (x : mstate) :
  In x (rmatch REol (p, s, g)) <-> is_end s /\ x = (p, s, g).
Proof.
  unfold is_end. simpl. destruct s as [|c [|d s]]; simpl.
  - split; [intros [<-|[]]; auto | intros [_ ->]; now left].
  - destruct (Ascii.eqb_spec c newline) as [->|N].
    + split; [intros [<-|[]]; auto | intros [_ ->]; now left].
    + split; [intros []|]. intros [[E|E] _]; [discriminate|].
      injection E as E. now apply N.
  - split; [intros []|]. now intros [[E|E] _].
Qed.

Lemma in_bol (p : nat) (s : string) (g : groups) (x : mstate) :
  In x (rmatch RBol (p, s, g)) <-> p = 0 /\ x = (p, s, g).
Proof.
  simpl. destruct (Nat.eqb_spec p 0) as [->|N].
  - split; [intros [<-|[]]; auto | intros [_ ->]; now left].
  - split; [intros []|]. now intros [E _].
Qed.

End ReFacts.

(** ** The four patterns *)

Module PatternFacts.
Import Str Re StrFacts ReFacts Pattern.

Lemma search_from_sound (r : regex) (s : string) :
  forall p x,
    search_from r p s = Some x ->
    exists u t, s = u +++ t /\ In x (rmatch r (p + String.length u, t, [])).
Proof.
  induction s as [|c s IH]; intros p x H; simpl in H.
  - destruct (rmatch r (p, "", [])) as [|y l] eqn:E; [discriminate|].
    injection H as ->. exists "", "". simpl. rewrite Nat.add_0_r, E.
    split; [easy | now left].
  - destruct (rmatch r (p, String c s, [])) as [|y l] eqn:E.
    + apply IH in H as (u & t & -> & H). exists (String c u), t.
      split; [easy|]. simpl String.length. now rewrite Nat.add_succ_r.
    + injection H as ->. exists "", (String c s). simpl.
      rewrite Nat.add_0_r, E. split; [easy | now left].
Qed.

Lemma search_from_complete (r : regex) (p : nat) (s : string) (x : mstate) :
  In x (rmatch r (p, s, [])) ->
  exists y, search_from r p s = Some y /\ In y (rmatch r (p, s, [])).
Proof.
  intros H. destruct (rmatch r (p, s, [])) as [|y l] eqn:E; [easy|].
  exists y. split; [|now left].
  destruct s; simpl; now rewrite E.
Qed.

(** The patterns of the source compile to the expressions above. *)
Lemma compile_outbound : compile outbound = Some outbound_re.
Proof. reflexivity. Qed.

Lemma compile_inbound : compile inbound = Some inbound_re.
Proof. reflexivity. Qed.

Lemma compile_transport : compile transport = Some transport_re.
Proof. reflexivity. Qed.

Lemma compile_udp_log : compile udp_log = Some udp_log_re.
Proof. reflexivity. Qed.

(** Taking a match apart, one constructor at a time. *)
Ltac inv_match :=
  repeat match goal with
  | H : In _ (rmatch (lits _ _) (_, _, _)) |- _ =>
      apply in_lits in H as (? & ? & H)
  | H : In _ (rmatch (RSeq _ _) _) |- _ =>
      let H1 := fresh H in
      apply in_seq in H as ([[? ?] ?] & H1 & H)
  | H : In _ (rmatch (RGroup _ _) (_, _, _)) |- _ =>
      let E := fresh "E" in let E' := fresh "E" in
      apply in_group in H as (? & ? & ? & H & E & E')
  | H : In _ (rmatch (RPlus _) (_, _, _)) |- _ =>
      apply in_plus in H as (? & ? & ? & ? & H)
  | H : In _ (rmatch (RStar _) (_, _, _)) |- _ =>
      apply in_star in H as (? & ? & ? & ? & H)
  | H : In _ (rmatch REol (_, _, _)) |- _ =>
      apply in_eol in H as (? & H)
  | H : In _ (rmatch RBol (_, _, _)) |- _ =>
      apply in_bol in H as (? & H)
  | H : In _ (rmatch (lit _) (_, _, _)) |- _ =>
      apply in_lit in H as (? & ? & H)
  | H : In _ (rmatch (RAlt _ _) _) |- _ =>
      apply in_alt in H as [H|H]
  | H : (_, _, _) = (_, _, _) |- _ => injection H as ? ? ?
  end.

(** The text of a group, from the two ways its end is known. *)
Ltac same_tail :=
  repeat match goal with
  | E : ?a +++ ?b +++ ?c = ?u +++ ?c |- _ =>
      rewrite <- (app_assoc a b c) in E; apply app_inv_tail in E; subst u
  | E : ?a +++ ?c = ?u +++ ?c |- _ => apply app_inv_tail in E; subst u
  end.

(** Building a match, one step of the pattern at a time. *)
Lemma step_lits (w : string) (r : regex) p s g x :
  In x (rmatch r (p + String.length w, s, g)) ->
  In x (rmatch (lits w r) (p, w +++ s, g)).
Proof. intros H. apply in_lits. now exists s. Qed.

Lemma step_group_plus n (w : string) cs (rest : regex) p d s g x :
  is_run cs d = true ->
  In x (rmatch rest (p + String.length (w +++ d), s, (n, w +++ d) :: g)) ->
  In x (rmatch (RSeq (RGroup n (lits w (RPlus cs))) rest)
               (p, w +++ d +++ s, g)).
Proof.
  intros Hd H. apply in_seq. eexists. split; [|exact H].
  apply in_group. exists (w +++ d), s, g. split; [|split; [|reflexivity]].
  - apply in_lits. exists (d +++ s). split; [reflexivity|].
    apply in_plus. exists d, s. split; [easy|]. split; [easy|].
    rewrite length_app. f_equal. f_equal. lia.
  - now rewrite app_assoc.
Qed.

Lemma step_plus cs (rest : regex) p d s g x :
  is_run cs d = true ->
  In x (rmatch rest (p + String.length d, s, g)) ->
  In x (rmatch (RSeq (RPlus cs) rest) (p, d +++ s, g)).
Proof.
  intros Hd H. apply in_seq. eexists. split; [|exact H].
  apply in_plus. now exists d, s.
Qed.

Lemma step_payload_eol n p m t g :
  no_newline m = true -> is_end t ->
  In (p + String.length m, t, (n, m) :: g)
     (rmatch (payload_eol n) (p, m +++ t, g)).
Proof.
  intros Hm Ht. apply in_seq. exists (p + String.length m, t, (n, m) :: g).
  split; [|now apply in_eol].
  apply in_group. exists m, t, g. split; [|easy].
  apply in_star. now exists m, t.
Qed.

Lemma is_end_stops (t : string) : is_end t -> stops (in_cset CDot) t.
Proof. now intros [->| ->]. Qed.

Lemma run_split_unique cs d1 r1 d2 r2 :
  is_run cs d1 = true -> is_run cs d2 = true ->
  stops (in_cset cs) r1 -> stops (in_cset cs) r2 ->
  d1 +++ r1 = d2 +++ r2 -> d1 = d2 /\ r1 = r2.
Proof.
  intros H1 H2 S1 S2. apply is_run_iff in H1 as [_ H1], H2 as [_ H2].
  now apply split_unique with (p := in_cset cs).
Qed.

(** *** Every match of a pattern has the shape of its grammar *)

Lemma outbound_sound s p x :
  In x (rmatch outbound_re (p, s, [])) ->
  p = 0 /\ outbound_shape s (snd x).
Proof.
  unfold outbound_re, payload_eol. destruct x as [[p' s'] g'].
  intros H. inv_match. subst. same_tail. split; [easy|].
  match goal with
  | A : is_run _ ?a = true, B : is_run _ ?b = true,
    M : all _ ?m = true, T : is_end ?t |- _ => exists a, b, m, t
  end. easy.
Qed.

Lemma inbound_sound s p x :
  In x (rmatch inbound_re (p, s, [])) ->
  p = 0 /\ inbound_shape s (snd x).
Proof.
  unfold inbound_re, payload_eol. destruct x as [[p' s'] g'].
  intros H. inv_match. subst. same_tail. split; [easy|].
  match goal with
  | A : is_run digit ?a = true, B : is_run digit_dot ?b = true,
    C : is_run digit ?c = true,
    M : all _ ?m = true, T : is_end ?t |- _ =>
      lazymatch goal with
      | |- inbound_shape (_ +++ a +++ _) _ => exists a, b, c, m, t
      | |- _ => exists c, b, a, m, t
      end
  end. easy.
Qed.

Lemma transport_sound s p x :
  In x (rmatch transport_re (p, s, [])) ->
  p = 0 /\ transport_shape s (snd x).
Proof.
  unfold transport_re, payload_eol. destruct x as [[p' s'] g'].
  intros H. inv_match. subst. same_tail. split; [easy|].
  match goal with
  | A : is_run digit_dot ?a = true, B : is_run digit ?b = true,
    M : all _ ?m = true, T : is_end ?t |- _ => exists a, b, m, t
  end. easy.
Qed.


Lemma udp_log_sound s p x :
  In x (rmatch udp_log_re (p, s, [])) ->
  p = 0 /\ udp_log_shape s (snd x).
Proof.
  unfold udp_log_re. destruct x as [[p' s'] g'].
  intros H. inv_match; subst; same_tail.
  - match goal with
    | E : _ = ?u +++ ?c |- _ => apply (app_inv_tail "IN" u c) in E; subst u
    end.
    split; [easy|].
    match goal with
    | A : is_run _ ?a = true, B : is_run _ ?b = true,
      C : is_run _ ?c = true, D : is_run _ ?d = true,
      M : all _ ?m = true, T : is_end ?t
      |- udp_log_shape _
           (snd (_, _, [(6, ?m); (5, ?d); (4, ?c); (3, ?b); (2, ?a); _])) =>
        exists "IN", a, b, c, d, m, t
    end. repeat split; auto.
  - match goal with
    | E : _ = ?u +++ ?c |- _ => apply (app_inv_tail "OUT" u c) in E; subst u
    end.
    split; [easy|].
    match goal with
    | A : is_run _ ?a = true, B : is_run _ ?b = true,
      C : is_run _ ?c = true, D : is_run _ ?d = true,
      M : all _ ?m = true, T : is_end ?t
      |- udp_log_shape _
           (snd (_, _, [(6, ?m); (5, ?d); (4, ?c); (3, ?b); (2, ?a); _])) =>
        exists "OUT", a, b, c, d, m, t
    end. repeat split; auto.
Qed.

(** *** From matches to [re.search] *)

Section Search.
Variables (pattern : string) (r : regex).
Variable shape : string -> groups -> Prop.
Hypothesis compiled : compile pattern = Some r.
Hypothesis sound :
  forall s p x, In x (rmatch r (p, s, [])) -> p = 0 /\ shape s (snd x).

Lemma search_sound s g : search pattern s = Some g -> shape s g.
Proof.
  unfold search. rewrite compiled.
  destruct (search_from r 0 s) as [[[p' s'] g']|] eqn:E; [|discriminate].
  intros [= <-].
  apply search_from_sound in E as (u & t & -> & H).
  apply sound in H as [H0 H]. destruct u; [exact H | discriminate].
Qed.

Hypothesis unique : forall s g1 g2, shape s g1 -> shape s g2 -> g1 = g2.
Hypothesis complete :
  forall s g, shape s g -> exists x, In x (rmatch r (0, s, [])) /\ snd x = g.

Lemma search_iff s g : search pattern s = Some g <-> shape s g.
Proof.
  split; [apply search_sound|]. intros H.
  destruct (complete s g H) as (x & Hx & <-).
  apply search_from_complete in Hx as (y & Hy & Hin).
  unfold search. rewrite compiled, Hy. destruct y as [[p' s'] g'].
  f_equal. apply (unique s); [|exact H].
  now apply sound in Hin.
Qed.

Lemma search_none s : search pattern s = None <-> forall g, ~ shape s g.
Proof.
  split.
  - intros E g H. apply search_iff in H. congruence.
  - intros H. destruct (search pattern s) as [g|] eqn:E; [|reflexivity].
    apply search_sound in E. now apply H in E.
Qed.
End Search.

(** *** The two peer patterns match exactly the lines of their grammar *)

Lemma outbound_complete s g :
  outbound_shape s g ->
  exists x, In x (rmatch outbound_re (0, s, [])) /\ snd x = g.
Proof.
  intros (a & b & m & t & -> & Ha & Hb & Hm & Ht & ->). unfold outbound_re.
  eexists (_, _, _). split; [|reflexivity].
  apply in_seq. eexists. split; [now apply in_bol|].
  apply step_group_plus; [exact Ha|]. apply step_lits.
  apply step_group_plus; [exact Hb|]. apply step_lits.
  apply step_payload_eol; assumption.
Qed.

Lemma outbound_unique s g1 g2 :
  outbound_shape s g1 -> outbound_shape s g2 -> g1 = g2.
Proof.
  intros (a & b & m & t & -> & Ha & Hb & Hm & Ht & ->)
         (a' & b' & m' & t' & E & Ha' & Hb' & Hm' & Ht' & ->).
  simpl in E. injection E as E.
  apply (run_split_unique _ _ _ _ _ Ha Ha') in E as [-> E]; [|easy|easy].
  simpl in E. injection E as E.
  apply (run_split_unique _ _ _ _ _ Hb Hb') in E as [-> E]; [|easy|easy].
  simpl in E. injection E as E.
  apply split_unique with (p := in_cset CDot) in E as [-> E];
    auto using is_end_stops.
Qed.

Lemma inbound_complete s g :
  inbound_shape s g ->
  exists x, In x (rmatch inbound_re (0, s, [])) /\ snd x = g.
Proof.
  intros (a & ip & port & m & t & -> & Ha & Hi & Hp & Hm & Ht & ->).
  unfold inbound_re.
  eexists (_, _, _). split; [|reflexivity].
  apply in_seq. eexists. split; [now apply in_bol|].
  apply step_group_plus; [exact Ha|]. apply step_lits.
  apply (step_group_plus 2 ""); [exact Hi|]. apply step_lits.
  apply step_plus; [exact Hp|]. apply step_lits.
  apply step_payload_eol; assumption.
Qed.

Lemma inbound_unique s g1 g2 :
  inbound_shape s g1 -> inbound_shape s g2 -> g1 = g2.
Proof.
  intros (a & ip & port & m & t & -> & Ha & Hi & Hp & Hm & Ht & ->)
         (a' & ip' & port' & m' & t' & E & Ha' & Hi' & Hp' & Hm' & Ht' & ->).
  simpl in E. injection E as E.
  apply (run_split_unique _ _ _ _ _ Ha Ha') in E as [-> E]; [|easy|easy].
  simpl in E. injection E as E.
  apply (run_split_unique _ _ _ _ _ Hi Hi') in E as [-> E]; [|easy|easy].
  simpl in E. injection E as E.
  apply (run_split_unique _ _ _ _ _ Hp Hp') in E as [-> E]; [|easy|easy].
  simpl in E. injection E as E.
  apply split_unique with (p := in_cset CDot) in E as [-> E];
    auto using is_end_stops.
Qed.

Lemma search_outbound s g :
  search outbound s = Some g <-> outbound_shape s g.
Proof.
  exact (search_iff outbound outbound_re outbound_shape compile_outbound
           outbound_sound outbound_unique outbound_complete s g).
Qed.

Lemma search_inbound s g :
  search inbound s = Some g <-> inbound_shape s g.
Proof.
  exact (search_iff inbound inbound_re inbound_shape compile_inbound
           inbound_sound inbound_unique inbound_complete s g).
Qed.

Lemma search_transport s g :
  search transport s = Some g -> transport_shape s g.
Proof.
  exact (search_sound transport transport_re transport_shape
           compile_transport transport_sound s g).
Qed.

Lemma search_udp_log s g :
  search udp_log s = Some g -> udp_log_shape s g.
Proof.
  exact (search_sound udp_log udp_log_re udp_log_shape
           compile_udp_log udp_log_sound s g).
Qed.

End PatternFacts.

(** ** The patterns exclude one another *)

Module Exclusive.
Import Str Re StrFacts ReFacts Pattern PatternFacts.

Lemma outbound_not_inbound s g g' :
  outbound_shape s g -> inbound_shape s g' -> False.
Proof.
  intros (a & b & m & t & -> & Ha & _)
         (a' & ip & port & m' & t' & E & Ha' & _).
  simpl in E. injection E as E.
  apply (run_split_unique _ _ _ _ _ Ha Ha') in E as [_ E]; [|easy|easy].
  discriminate.
Qed.

Lemma outbound_not_transport s g g' :
  outbound_shape s g -> transport_shape s g' -> False.
Proof.
  intros (a & b & m & t & -> & _) (ip & port & m' & t' & E & _).
  discriminate.
Qed.

Lemma outbound_not_udp_log s g g' :
  outbound_shape s g -> udp_log_shape s g' -> False.
Proof.
  intros (a & b & m & t & -> & _) (? & ? & ? & ? & ? & ? & ? & E & _).
  discriminate.
Qed.

Lemma inbound_not_transport s g g' :
  inbound_shape s g -> transport_shape s g' -> False.
Proof.
  intros (a & ? & ? & m & t & -> & _) (ip & port & m' & t' & E & _).
  discriminate.
Qed.

Lemma inbound_not_udp_log s g g' :
  inbound_shape s g -> udp_log_shape s g' -> False.
Proof.
  intros (a & ? & ? & m & t & -> & _) (? & ? & ? & ? & ? & ? & ? & E & _).
  discriminate.
Qed.

Lemma transport_not_udp_log s g g' :
  transport_shape s g -> udp_log_shape s g' -> False.
Proof.
  intros (ip & port & m & t & -> & _) (? & ? & ? & ? & ? & ? & ? & E & _).
  discriminate.
Qed.

Lemma matches_outbound s :
  matches outbound s = true -> exists g, outbound_shape s g.
Proof.
  unfold matches. destruct (search outbound s) as [g|] eqn:E; [|discriminate].
  intros _. exists g. now apply search_outbound.
Qed.

Lemma matches_inbound s :
  matches inbound s = true -> exists g, inbound_shape s g.
Proof.
  unfold matches. destruct (search inbound s) as [g|] eqn:E; [|discriminate].
  intros _. exists g. now apply search_inbound.
Qed.

Lemma matches_transport s :
  matches transport s = true -> exists g, transport_shape s g.
Proof.
  unfold matches. destruct (search transport s) as [g|] eqn:E; [|discriminate].
  intros _. exists g. now apply search_transport.
Qed.

Lemma matches_udp_log s :
  matches udp_log s = true -> exists g, udp_log_shape s g.
Proof.
  unfold matches. destruct (search udp_log s) as [g|] eqn:E; [|discriminate].
  intros _. exists g. now apply search_udp_log.
Qed.

(** No line is matched by two of the four patterns. *)
Lemma at_most_one_pattern (s : string) :
  List.length (filter (fun pattern => matches pattern s) all_patterns) <= 1.
Proof.
  unfold all_patterns. simpl.
  destruct (matches outbound s) eqn:A; destruct (matches inbound s) eqn:B;
    destruct (matches transport s) eqn:C; destruct (matches udp_log s) eqn:D;
    simpl; try lia; exfalso;
    try (apply matches_outbound in A as [ga A]);
    try (apply matches_inbound in B as [gb B]);
    try (apply matches_transport in C as [gc C]);
    try (apply matches_udp_log in D as [gd D]);
    eauto using outbound_not_inbound, outbound_not_transport,
      outbound_not_udp_log, inbound_not_transport, inbound_not_udp_log,
      transport_not_udp_log.
Qed.

End Exclusive.

(** ** The loops of the renderers

    Each loop over the records handles a sequence by handling its first
    part, then the rest from where the first part ended. *)

Module InOrder.








End InOrder.

(** ** The renderers on no record and on records without a timestamp *)

Module Rendering.

(** C8, where the code departs from it. Each renderer ends without an
    exception on the empty sequence: the tabular trace prints its
    notice, and the generators return their frame with nothing in it,
    all but the PlantUML state generator.  That one writes one document
    per participant and so returns the empty text, which is no PlantUML
    document, where the sequence and the activity generators return an
    empty document. *)
Theorem renderers_on_no_records :
  run (print_wireshark_style []) = (["No logs to display."], Ok tt)
  /\ generate_sequence_diagram_plantuml [] =
     Ok (lines ["@startuml"; "skinparam monochrome true"; ""; "@enduml"])
  /\ generate_activity_diagram_plantuml [] =
     Ok (lines ["@startuml"; "skinparam monochrome true"; "start"; "stop";
                "@enduml"])
  /\ generate_state_diagram_plantuml [] = Ok ""
  /\ generate_ascii_sequence_diagram [] =
     Ok (lines ["ASCII Sequence Diagram:"; "-----------------------"; "";
                ""; "-----------------------"])
  /\ generate_ascii_activity_flow [] =
     Ok (lines ["ASCII Activity Flow:"; "---------------------";
                "---------------------"])
  /\ generate_ascii_state_flow [] =
     Ok (lines ["ASCII State Flow (per participant):";
                "-----------------------------------";
                "-----------------------------------"])
  /\ plantuml_document
       (lines ["@startuml"; "skinparam monochrome true"; ""; "@enduml"])
     = true
  /\ plantuml_document
       (lines ["@startuml"; "skinparam monochrome true"; "start"; "stop";
               "@enduml"])
     = true
  /\ plantuml_document "" = false.
Proof. repeat split. Qed.

Lemma print_rows_raises start_time logs :
  forall in_count out_count out,
    (exists log, In log logs /\ timestamp log = None) ->
    exists out' e,
      print_rows start_time logs in_count out_count out = (out', Raise e).
Proof.
  induction logs as [|log logs IH]; intros a b out (bad & Hin & Hbad);
    [easy|].
  cbn [print_rows]. unfold io_bind, lift, print, get_timestamp.
  destruct (timestamp log) as [t|] eqn:Et; [|now exists out, KeyError].
  destruct Hin as [->|Hin]; [congruence|].
  destruct (Str.contains "localhost" (destination log));
    (destruct (row (t - start_time) log) as [line|e];
     [apply IH; now exists bad | now exists out, e]).
Qed.

(** C2, where the code departs from it. [print_wireshark_style] reads
    ['timestamp'] in every record: when the first record has none, it
    raises [KeyError] once the header is printed, and when any record
    has none it ends with an exception; no row shows the time 0 for
    such a record. *)
Theorem tabular_trace_needs_timestamps :
  (forall first rest,
     timestamp first = None ->
     run (print_wireshark_style (first :: rest)) =
     ([header; rule], Raise KeyError))
  /\ (forall parsed_logs,
        (exists log, In log parsed_logs /\ timestamp log = None) ->
        exists out e,
          run (print_wireshark_style parsed_logs) = (out, Raise e)).
Proof.
  split.
  - intros first rest H. unfold run, print_wireshark_style.
    unfold io_bind, lift, print, get_timestamp. now rewrite H.
  - intros [|first rest] (bad & Hin & Hbad); [easy|].
    unfold run, print_wireshark_style.
    unfold io_bind at 1 2 3 4. unfold lift at 1, print at 1 2.
    unfold get_timestamp at 1.
    destruct (timestamp first) as [t|]; [|now eexists _, _].
    match goal with
    | |- context [print_rows ?st ?l ?a ?b ?o] =>
        destruct (print_rows_raises st l a b o) as (out' & e & E);
          [now exists bad|]
    end.
    rewrite E. now exists out', e.
Qed.

(** What holds of C2: when every record has a timestamp and its source
    and type can be formatted, the loop prints one row per record, in
    order, with the offset of its timestamp from [start_time]. *)
Lemma print_rows_offsets start_time logs :
  forall rows in_count out_count out,
    Forall2 (fun log line =>
               exists t, timestamp log = Some t /\
                         row (t - start_time) log = Ok line) logs rows ->
    exists counts,
      print_rows start_time logs in_count out_count out =
      (out ++ rows, Ok counts).
Proof.
  induction logs as [|log logs IH]; intros rows a b out F; inversion F; subst.
  - exists (a, b). simpl. unfold io_ret. now rewrite List.app_nil_r.
  - match goal with
    | H : exists t, _ |- _ => destruct H as (t & Et & Er)
    end.
    cbn [print_rows]. unfold io_bind, lift, print, get_timestamp.
    rewrite Et.
    destruct (Str.contains "localhost" (destination log)); rewrite Er;
      match goal with
      | F' : Forall2 _ logs ?l' |- context [print_rows _ _ ?a' ?b' ?o] =>
          destruct (IH l' a' b' o F') as (counts & ->)
      end; exists counts; now rewrite <- List.app_assoc.
Qed.

Lemma timeline_ok start_time logs :
  forall d,
    Forall (fun log => exists t, timestamp log = Some t) logs ->
    exists d', timeline start_time logs d = Ok d'.
Proof.
  induction logs as [|log logs IH]; intros d F; inversion F; subst.
  - now exists d.
  - match goal with
    | H : exists t, _ |- _ => destruct H as (t & Et)
    end.
    cbn [timeline]. unfold get_timestamp. rewrite Et. simpl. now apply IH.
Qed.

Lemma print_all_run rows :
  forall out, print_all rows out = (out ++ rows, Ok tt).
Proof.
  induction rows as [|l rows IH]; intros out; simpl.
  - unfold io_ret. now rewrite List.app_nil_r.
  - unfold io_bind, print. rewrite IH. now rewrite <- List.app_assoc.
Qed.

(** And then the whole trace is printed: the header, the rows, the
    summary with the number of records, and the time plot. *)
Lemma tabular_trace_rows first rest rows start_time :
  timestamp first = Some start_time ->
  Forall2 (fun log line =>
             exists t, timestamp log = Some t /\
                       row (t - start_time) log = Ok line)
    (first :: rest) rows ->
  exists in_count out_count plot,
    run (print_wireshark_style (first :: rest)) =
    ([header; rule] ++ rows
     ++ [String Str.newline (Str.repeat "=" 140);
         "Total Packets: " +++ Fmt.of_nat (List.length (first :: rest));
         "Incoming Packets: " +++ Fmt.of_nat in_count;
         "Outgoing Packets: " +++ Fmt.of_nat out_count;
         Str.repeat "=" 140;
         String Str.newline "Time Plot (Relative Seconds):";
         rule]
     ++ plot ++ [rule],
     Ok tt).
Proof.
  intros E0 F.
  assert (T : Forall (fun log => exists t, timestamp log = Some t)
                (first :: rest)).
  { clear E0. induction F as [|log line logs rows (t & Et & _) _ IH];
      constructor; eauto. }
  destruct (timeline_ok start_time (first :: rest) [] T) as (d & Ed).
  unfold run, print_wireshark_style.
  unfold io_bind at 1 2 3. unfold print at 1 2. unfold lift at 1.
  unfold get_timestamp at 1. rewrite E0. unfold io_bind at 1.
  match goal with
  | |- context [print_rows ?st ?l ?a ?b ?o] =>
      destruct (print_rows_offsets st l rows a b o F) as ([a' b'] & ->)
  end.
  exists a', b'. unfold io_bind, print, lift. rewrite Ed.
  rewrite print_all_run.
  match goal with
  | |- context [map (timeline_row d) ?l] => exists (map (timeline_row d) l)
  end.
  f_equal. rewrite <- !List.app_assoc. reflexivity.
Qed.

End Rendering.

(** ** The loop of [parse_log_file] *)

Section ParserFacts.
Import Str Re StrFacts ReFacts Pattern PatternFacts Exclusive.

Variable json_loads : string -> option pyval.
Variable strptime : Z -> string -> option Z.
Variable today : nat -> Z.

#[local] Abbreviation parse_line := (parse_line json_loads strptime today).
#[local] Abbreviation parse_loop := (parse_loop json_loads strptime today).
#[local] Abbreviation parse_log_file := (parse_log_file json_loads strptime today).
#[local] Abbreviation recognizers := (recognizers json_loads strptime today).
#[local] Abbreviation on_inbound := (on_inbound json_loads).
#[local] Abbreviation on_outbound := (on_outbound json_loads).
#[local] Abbreviation on_transport := (on_transport json_loads).
#[local] Abbreviation on_udp_log := (on_udp_log json_loads strptime today).
#[local] Abbreviation source_ok := (source_ok json_loads).
#[local] Abbreviation type_ok := (type_ok json_loads).

Lemma parse_line_first_match i log :
  parse_line i log = first_match (recognizers i) (strip log).
Proof. reflexivity. Qed.

Lemma recognizers_exclusive i s : exclusive_on s (recognizers i).
Proof.
  intros r1 r2 H1 H2 M1 M2. simpl in H1, H2.
  destruct H1 as [<-|[<-|[<-|[<-|[]]]]];
    destruct H2 as [<-|[<-|[<-|[<-|[]]]]];
    try reflexivity; exfalso; simpl in M1, M2;
    try (apply matches_outbound in M1 as [g1 M1]);
    try (apply matches_inbound in M1 as [g1 M1]);
    try (apply matches_transport in M1 as [g1 M1]);
    try (apply matches_udp_log in M1 as [g1 M1]);
    try (apply matches_outbound in M2 as [g2 M2]);
    try (apply matches_inbound in M2 as [g2 M2]);
    try (apply matches_transport in M2 as [g2 M2]);
    try (apply matches_udp_log in M2 as [g2 M2]);
    eauto using outbound_not_inbound, outbound_not_transport,
      outbound_not_udp_log, inbound_not_transport, inbound_not_udp_log,
      transport_not_udp_log.
Qed.

Lemma first_match_none rs s :
  (forall r, In r rs -> search (fst r) s = None) ->
  first_match rs s = Ok None.
Proof.
  induction rs as [|[pat body] rs IH]; intros H; simpl; [reflexivity|].
  pose proof (H (pat, body) (or_introl eq_refl)) as E. simpl in E.
  rewrite E. apply IH. intros r Hr. apply H. now right.
Qed.

Lemma first_match_the_one rs s pat body m :
  exclusive_on s rs -> In (pat, body) rs -> search pat s = Some m ->
  first_match rs s = (r <- body m ;; Ok (Some r)).
Proof.
  induction rs as [|[pat' body'] rs IH]; intros Hex Hin Hm; [easy|].
  simpl. destruct (search pat' s) as [m'|] eqn:E.
  - assert ((pat', body') = (pat, body)) as [= -> ->].
    { apply Hex; [now left | exact Hin | |]; unfold matches; simpl.
      - now rewrite E.
      - now rewrite Hm. }
    rewrite E in Hm. now injection Hm as ->.
  - destruct Hin as [[= -> ->]|Hin]; [congruence|].
    apply IH; [|exact Hin|exact Hm].
    intros r1 r2 H1 H2. apply Hex; now right.
Qed.

Lemma first_match_permutation i s rs :
  Permutation rs (recognizers i) ->
  first_match rs s = first_match (recognizers i) s.
Proof.
  intros P.
  assert (Hex : exclusive_on s rs).
  { intros r1 r2 H1 H2. apply (recognizers_exclusive i s);
      eauto using Permutation_in. }
  destruct (existsb (fun r : recognizer => matches (fst r) s) rs) eqn:E.
  - apply existsb_exists in E as ([pat body] & Hin & Hm).
    unfold matches in Hm. simpl in Hm.
    destruct (search pat s) as [m|] eqn:Es; [|discriminate].
    rewrite (first_match_the_one rs s pat body m Hex Hin Es).
    symmetry. apply (first_match_the_one _ s pat body m);
      eauto using recognizers_exclusive, Permutation_in.
  - assert (N : forall r, In r rs -> search (fst r) s = None).
    { intros r Hr.
      assert (M : matches (fst r) s = false).
      { destruct (matches (fst r) s) eqn:M; [|reflexivity].
        rewrite <- E. symmetry. apply existsb_exists. now exists r. }
      unfold matches in M. now destruct (search (fst r) s). }
    rewrite (first_match_none rs s N). symmetry.
    apply first_match_none. intros r Hr. apply N.
    eapply Permutation_in; [symmetry; exact P | exact Hr].
Qed.

(** *** The loop appends, line after line *)

Lemma parse_loop_acc logs :
  forall i acc,
    parse_loop i logs acc =
    (rs <- parse_loop i logs [] ;; Ok (acc ++ rs)).
Proof.
  induction logs as [|log logs IH]; intros i acc; simpl.
  - now rewrite List.app_nil_r.
  - destruct (parse_line i log) as [[r|]|e]; [| apply IH | reflexivity].
    rewrite (IH (S i) (acc ++ [r])), (IH (S i) [r]).
    destruct (parse_loop (S i) logs []) as [rs|e]; simpl; [|reflexivity].
    now rewrite <- List.app_assoc.
Qed.

Lemma parse_loop_in_order logs :
  forall i recs,
    parse_loop i logs [] = Ok recs ->
    recs = flat_map (fun il => line_records json_loads strptime today
                                 (fst il) (snd il))
             (enumerate i logs)
    /\ Forall (fun il => exists o, parse_line (fst il) (snd il) = Ok o)
         (enumerate i logs).
Proof.
  unfold enumerate.
  induction logs as [|log logs IH]; intros i recs H; simpl in *.
  - injection H as <-. split; [reflexivity | constructor].
  - unfold line_records at 1. simpl.
    destruct (parse_line i log) as [[r|]|e] eqn:E; [| |discriminate].
    + rewrite parse_loop_acc in H.
      destruct (parse_loop (S i) logs []) as [rs|e] eqn:E'; [|discriminate].
      injection H as <-. destruct (IH (S i) rs E') as [-> F].
      split; [reflexivity|]. constructor; [|exact F]. now exists (Some r).
    + destruct (IH (S i) recs H) as [-> F].
      split; [reflexivity|]. constructor; [|exact F]. now exists None.
Qed.

Lemma parse_log_file_line logs recs r :
  parse_log_file logs = Ok recs -> In r recs ->
  exists i line, In line logs /\ parse_line i line = Ok (Some r).
Proof.
  intros H Hr. apply parse_loop_in_order in H as [-> _].
  apply in_flat_map in Hr as ([i line] & Hin & Hr). simpl in Hr.
  exists i, line. split.
  - unfold enumerate in Hin. now apply in_combine_r in Hin.
  - unfold line_records in Hr.
    destruct (parse_line i line) as [[r'|]|e]; try easy.
    destruct Hr as [->|[]]. reflexivity.
Qed.

Lemma enumerate_in (logs : list string) :
  forall a i line,
    nth_error logs i = Some line -> In (a + i, line) (enumerate a logs).
Proof.
  unfold enumerate.
  induction logs as [|l logs IH]; intros a [|i] line H; simpl in *;
    try discriminate.
  - injection H as <-. left. now rewrite Nat.add_0_r.
  - right. rewrite Nat.add_succ_r. now apply (IH (S a) i).
Qed.

(** *** The record of a matched line *)

Lemma parse_line_cases i line r :
  parse_line i line = Ok (Some r) ->
  (exists g, outbound_shape (strip line) g /\ on_outbound g = Ok r) \/
  (exists g, inbound_shape (strip line) g /\ on_inbound g = Ok r) \/
  (exists g, transport_shape (strip line) g /\ on_transport g = Ok r) \/
  (exists g, udp_log_shape (strip line) g /\ on_udp_log i g = Ok r).
Proof.
  unfold parse_line.
  destruct (search outbound (strip line)) as [g|] eqn:E1.
  { intros H. left. exists g. split; [now apply search_outbound|].
    destruct (on_outbound g); simpl in H; congruence. }
  destruct (search inbound (strip line)) as [g|] eqn:E2.
  { intros H. right. left. exists g. split; [now apply search_inbound|].
    destruct (on_inbound g); simpl in H; congruence. }
  destruct (search transport (strip line)) as [g|] eqn:E3.
  { intros H. right. right. left. exists g.
    split; [now apply search_transport|].
    destruct (on_transport g); simpl in H; congruence. }
  destruct (search udp_log (strip line)) as [g|] eqn:E4; [|discriminate].
  intros H. right. right. right. exists g.
  split; [now apply search_udp_log|].
  destruct (on_udp_log i g); simpl in H; congruence.
Qed.

Lemma run_nonempty cs d : is_run cs d = true -> d <> "".
Proof. intros H. now apply is_run_iff in H. Qed.

Ltac crunch_payload :=
  repeat match goal with
  | |- context [match json_loads ?s with _ => _ end] =>
      let E := fresh "E" in destruct (json_loads s) as [[]|] eqn:E; simpl
  | |- context [match dict_get ?d ?k with _ => _ end] =>
      let E := fresh "E" in destruct (dict_get d k) as [[]|] eqn:E; simpl
  end.

Lemma outbound_record g s r :
  outbound_shape s g -> on_outbound g = Ok r ->
  destination r <> "" /\ source_ok r /\ type_ok r.
Proof.
  intros (a & b & m & t & _ & Ha & Hb & _ & _ & ->).
  unfold on_outbound, loads, source_ok, type_ok, sentinel. simpl.
  crunch_payload; intros [= <-]; simpl;
    (split; [discriminate|]);
    (split; [left; eexists; split; [reflexivity|discriminate]|]);
    (split; [try congruence; try reflexivity|]); eauto 10.
Qed.

Lemma inbound_record g s r :
  inbound_shape s g -> on_inbound g = Ok r ->
  destination r <> "" /\ source_ok r /\ type_ok r.
Proof.
  intros (a & ip & port & m & t & _ & Ha & Hi & _ & _ & _ & ->).
  apply run_nonempty in Hi.
  unfold on_inbound, loads, source_ok, type_ok, sentinel. simpl.
  crunch_payload; intros [= <-]; simpl;
    (split; [discriminate|]);
    (split;
     [ first [ left; eexists; split; [reflexivity|];
               first [discriminate | exact Hi]
             | right; eexists; split; [eassumption|]; eassumption ]
     |]);
    (split; [try congruence; try reflexivity|]); eauto 10.
Qed.

Lemma transport_record g s r :
  transport_shape s g -> on_transport g = Ok r ->
  destination r <> "" /\ source_ok r /\ type_ok r.
Proof.
  intros (ip & port & m & t & _ & Hi & _ & _ & _ & ->).
  apply run_nonempty in Hi.
  assert (D : ip +++ ":" +++ port <> "") by now destruct ip.
  unfold on_transport, loads, source_ok, type_ok, sentinel. simpl.
  crunch_payload; intros [= <-]; simpl;
    (split; [exact D|]);
    (split;
     [ first [ left; eexists; split; [reflexivity|]; discriminate
             | right; eexists; split; [eassumption|]; eassumption ]
     |]);
    (split; [try congruence; try reflexivity|]); eauto 10.
Qed.

Lemma udp_log_record i g s r :
  udp_log_shape s g -> on_udp_log i g = Ok r ->
  destination r <> "" /\ source_ok r /\ type_ok r.
Proof.
  intros (dir & clock & lport & raddr & rport & m & t
          & _ & Hd & _ & _ & Hr & _ & _ & _ & ->).
  apply run_nonempty in Hr.
  assert (D : raddr +++ ":" +++ rport <> "") by now destruct raddr.
  unfold on_udp_log, loads, source_ok, type_ok, sentinel. simpl.
  destruct (strptime (today i) clock) as [ts|]; [simpl|discriminate].
  destruct Hd as [-> | ->]; simpl;
    (destruct (json_loads m) as [[| | | | p | l | d]|] eqn:E; simpl;
     try discriminate;
     try (destruct (contains "type" p); simpl; try discriminate);
     try (destruct (existsb (is_str "type") l); simpl; try discriminate);
     try (destruct (dict_get d "type") as [ty|] eqn:E'; simpl);
     intros [= <-]; simpl;
     (split; [first [exact D | discriminate]|]);
     (split;
      [ left; eexists; split; [reflexivity|first [exact D | discriminate]]
      |]);
     (split; [try congruence; try reflexivity|]); eauto 10).
Qed.

Lemma parse_line_record i line r :
  parse_line i line = Ok (Some r) ->
  destination r <> "" /\ source_ok r /\ type_ok r.
Proof.
  intros H.
  apply parse_line_cases in H
    as [(g & S & H)|[(g & S & H)|[(g & S & H)|(g & S & H)]]];
    eauto using outbound_record, inbound_record, transport_record,
      udp_log_record.
Qed.

(** C4, as the code has it. The destination of every record of
    [parse_log_file] is a non-empty string; its source is a non-empty
    string or, for a line whose payload decodes to an object, the
    [sender] of that object as it is. *)
Theorem source_and_destination (logs : list string) (recs : list record) :
  parse_log_file logs = Ok recs ->
  forall r, In r recs ->
    destination r <> "" /\
    ((exists s, source r = PyStr s /\ s <> "") \/
     (exists d, json_loads (info r) = Some (PyDict d) /\
                dict_get d "sender" = Some (source r))).
Proof.
  intros H r Hr.
  destruct (parse_log_file_line logs recs r H Hr) as (i & line & _ & E).
  apply parse_line_record in E as (D & S & _). now split.
Qed.

(** *** Names without a colon *)

Lemma node_name_iff (peer : string) :
  is_node_name peer = true <->
  exists a, peer = "node" +++ a /\ is_digits a = true.
Proof.
  unfold is_node_name. split.
  - destruct (strip_prefix "node" peer) as [a|] eqn:E; [|discriminate].
    intros H. exists a. split; [|exact H]. now apply strip_prefix_some.
  - intros (a & -> & H). now rewrite strip_prefix_app.
Qed.


Lemma all_impl (p q : ascii -> bool) (s : string) :
  (forall c, p c = true -> q c = true) -> all p s = true -> all q s = true.
Proof.
  intros H. induction s as [|c s IH]; simpl; [easy|].
  rewrite !andb_true_iff. intros [Hc Hs]. auto.
Qed.

Lemma run_no_colon cs d :
  in_cset cs ":" = false -> is_run cs d = true -> no_colon d = true.
Proof.
  intros Hc H. apply is_run_iff in H as [_ H].
  apply all_impl with (p := in_cset cs); [|exact H].
  intros c Hin. unfold not_colon.
  destruct (Ascii.eqb_spec c ":") as [->|]; [congruence | reflexivity].
Qed.

Lemma run_head cs d :
  is_run cs d = true -> exists c d', d = String c d' /\ in_cset cs c = true.
Proof.
  intros H. apply is_run_iff in H as [N H]. destruct d as [|c d]; [easy|].
  simpl in H. apply andb_true_iff in H as [H _]. now exists c, d.
Qed.

(** The text before the first colon, and the text after it. *)
Lemma colon_split a r a' r' :
  no_colon a = true -> no_colon a' = true ->
  a +++ String ":" r = a' +++ String ":" r' -> a = a' /\ r = r'.
Proof.
  intros H H' E.
  apply split_unique with (p := not_colon) in E as [-> E]; try easy.
  now injection E.
Qed.

Lemma no_colon_app a b :
  no_colon a = true -> no_colon b = true -> no_colon (a +++ b) = true.
Proof. unfold no_colon. intros Ha Hb. now rewrite all_app, Ha, Hb. Qed.

(** A clock text has no colon, or a first colon followed by clock
    characters. *)
Lemma clock_colon clock :
  all (in_cset (CSet [IDigit; IChr "."; IChr ":"])) clock = true ->
  no_colon clock = true \/
  exists c1 c3, clock = c1 +++ String ":" c3 /\ no_colon c1 = true /\
                all (in_cset (CSet [IDigit; IChr "."; IChr ":"])) c3 = true.
Proof.
  induction clock as [|c clock IH]; [now left|].
  intros H. simpl in H. apply andb_true_iff in H as [Hc H].
  destruct (Ascii.eqb_spec c ":") as [->|N].
  - right. now exists "", clock.
  - assert (Nc : not_colon c = true).
    { unfold not_colon. now destruct (Ascii.eqb_spec c ":"). }
    destruct (IH H) as [L | (c1 & c3 & -> & L & R)].
    + left. unfold no_colon. simpl. now rewrite Nc.
    + right. exists (String c c1), c3. repeat split; try easy.
      unfold no_colon. simpl. now rewrite Nc.
Qed.

(** In a line of the [UDP_LOG] grammar the first colon is in the clock
    or before the remote port, and what follows it is not a space. *)
Lemma clock_first_colon P clock lport raddr rport rest a w :
  no_colon P = true ->
  is_clock clock = true ->
  is_run (CSet [IDigit]) lport = true ->
  is_dotted raddr = true ->
  is_run (CSet [IDigit]) rport = true ->
  no_colon a = true ->
  P +++ clock +++ "] [" +++ lport +++ "] [" +++ raddr +++ ":" +++ rport
    +++ rest = a +++ String ":" (String " " w) ->
  False.
Proof.
  intros HP Hc Hl Hr Hp Ha E.
  apply is_run_iff in Hc as [_ Hc].
  apply run_no_colon in Hl; [|reflexivity].
  apply run_no_colon in Hr; [|reflexivity].
  apply run_head in Hp as (c & rport' & -> & Hp).
  destruct (clock_colon clock Hc) as [L | (c1 & c3 & -> & L & R)].
  - (* the first colon is the one before the remote port *)
    assert (Q : no_colon (P +++ clock +++ "] [" +++ lport +++ "] ["
                          +++ raddr) = true)
      by (repeat (apply no_colon_app; try easy)).
    assert (R : P +++ clock +++ "] [" +++ lport +++ "] [" +++ raddr +++ ":"
                +++ String c rport' +++ rest
                = (P +++ clock +++ "] [" +++ lport +++ "] [" +++ raddr)
                  +++ String ":" (String c (rport' +++ rest))).
    { now rewrite !app_assoc. }
    rewrite R in E. apply colon_split in E as [_ E]; try easy.
    injection E as -> _. discriminate.
  - (* the first colon is in the clock *)
    assert (R' : P +++ (c1 +++ String ":" c3) +++ "] [" +++ lport +++ "] ["
                 +++ raddr +++ ":" +++ String c rport' +++ rest
                 = (P +++ c1)
                   +++ String ":" (c3 +++ "] [" +++ lport +++ "] [" +++ raddr
                                   +++ ":" +++ String c rport' +++ rest)).
    { now rewrite !app_assoc. }
    rewrite R' in E. apply colon_split in E as [_ E]; try easy.
    + destruct c3 as [|c' c3]; simpl in E; [discriminate|].
      injection E as -> _. simpl in R. discriminate.
    + now apply no_colon_app.
Qed.

Lemma udp_log_first_colon s g a w :
  udp_log_shape s g -> no_colon a = true ->
  s = a +++ String ":" (String " " w) -> False.
Proof.
  intros (dir & clock & lport & raddr & rport & m & t
          & -> & Hd & Hc & Hl & Hr & Hp & _) Ha E.
  destruct Hd as [-> | ->].
  - now apply (clock_first_colon "[UDP_LOG] [IN] [" clock lport raddr rport
                 ("] [" +++ m +++ "]" +++ t) a w).
  - now apply (clock_first_colon "[UDP_LOG] [OUT] [" clock lport raddr rport
                 ("] [" +++ m +++ "]" +++ t) a w).
Qed.

(** *** Lines with other names *)

Lemma node_no_colon x :
  is_digits x = true -> no_colon ("node" +++ x) = true.
Proof.
  intros H. apply (no_colon_app "node"); [reflexivity|].
  now apply (run_no_colon digit).
Qed.

Lemma outbound_like_dropped i line a b m :
  outbound_like (strip line) a b m ->
  is_node_name a = false \/ is_node_name b = false ->
  parse_line i line = Ok None.
Proof.
  intros (E & Ha & Hb) Hn. unfold parse_line. rewrite E.
  destruct (search outbound _) as [g|] eqn:E1.
  { exfalso. apply search_outbound in E1
      as (x & y & m' & t & E1 & Hx & Hy & _).
    change (a +++ ": Sending message to " +++ b +++ ": " +++ m)
      with (a +++ String ":" (" Sending message to " +++ b +++ ": " +++ m))
      in E1.
    change ("node" +++ x +++ ": Sending message to " +++ "node" +++ y
            +++ ": " +++ m' +++ t)
      with (("node" +++ x) +++ String ":" (" Sending message to "
            +++ ("node" +++ y) +++ String ":" (" " +++ m' +++ t))) in E1.
    apply colon_split in E1 as [-> E1]; auto using node_no_colon.
    simpl in E1. injection E1 as E1.
    change (String "n" (String "o" (String "d" (String "e"
             (y +++ String ":" (String " " (m' +++ t)))))))
      with (("node" +++ y) +++ String ":" (String " " (m' +++ t))) in E1.
    apply colon_split in E1 as [-> _]; auto using node_no_colon.
    assert (A : is_node_name ("node" +++ x) = true)
      by (apply node_name_iff; eauto).
    assert (B : is_node_name ("node" +++ y) = true)
      by (apply node_name_iff; eauto).
    destruct Hn; congruence. }
  destruct (search inbound _) as [g|] eqn:E2.
  { exfalso. apply search_inbound in E2
      as (x & ip & port & m' & t & E2 & Hx & _).
    change (a +++ ": Sending message to " +++ b +++ ": " +++ m)
      with (a +++ String ":" (" Sending message to " +++ b +++ ": " +++ m))
      in E2.
    change ("node" +++ x +++ ": Received message from " +++ ip +++ ":"
            +++ port +++ ": " +++ m' +++ t)
      with (("node" +++ x) +++ String ":" (" Received message from "
            +++ ip +++ ":" +++ port +++ ": " +++ m' +++ t)) in E2.
    apply colon_split in E2 as [_ E2]; auto using node_no_colon.
    discriminate. }
  destruct (search transport _) as [g|] eqn:E3.
  { exfalso. apply search_transport in E3
      as (ip & port & m' & t & E3 & Hi & Hp & _).
    change (a +++ ": Sending message to " +++ b +++ ": " +++ m)
      with (a +++ String ":" (" Sending message to " +++ b +++ ": " +++ m))
      in E3.
    change ("UDPTransport: Sending message to " +++ ip +++ ":" +++ port
            +++ ": " +++ m' +++ t)
      with ("UDPTransport" +++ String ":" (" Sending message to " +++ ip
            +++ String ":" (port +++ ": " +++ m' +++ t))) in E3.
    apply colon_split in E3 as [_ E3]; try easy.
    simpl in E3. injection E3 as E3.
    apply colon_split in E3 as [_ E3]; try easy.
    - apply run_head in Hp as (c & port' & -> & Hp).
      simpl in E3. injection E3 as <- _. discriminate.
    - now apply (run_no_colon digit_dot). }
  destruct (search udp_log _) as [g|] eqn:E4; [|reflexivity].
  exfalso. apply search_udp_log in E4.
  exact (udp_log_first_colon _ g a
           ("Sending message to " +++ b +++ ": " +++ m) E4 Ha eq_refl).
Qed.

Lemma inbound_like_dropped i line a m :
  inbound_like (strip line) a m ->
  is_node_name a = false ->
  parse_line i line = Ok None.
Proof.
  intros (E & Ha) Hn. unfold parse_line. rewrite E.
  destruct (search outbound _) as [g|] eqn:E1.
  { exfalso. apply search_outbound in E1
      as (x & y & m' & t & E1 & Hx & Hy & _).
    change (a +++ ": Received message from " +++ m)
      with (a +++ String ":" (" Received message from " +++ m)) in E1.
    change ("node" +++ x +++ ": Sending message to " +++ "node" +++ y
            +++ ": " +++ m' +++ t)
      with (("node" +++ x) +++ String ":" (" Sending message to "
            +++ ("node" +++ y) +++ String ":" (" " +++ m' +++ t))) in E1.
    apply colon_split in E1 as [_ E1]; auto using node_no_colon.
    discriminate. }
  destruct (search inbound _) as [g|] eqn:E2.
  { exfalso. apply search_inbound in E2
      as (x & ip & port & m' & t & E2 & Hx & _).
    change (a +++ ": Received message from " +++ m)
      with (a +++ String ":" (" Received message from " +++ m)) in E2.
    change ("node" +++ x +++ ": Received message from " +++ ip +++ ":"
            +++ port +++ ": " +++ m' +++ t)
      with (("node" +++ x) +++ String ":" (" Received message from "
            +++ ip +++ ":" +++ port +++ ": " +++ m' +++ t)) in E2.
    apply colon_split in E2 as [-> _]; auto using node_no_colon.
    assert (A : is_node_name ("node" +++ x) = true)
      by (apply node_name_iff; eauto).
    congruence. }
  destruct (search transport _) as [g|] eqn:E3.
  { exfalso. apply search_transport in E3
      as (ip & port & m' & t & E3 & Hi & Hp & _).
    change (a +++ ": Received message from " +++ m)
      with (a +++ String ":" (" Received message from " +++ m)) in E3.
    change ("UDPTransport: Sending message to " +++ ip +++ ":" +++ port
            +++ ": " +++ m' +++ t)
      with ("UDPTransport" +++ String ":" (" Sending message to " +++ ip
            +++ String ":" (port +++ ": " +++ m' +++ t))) in E3.
    apply colon_split in E3 as [_ E3]; try easy. }
  destruct (search udp_log _) as [g|] eqn:E4; [|reflexivity].
  exfalso. apply search_udp_log in E4.
  exact (udp_log_first_colon _ g a ("Received message from " +++ m)
           E4 Ha eq_refl).
Qed.

(** C10. The two peer patterns accept no other participant name than
    [node] followed by digits: the names they capture have that form,
    and a line of the outbound or the inbound form whose names, free of
    colons, are of another form gives no record; nothing is raised. *)
Theorem peer_names_are_node_names :
  (forall s g, search outbound s = Some g ->
     is_node_name (group g 1) = true /\ is_node_name (group g 2) = true)
  /\ (forall s g, search inbound s = Some g ->
        is_node_name (group g 1) = true)
  /\ (forall i line a b m,
        outbound_like (strip line) a b m ->
        is_node_name a = false \/ is_node_name b = false ->
        parse_line i line = Ok None)
  /\ (forall i line a m,
        inbound_like (strip line) a m ->
        is_node_name a = false ->
        parse_line i line = Ok None).
Proof.
  split; [|split; [|split]].
  - intros s g H. apply search_outbound in H
      as (x & y & m & t & _ & Hx & Hy & _ & _ & ->).
    cbn [group Nat.eqb]. split; apply node_name_iff;
      [now exists x | now exists y].
  - intros s g H. apply search_inbound in H
      as (x & ip & port & m & t & _ & Hx & _ & _ & _ & _ & ->).
    cbn [group Nat.eqb]. apply node_name_iff. now exists x.
  - apply outbound_like_dropped.
  - apply inbound_like_dropped.
Qed.

(** *** Lines of the inbound grammar *)

Lemma inbound_line_search s peer ip port payload :
  inbound_line s peer ip port payload ->
  search outbound s = None /\
  search inbound s = Some [(3, payload); (2, ip); (1, peer)].
Proof.
  intros (-> & Hn & Hi & Hp & Hm). apply node_name_iff in Hn as (a & -> & Ha).
  assert (S : inbound_shape
                (("node" +++ a) +++ ": Received message from " +++ ip +++ ":"
                 +++ port +++ ": " +++ payload)
                [(3, payload); (2, ip); (1, "node" +++ a)]).
  { exists a, ip, port, payload, "". rewrite app_nil_r.
    repeat split; auto. now left. }
  split.
  - apply (search_none outbound outbound_re outbound_shape compile_outbound
             outbound_sound outbound_unique outbound_complete).
    intros g H. exact (outbound_not_inbound _ _ _ H S).
  - now apply search_inbound.
Qed.

Lemma parse_inbound_line i line peer ip port payload :
  inbound_line (strip line) peer ip port payload ->
  parse_line i line =
  (r <- on_inbound [(3, payload); (2, ip); (1, peer)] ;; Ok (Some r)).
Proof.
  intros H. apply inbound_line_search in H as [H1 H2].
  unfold parse_line. now rewrite H1, H2.
Qed.

(** C6, where the code departs from it. An inbound-peer line whose
    payload [json.loads] cannot decode gives a record whose source is
    the address of the line and whose type is ['text'].  A payload that
    decodes to something that is not an object, a number, a text, a
    list, [null], is no structured payload either, but for it the line
    raises [AttributeError], which nothing catches: the parse of a file
    that has the line ends with an exception, and gives no record. *)
Theorem inbound_undecodable_payload
    (i : nat) (line peer ip port payload : string) :
  inbound_line (strip line) peer ip port payload ->
  (json_loads payload = None ->
   parse_line i line =
   Ok (Some (mk_record None (PyStr ip) peer "P2P" (PyStr "text") payload)))
  /\ (forall v,
        json_loads payload = Some v -> (forall d, v <> PyDict d) ->
        parse_line i line = Raise AttributeError /\
        forall logs,
          nth_error logs i = Some line ->
          exists e, parse_log_file logs = Raise e).
Proof.
  intros H. rewrite (parse_inbound_line i line peer ip port payload H).
  split.
  - intros E. unfold on_inbound, loads. simpl. now rewrite E.
  - intros v E N.
    assert (R : (r <- on_inbound [(3, payload); (2, ip); (1, peer)] ;;
                 Ok (Some r)) = Raise AttributeError).
    { unfold on_inbound, loads. simpl. rewrite E.
      destruct v as [| | | | | |d]; try reflexivity. now destruct (N d). }
    split; [exact R|]. intros logs Hl.
    destruct (parse_log_file logs) as [recs|e] eqn:P; [|now exists e].
    destruct (parse_loop_in_order logs 0 recs P) as [_ F].
    rewrite Forall_forall in F.
    destruct (F _ (enumerate_in logs 0 i line Hl)) as [o Ho]. simpl in Ho.
    rewrite (parse_inbound_line i line peer ip port payload H) in Ho.
    congruence.
Qed.

(** C3, as the code has it. An inbound-peer line whose payload decodes
    to an object with sender [X] gives a record whose source is [X]
    when the [message] of the payload (['{}'] when there is none)
    decodes to an object; when that message is not a string or does
    not decode, the source is the address of the line and the type is
    ['text']. *)
Theorem inbound_source_is_payload_sender
    (i : nat) (line peer ip port payload : string)
    (d : list (string * pyval)) (X : pyval) :
  inbound_line (strip line) peer ip port payload ->
  json_loads payload = Some (PyDict d) ->
  dict_get d "sender" = Some X ->
  let message := get_or d "message" (PyStr "{}") in
  (forall d', loads json_loads message = Ok (PyDict d') ->
     parse_line i line =
     Ok (Some (mk_record None X peer "P2P"
                 (get_or d' "type" (PyStr "json")) payload)))
  /\ (loads json_loads message = Raise JSONDecodeError \/
      loads json_loads message = Raise TypeError ->
      parse_line i line =
      Ok (Some (mk_record None (PyStr ip) peer "P2P" (PyStr "text")
                  payload))).
Proof.
  intros H E HX message.
  rewrite (parse_inbound_line i line peer ip port payload H).
  unfold on_inbound. simpl. rewrite E. simpl. rewrite HX. simpl.
  subst message. unfold get_or, loads.
  destruct (dict_get d "message") as [[| | | | s | |]|]; simpl;
    try (destruct (json_loads s) as [[]|]; simpl);
    try (destruct (json_loads "{}") as [[]|]; simpl);
    (split;
     [ intros d' Hd'; try discriminate; injection Hd' as <-;
       now destruct (dict_get _ "type")
     | intros [Hd'|Hd']; try discriminate; reflexivity ]).
Qed.


(** C9. The four line patterns are mutually exclusive: no line is
    matched by more than one of them, so the record of a line, if any,
    is the same in whatever order the recognizers are tried. *)
Theorem recognizers_mutually_exclusive (i : nat) (log : string) :
  List.length
    (filter (fun pattern => matches pattern (strip log)) all_patterns) <= 1
  /\ forall rs, Permutation rs (recognizers i) ->
       first_match rs (strip log) = parse_line i log.
Proof.
  split.
  - apply at_most_one_pattern.
  - intros rs P. rewrite parse_line_first_match.
    now apply first_match_permutation.
Qed.

End ParserFacts.

(** ** The round-trip scenario *)

Module ScenarioFacts.
Import Scenario.

(** C1, as the code has it. The four lines of the scenario give three
    records, of types [gossip], [ack] and [auth]: the fourth line has
    the remote address and the port in two brackets and is matched by
    no pattern.  With the two in one bracket, as the pattern of
    [UDP_LOG] lines has them, the four lines give four records, of
    types [gossip], [ack], [auth] and [ping]. *)
Theorem scenario_records (today : nat -> Z) :
  (exists recs,
     parse_log_file Json.loads Strptime.strptime today logs
     = Ok recs /\
     map type recs = [PyStr "gossip"; PyStr "ack"; PyStr "auth"])
  /\ parse_line Json.loads Strptime.strptime today 3 line4
     = Ok None
  /\ (exists recs,
        parse_log_file Json.loads Strptime.strptime today
          logs_one_bracket = Ok recs /\
        map type recs =
        [PyStr "gossip"; PyStr "ack"; PyStr "auth"; PyStr "ping"]).
Proof.
  split; [|split].
  - eexists. split; [vm_compute; reflexivity | reflexivity].
  - vm_compute. reflexivity.
  - eexists. split; [vm_compute; reflexivity | reflexivity].
Qed.

End ScenarioFacts.

(** ** Instances *)

Module Instances.
Import Scenario.

(** The four lines of the scenario do not give four records of types
    [gossip], [ack], [auth] and [ping]. *)
Lemma scenario_not_four_records :
  ~ exists recs,
      run_file logs = Ok recs /\
      map type recs =
      [PyStr "gossip"; PyStr "ack"; PyStr "auth"; PyStr "ping"].
Proof.
  intros (recs & H & T). vm_compute in H. injection H as <-. discriminate.
Qed.

(** The record of a line without time stamp stops the tabular trace. *)
Lemma tabular_trace_needs_timestamps_witness :
  run_file [plain] = Ok [plain_record]
  /\ run (print_wireshark_style [plain_record])
     = ([header; rule], Raise KeyError).
Proof.
  split; [vm_compute; reflexivity|].
  apply (proj1 Rendering.tabular_trace_needs_timestamps). reflexivity.
Defined.

(** A record with a time stamp is traced: its row shows the offset 0,
    and the summary counts one packet, incoming. *)
Lemma tabular_trace_of_ping :
  run_file [line4_one_bracket] = Ok [ping_record]
  /\ run (print_wireshark_style [ping_record])
     = ([header; rule;
         Fmt.esc +++ "[90m" +++ "0.000000        10.0.0.5:5000             "
         +++ "localhost:4000            UDP        ping            "
         +++ dq "{'type':'ping'}" +++ "..." +++ Fmt.esc +++ "[0m";
         String Str.newline (Str.repeat "=" 140);
         "Total Packets: 1"; "Incoming Packets: 1"; "Outgoing Packets: 0";
         Str.repeat "=" 140;
         String Str.newline "Time Plot (Relative Seconds):";
         rule; "0    s | ."; rule],
        Ok tt).
Proof. split; vm_compute; reflexivity. Qed.

(** A payload that names its sender, in a message that does not
    decode: the source is the address of the line. *)
Lemma inbound_sender_not_source :
  Pattern.inbound_line (Str.strip inner_undecodable)
    "node2" "10.0.0.5" "4000" inner_undecodable_payload
  /\ (exists d, Json.loads inner_undecodable_payload = Some (PyDict d) /\
                dict_get d "sender" = Some (PyStr "node1"))
  /\ exists r, run_line 0 inner_undecodable = Ok (Some r) /\
               source r = PyStr "10.0.0.5" /\ source r <> PyStr "node1".
Proof.
  split; [repeat split|split].
  - eexists. split; [vm_compute; reflexivity | reflexivity].
  - eexists. split; [vm_compute; reflexivity|]. split; [reflexivity|].
    discriminate.
Qed.

Lemma inbound_source_is_payload_sender_witness :
  run_line 1 line2
  = Ok (Some (mk_record None (PyStr "node1") "node2" "P2P" (PyStr "ack")
                enveloped_payload))
  /\ run_line 0 inner_undecodable
     = Ok (Some (mk_record None (PyStr "10.0.0.5") "node2" "P2P"
                   (PyStr "text") inner_undecodable_payload)).
Proof.
  split.
  - apply (proj1 (inbound_source_is_payload_sender
                    Json.loads Strptime.strptime day0 1 line2
                    "node2" "10.0.0.5" "4000" enveloped_payload
                    [("sender", PyStr "node1");
                     ("message", PyStr (dq "{'type':'ack'}"))]
                    (PyStr "node1")
                    ltac:(repeat split) ltac:(vm_compute; reflexivity)
                    ltac:(reflexivity))
                 [("type", PyStr "ack")]).
    vm_compute. reflexivity.
  - apply (proj2 (inbound_source_is_payload_sender
                    Json.loads Strptime.strptime day0 0 inner_undecodable
                    "node2" "10.0.0.5" "4000" inner_undecodable_payload
                    [("sender", PyStr "node1"); ("message", PyStr "zz")]
                    (PyStr "node1")
                    ltac:(repeat split) ltac:(vm_compute; reflexivity)
                    ltac:(reflexivity))).
    left. vm_compute. reflexivity.
Defined.

(** A record whose source is the empty string. *)
Lemma empty_source :
  exists recs r,
    run_file [empty_sender] = Ok recs /\ In r recs /\ source r = PyStr "".
Proof.
  eexists. eexists. split; [vm_compute; reflexivity|].
  split; [now left | reflexivity].
Qed.

Lemma source_and_destination_witness :
  destination (mk_record None (PyStr "") "node1" "P2P" (PyStr "json")
                 (dq "{'sender':''}")) <> ""
  /\ ((exists s, PyStr "" = PyStr s /\ s <> "") \/
      (exists d, Json.loads (dq "{'sender':''}") = Some (PyDict d) /\
                 dict_get d "sender" = Some (PyStr ""))).
Proof.
  apply (source_and_destination Json.loads Strptime.strptime day0
           [empty_sender]
           [mk_record None (PyStr "") "node1" "P2P" (PyStr "json")
              (dq "{'sender':''}")]).
  - vm_compute. reflexivity.
  - left. reflexivity.
Defined.

(** A record whose type is the empty string. *)
Lemma empty_type_record :
  exists recs r,
    run_file [empty_type] = Ok recs /\ In r recs /\ type r = PyStr "".
Proof.
  eexists. eexists. split; [vm_compute; reflexivity|].
  split; [now left | reflexivity].
Qed.

Lemma inbound_undecodable_payload_witness :
  run_line 0 undecodable
  = Ok (Some (mk_record None (PyStr "10.0.0.5") "node2" "P2P" (PyStr "text")
                "hello"))
  /\ run_line 0 Sample.number_inbound = Raise AttributeError
  /\ exists e, run_file [Sample.number_inbound] = Raise e.
Proof.
  split.
  - apply (proj1 (inbound_undecodable_payload Json.loads Strptime.strptime
                    day0 0 undecodable "node2" "10.0.0.5" "4000" "hello"
                    ltac:(repeat split))).
    vm_compute. reflexivity.
  - destruct (proj2 (inbound_undecodable_payload Json.loads
                       Strptime.strptime day0 0 Sample.number_inbound
                       "node2" "10.0.0.5" "4000" "42" ltac:(repeat split))
                (PyInt 42) ltac:(vm_compute; reflexivity)
                ltac:(intros; discriminate)) as [A B].
    split; [exact A|]. apply (B [Sample.number_inbound]). reflexivity.
Defined.


Lemma recognizers_mutually_exclusive_witness :
  first_match (rev (recognizers Json.loads Strptime.strptime day0 1))
    (Str.strip line2)
  = run_line 1 line2.
Proof.
  apply (proj2 (recognizers_mutually_exclusive
                  Json.loads Strptime.strptime day0 1 line2)).
  apply Permutation_sym. apply Permutation_rev.
Defined.

Lemma peer_names_are_node_names_witness :
  run_line 0 other_names = Ok None.
Proof.
  apply (proj1 (proj2 (proj2 (peer_names_are_node_names
                                Json.loads Strptime.strptime day0)))
           0 other_names "alice" "bob" "hi").
  - repeat split.
  - left. reflexivity.
Defined.

End Instances.

(* ================================================================== *)
(** * Further properties *)

(** ** The transport and the [UDP_LOG] patterns match exactly the lines
       of their grammar *)

Module PatternFacts2.
Import Str Re StrFacts ReFacts Pattern PatternFacts.

Lemma transport_complete s g :
  transport_shape s g ->
  exists x, In x (rmatch transport_re (0, s, [])) /\ snd x = g.
Proof.
  intros (ip & port & m & t & -> & Hi & Hp & Hm & Ht & ->).
  unfold transport_re.
  eexists (_, _, _). split; [|reflexivity].
  apply in_seq. eexists. split; [now apply in_bol|].
  apply step_lits.
  apply (step_group_plus 1 ""); [exact Hi|]. apply step_lits.
  apply (step_group_plus 2 ""); [exact Hp|]. apply step_lits.
  apply step_payload_eol; assumption.
Qed.

Lemma transport_unique s g1 g2 :
  transport_shape s g1 -> transport_shape s g2 -> g1 = g2.
Proof.
  intros (ip & port & m & t & -> & Hi & Hp & Hm & Ht & ->)
         (ip' & port' & m' & t' & E & Hi' & Hp' & Hm' & Ht' & ->).
  simpl in E. injection E as E.
  apply (run_split_unique _ _ _ _ _ Hi Hi') in E as [-> E]; [|easy|easy].
  simpl in E. injection E as E.
  apply (run_split_unique _ _ _ _ _ Hp Hp') in E as [-> E]; [|easy|easy].
  simpl in E. injection E as E.
  apply split_unique with (p := in_cset CDot) in E as [-> E];
    auto using is_end_stops.
Qed.

Lemma search_transport_iff s g :
  search transport s = Some g <-> transport_shape s g.
Proof.
  exact (search_iff transport transport_re transport_shape compile_transport
           transport_sound transport_unique transport_complete s g).
Qed.

Lemma step_group_dir (rest : regex) p dir s g x :
  dir = "IN" \/ dir = "OUT" ->
  In x (rmatch rest (p + String.length dir, s, (1, dir) :: g)) ->
  In x (rmatch (RSeq (RGroup 1 (RAlt (lits "I" (lit "N")) (lits "OU" (lit "T"))))
                  rest) (p, dir +++ s, g)).
Proof.
  intros Hd H. apply in_seq. eexists. split; [|exact H].
  apply in_group. exists dir, s, g. split; [|easy].
  apply in_alt. destruct Hd as [-> | ->]; [left | right].
  - apply (in_lits "I"). eexists. split; [reflexivity|].
    apply in_lit. exists s. split; [reflexivity|]. simpl. f_equal. f_equal. lia.
  - apply (in_lits "OU"). eexists. split; [reflexivity|].
    apply in_lit. exists s. split; [reflexivity|]. simpl. f_equal. f_equal. lia.
Qed.

Lemma step_preview_eol p m t g :
  no_newline m = true -> is_end t ->
  In (p + String.length m + 1, t, (6, m) :: g)
     (rmatch (RSeq (RGroup 6 (RStar CDot)) (lits "]" REol))
             (p, m +++ "]" +++ t, g)).
Proof.
  intros Hm Ht. apply in_seq.
  exists (p + String.length m, "]" +++ t, (6, m) :: g). split.
  - apply in_group. exists m, ("]" +++ t), g. split; [|easy].
    apply in_star. now exists m, ("]" +++ t).
  - apply step_lits. now apply in_eol.
Qed.

Lemma preview_unique m t m' t' :
  no_newline m = true -> no_newline m' = true -> is_end t -> is_end t' ->
  m +++ "]" +++ t = m' +++ "]" +++ t' -> m = m' /\ t = t'.
Proof.
  intros Hm Hm' Ht Ht' E.
  assert (A : forall x, no_newline x = true -> no_newline (x +++ "]") = true).
  { intros x Hx. unfold no_newline in *. now rewrite all_app, Hx. }
  assert (B : forall x, no_newline ((x +++ "]") +++ String newline "") = false).
  { intros x. unfold no_newline. rewrite all_app. simpl.
    now rewrite andb_false_r. }
  rewrite <- !app_assoc in E.
  destruct Ht as [-> | ->]; destruct Ht' as [-> | ->].
  - apply app_inv_tail in E. apply app_inv_tail in E. now split.
  - exfalso. rewrite app_nil_r in E.
    pose proof (A m Hm) as H. rewrite E, B in H. discriminate.
  - exfalso. rewrite app_nil_r in E.
    pose proof (A m' Hm') as H. rewrite <- E, B in H. discriminate.
  - apply app_inv_tail in E. apply app_inv_tail in E. now split.
Qed.

Lemma udp_log_complete s g :
  udp_log_shape s g ->
  exists x, In x (rmatch udp_log_re (0, s, [])) /\ snd x = g.
Proof.
  intros (dir & clock & lport & raddr & rport & m & t
          & -> & Hd & Hc & Hl & Hr & Hp & Hm & Ht & ->).
  unfold udp_log_re.
  eexists (_, _, _). split; [|reflexivity].
  apply in_seq. eexists. split; [now apply in_bol|].
  apply step_lits. apply step_group_dir; [exact Hd|]. apply step_lits.
  apply (step_group_plus 2 ""); [exact Hc|]. apply step_lits.
  apply (step_group_plus 3 ""); [exact Hl|]. apply step_lits.
  apply (step_group_plus 4 ""); [exact Hr|]. apply step_lits.
  apply (step_group_plus 5 ""); [exact Hp|]. apply step_lits.
  apply step_preview_eol; assumption.
Qed.

Lemma udp_log_unique s g1 g2 :
  udp_log_shape s g1 -> udp_log_shape s g2 -> g1 = g2.
Proof.
  intros (dir & clock & lport & raddr & rport & m & t
          & -> & Hd & Hc & Hl & Hr & Hp & Hm & Ht & ->)
         (dir' & clock' & lport' & raddr' & rport' & m' & t'
          & E & Hd' & Hc' & Hl' & Hr' & Hp' & Hm' & Ht' & ->).
  assert (dir = dir' /\
          clock +++ "] [" +++ lport +++ "] [" +++ raddr +++ ":" +++ rport
            +++ "] [" +++ m +++ "]" +++ t
          = clock' +++ "] [" +++ lport' +++ "] [" +++ raddr' +++ ":" +++ rport'
            +++ "] [" +++ m' +++ "]" +++ t') as [<- E'].
  { destruct Hd as [-> | ->]; destruct Hd' as [-> | ->];
      simpl in E; try discriminate; injection E as E; now split. }
  clear E.
  apply (run_split_unique _ _ _ _ _ Hc Hc') in E' as [-> E]; [|easy|easy].
  simpl in E. injection E as E.
  apply (run_split_unique _ _ _ _ _ Hl Hl') in E as [-> E]; [|easy|easy].
  simpl in E. injection E as E.
  apply (run_split_unique _ _ _ _ _ Hr Hr') in E as [-> E]; [|easy|easy].
  simpl in E. injection E as E.
  apply (run_split_unique _ _ _ _ _ Hp Hp') in E as [-> E]; [|easy|easy].
  simpl in E. injection E as E.
  apply preview_unique in E as [-> ->]; auto.
Qed.

Lemma search_udp_log_iff s g :
  search udp_log s = Some g <-> udp_log_shape s g.
Proof.
  exact (search_iff udp_log udp_log_re udp_log_shape compile_udp_log
           udp_log_sound udp_log_unique udp_log_complete s g).
Qed.

End PatternFacts2.

(** ** [str.strip] *)

Module StripFacts.
Import Str StrFacts.

Lemma rev_onto_app s : forall acc, rev_onto s acc = rev s +++ acc.
Proof.
  unfold rev. induction s as [|c s IH]; intros acc; simpl; [reflexivity|].
  rewrite (IH (String c acc)), (IH (String c "")).
  now rewrite app_assoc.
Qed.

Lemma rev_app a b : rev (a +++ b) = rev b +++ rev a.
Proof.
  induction a as [|c a IH]; simpl.
  - now rewrite app_nil_r.
  - unfold rev at 1 3. simpl. rewrite !rev_onto_app, IH.
    now rewrite app_assoc.
Qed.

Lemma rev_involutive s : rev (rev s) = s.
Proof.
  induction s as [|c s IH]; [reflexivity|].
  unfold rev at 2. simpl. rewrite rev_onto_app, rev_app, IH. reflexivity.
Qed.

Lemma all_rev p s : all p (rev s) = all p s.
Proof.
  induction s as [|c s IH]; [reflexivity|].
  unfold rev. simpl. rewrite rev_onto_app, all_app, IH. simpl.
  rewrite andb_true_r. apply andb_comm.
Qed.

Lemma lstrip_spaces w s :
  all is_space w = true -> lstrip (w +++ s) = lstrip s.
Proof.
  induction w as [|c w IH]; simpl; [reflexivity|].
  intros H. apply andb_true_iff in H as [Hc H]. rewrite Hc. now apply IH.
Qed.

Lemma lstrip_head s c s' : lstrip s = String c s' -> is_space c = false.
Proof.
  induction s as [|x s IH]; simpl; [discriminate|].
  destruct (is_space x) eqn:E; [exact IH|].
  intros [= <- _]. exact E.
Qed.

Lemma rstrip_spaces s w :
  all is_space w = true -> rstrip (s +++ w) = rstrip s.
Proof.
  intros H. unfold rstrip. rewrite rev_app, lstrip_spaces; [reflexivity|].
  now rewrite all_rev.
Qed.

Lemma strip_right s w :
  all is_space w = true -> strip (s +++ w) = strip s.
Proof.
  intros H. unfold strip. induction s as [|c s IH]; simpl.
  - rewrite <- (app_nil_r w). rewrite (lstrip_spaces w "" H). reflexivity.
  - destruct (is_space c); [exact IH|].
    change (String c (s +++ w)) with (String c s +++ w).
    now apply rstrip_spaces.
Qed.

(** White space around a text does not change what [strip] returns. *)
Lemma strip_pad w s w' :
  all is_space w = true -> all is_space w' = true ->
  strip (w +++ s +++ w') = strip s.
Proof.
  intros H H'. rewrite <- (strip_right s w' H').
  unfold strip. now rewrite lstrip_spaces.
Qed.

(** What [strip] returns does not end with white space. *)
Lemma strip_last s x c : strip s = x +++ String c "" -> is_space c = false.
Proof.
  unfold strip, rstrip. intros H. apply (f_equal rev) in H.
  rewrite rev_involutive, rev_app in H. simpl in H.
  now apply lstrip_head in H.
Qed.

Lemma strip_end s x t : strip s = x +++ t -> Re.is_end t -> t = "".
Proof.
  intros H [-> | ->]; [reflexivity|].
  apply strip_last in H. discriminate.
Qed.

End StripFacts.

(** ** Lines of the outbound, transport and [UDP_LOG] grammars *)

Section LineFacts.
Import Str Re StrFacts ReFacts Pattern PatternFacts PatternFacts2 Exclusive
  Line.

Variable json_loads : string -> option pyval.
Variable strptime : Z -> string -> option Z.
Variable today : nat -> Z.

#[local] Abbreviation parse_line := (parse_line json_loads strptime today).
#[local] Abbreviation parse_log_file :=
  (parse_log_file json_loads strptime today).
#[local] Abbreviation on_outbound := (on_outbound json_loads).
#[local] Abbreviation on_transport := (on_transport json_loads).
#[local] Abbreviation on_udp_log := (on_udp_log json_loads strptime today).

Lemma all_ext (p q : ascii -> bool) (s : string) :
  (forall c, p c = q c) -> all p s = all q s.
Proof.
  intros H. induction s as [|c s IH]; simpl; [reflexivity|].
  now rewrite H, IH.
Qed.

Lemma digits_run (s : string) : is_run (CSet [IDigit]) s = is_digits s.
Proof.
  unfold is_digits, is_run. f_equal. apply all_ext. intros c. simpl.
  apply orb_false_r.
Qed.

Lemma node_name_parts (peer : string) :
  is_node_name peer = true ->
  exists a, peer = "node" +++ a /\ is_digits a = true.
Proof.
  unfold is_node_name.
  destruct (strip_prefix "node" peer) as [a|] eqn:E; [|discriminate].
  intros H. exists a. split; [|exact H]. now apply strip_prefix_some.
Qed.

Lemma outbound_line_search s src dst payload :
  outbound_line s src dst payload ->
  search outbound s = Some [(3, payload); (2, dst); (1, src)].
Proof.
  intros (-> & Hs & Hd & Hm).
  apply node_name_parts in Hs as (a & -> & Ha).
  apply node_name_parts in Hd as (b & -> & Hb).
  apply search_outbound. exists a, b, payload, "". rewrite app_nil_r.
  repeat split; auto. now left.
Qed.

Lemma transport_line_search s ip port payload :
  transport_line s ip port payload ->
  search outbound s = None /\ search inbound s = None /\
  search transport s = Some [(3, payload); (2, port); (1, ip)].
Proof.
  intros (-> & Hi & Hp & Hm).
  assert (S : transport_shape
                ("UDPTransport: Sending message to " +++ ip +++ ":" +++ port
                 +++ ": " +++ payload)
                [(3, payload); (2, port); (1, ip)]).
  { exists ip, port, payload, "". rewrite app_nil_r.
    repeat split; auto. now left. }
  split; [|split].
  - apply (search_none outbound outbound_re outbound_shape compile_outbound
             outbound_sound outbound_unique outbound_complete).
    intros g H. exact (outbound_not_transport _ _ _ H S).
  - apply (search_none inbound inbound_re inbound_shape compile_inbound
             inbound_sound inbound_unique inbound_complete).
    intros g H. exact (inbound_not_transport _ _ _ H S).
  - now apply search_transport_iff.
Qed.

Lemma udp_log_line_search s dir clock lport raddr rport preview :
  udp_log_line s dir clock lport raddr rport preview ->
  search outbound s = None /\ search inbound s = None /\
  search transport s = None /\
  search udp_log s =
  Some [(6, preview); (5, rport); (4, raddr); (3, lport); (2, clock);
        (1, dir)].
Proof.
  intros (-> & Hd & Hc & Hl & Hr & Hp & Hm).
  assert (S : udp_log_shape
                ("[UDP_LOG] [" +++ dir +++ "] [" +++ clock +++ "] [" +++ lport
                 +++ "] [" +++ raddr +++ ":" +++ rport +++ "] [" +++ preview
                 +++ "]")
                [(6, preview); (5, rport); (4, raddr); (3, lport); (2, clock);
                 (1, dir)]).
  { exists dir, clock, lport, raddr, rport, preview, "".
    rewrite <- digits_run in Hl, Hp. repeat split; auto. now left. }
  split; [|split; [|split]].
  - apply (search_none outbound outbound_re outbound_shape compile_outbound
             outbound_sound outbound_unique outbound_complete).
    intros g H. exact (outbound_not_udp_log _ _ _ H S).
  - apply (search_none inbound inbound_re inbound_shape compile_inbound
             inbound_sound inbound_unique inbound_complete).
    intros g H. exact (inbound_not_udp_log _ _ _ H S).
  - apply (search_none transport transport_re transport_shape
             compile_transport transport_sound transport_unique
             transport_complete).
    intros g H. exact (transport_not_udp_log _ _ _ H S).
  - now apply search_udp_log_iff.
Qed.

(** X1. An outbound-peer line gives a record of protocol [P2P] whose
    source and destination are the two names of the line and whose info
    is the payload; its type is ['text'] when the payload does not
    decode, the [type] of the decoded object, or ['json'] when it has
    none.  A payload that decodes to anything but an object raises
    [AttributeError]. *)
Theorem outbound_peer_record (i : nat) (line src dst payload : string) :
  outbound_line (strip line) src dst payload ->
  parse_line i line =
  match json_loads payload with
  | None =>
      Ok (Some (mk_record None (PyStr src) dst "P2P" (PyStr "text") payload))
  | Some (PyDict d) =>
      Ok (Some (mk_record None (PyStr src) dst "P2P"
                  (get_or d "type" (PyStr "json")) payload))
  | Some _ => Raise AttributeError
  end.
Proof.
  intros H. apply outbound_line_search in H.
  unfold parse_line. rewrite H. unfold on_outbound, loads, get_or. simpl.
  destruct (json_loads payload) as [[| | | | | |d]|]; try reflexivity.
  simpl. now destruct (dict_get d "type").
Qed.

(** X2. A transport line gives a record of protocol [UDP] whose
    destination is [<ip>:<port>].  When the payload and its [message]
    (['{}'] when there is none) both decode to objects, the source is the
    [sender] of the payload, ['unknown'] when it has none; when one of
    the two does not decode or the message is not a string, the source
    is ['unknown'] and the type ['text']; a payload or a message that
    decodes to anything but an object raises [AttributeError]. *)
Theorem transport_record_of_line (i : nat) (line ip port payload : string) :
  transport_line (strip line) ip port payload ->
  let fallback :=
    Ok (Some (mk_record None (PyStr "unknown") (ip +++ ":" +++ port) "UDP"
                (PyStr "text") payload)) in
  parse_line i line =
  match json_loads payload with
  | None => fallback
  | Some (PyDict d) =>
      match loads json_loads (get_or d "message" (PyStr "{}")) with
      | Ok (PyDict d') =>
          Ok (Some (mk_record None (get_or d "sender" (PyStr "unknown"))
                      (ip +++ ":" +++ port) "UDP"
                      (get_or d' "type" (PyStr "json")) payload))
      | Ok _ => Raise AttributeError
      | Raise _ => fallback
      end
  | Some _ => Raise AttributeError
  end.
Proof.
  intros H fallback. subst fallback.
  apply transport_line_search in H as (H1 & H2 & H3).
  unfold parse_line. rewrite H1, H2, H3.
  unfold on_transport, get_or, loads. simpl.
  destruct (json_loads payload) as [[| | | | | |d]|]; try reflexivity.
  simpl.
  destruct (dict_get d "sender") as [sender|];
    (destruct (dict_get d "message") as [[| | | | s | |]|]; simpl;
     try reflexivity;
     try (destruct (json_loads s) as [[| | | | | |d']|]; simpl;
          try reflexivity; now destruct (dict_get d' "type"));
     try (destruct (json_loads "{}") as [[| | | | | |d']|]; simpl;
          try reflexivity; now destruct (dict_get d' "type"))).
Qed.

(** X3. A [UDP_LOG] line whose clock [strptime] refuses raises
    [ValueError].  Otherwise it gives a record of protocol [UDP] with the
    time stamp, whose ends are [<raddr>:<rport>] and [localhost:<lport>],
    source and destination by the direction, and whose type is the
    [type] of the preview when the preview decodes to an object that has
    one, ['UDP_DATA'] when the preview does not decode, is an object
    without [type], or is a list or a text without ['type'] in it; any
    other preview raises [TypeError]. *)
Theorem udp_log_record_of_line
    (i : nat) (line dir clock lport raddr rport preview : string) :
  udp_log_line (strip line) dir clock lport raddr rport preview ->
  parse_line i line =
  match strptime (today i) clock with
  | None => Raise ValueError
  | Some t =>
      let stamped msg_type :=
        Ok (Some (mk_record (Some t)
                    (PyStr (fst (endpoints dir lport raddr rport)))
                    (snd (endpoints dir lport raddr rport)) "UDP"
                    msg_type preview)) in
      match json_loads preview with
      | None => stamped (PyStr "UDP_DATA")
      | Some (PyDict d) => stamped (get_or d "type" (PyStr "UDP_DATA"))
      | Some (PyList l) =>
          if existsb (is_str "type") l then Raise TypeError
          else stamped (PyStr "UDP_DATA")
      | Some (PyStr s) =>
          if contains "type" s then Raise TypeError
          else stamped (PyStr "UDP_DATA")
      | Some _ => Raise TypeError
      end
  end.
Proof.
  intros H. apply udp_log_line_search in H as (H1 & H2 & H3 & H4).
  unfold parse_line. rewrite H1, H2, H3, H4.
  unfold on_udp_log, endpoints, get_or, loads. simpl.
  destruct (strptime (today i) clock) as [t|]; [simpl|reflexivity].
  destruct (String.eqb dir "IN"); simpl;
    (destruct (json_loads preview) as [[| | | | s | l | d]|]; simpl;
     try reflexivity;
     [ now destruct (contains "type" s)
     | now destruct (existsb (is_str "type") l)
     | now destruct (dict_get d "type") ]).
Qed.

End LineFacts.

(** ** Every record comes from a line of one of the four grammars *)

Section RecordFacts.
Import Str Re StrFacts ReFacts Pattern PatternFacts PatternFacts2 Exclusive
  Line StripFacts.

Variable json_loads : string -> option pyval.
Variable strptime : Z -> string -> option Z.
Variable today : nat -> Z.

#[local] Abbreviation parse_line := (parse_line json_loads strptime today).
#[local] Abbreviation parse_loop := (parse_loop json_loads strptime today).
#[local] Abbreviation parse_log_file :=
  (parse_log_file json_loads strptime today).
#[local] Abbreviation on_outbound := (on_outbound json_loads).
#[local] Abbreviation on_inbound := (on_inbound json_loads).
#[local] Abbreviation on_transport := (on_transport json_loads).
#[local] Abbreviation on_udp_log := (on_udp_log json_loads strptime today).

Ltac open_bind :=
  match goal with
  | |- context [bind ?m _] => destruct m as [?|?]; simpl; [|discriminate]
  end.

Lemma node_name_of (a : string) :
  is_digits a = true -> is_node_name ("node" +++ a) = true.
Proof. intros H. unfold is_node_name. now rewrite strip_prefix_app. Qed.

(** The record of a line tells its grammar. *)
Lemma parse_line_grammar (i : nat) (line : string) (r : record) :
  parse_line i line = Ok (Some r) ->
  (exists src dst,
     outbound_line (strip line) src dst (info r) /\
     source r = PyStr src /\ destination r = dst /\
     protocol r = "P2P" /\ timestamp r = None)
  \/ (exists peer ip port,
        inbound_line (strip line) peer ip port (info r) /\
        destination r = peer /\ protocol r = "P2P" /\ timestamp r = None)
  \/ (exists ip port,
        transport_line (strip line) ip port (info r) /\
        destination r = ip +++ ":" +++ port /\
        protocol r = "UDP" /\ timestamp r = None)
  \/ (exists dir clock lport raddr rport,
        udp_log_line (strip line) dir clock lport raddr rport (info r) /\
        timestamp r = strptime (today i) clock /\
        timestamp r <> None /\
        source r = PyStr (fst (endpoints dir lport raddr rport)) /\
        destination r = snd (endpoints dir lport raddr rport) /\
        protocol r = "UDP").
Proof.
  intros H.
  apply (parse_line_cases json_loads strptime today) in H
    as [(g & S & H)|[(g & S & H)|[(g & S & H)|(g & S & H)]]].
  - left. destruct S as (a & b & m & t & E & Ha & Hb & Hm & Ht & ->).
    assert (t = "") as ->.
    { eapply (strip_end line
                ("node" +++ a +++ ": Sending message to " +++ "node" +++ b
                 +++ ": " +++ m)); [|exact Ht].
      rewrite E. simpl. repeat (rewrite app_assoc; simpl). reflexivity. }
    rewrite app_nil_r in E.
    revert H. unfold on_outbound. simpl. open_bind. intros [= <-]. simpl.
    exists ("node" +++ a), ("node" +++ b).
    repeat split; auto using node_name_of.
  - right. left.
    destruct S as (a & ip & port & m & t & E & Ha & Hi & Hp & Hm & Ht & ->).
    assert (t = "") as ->.
    { eapply (strip_end line
                ("node" +++ a +++ ": Received message from " +++ ip +++ ":"
                 +++ port +++ ": " +++ m)); [|exact Ht].
      rewrite E. simpl. repeat (rewrite app_assoc; simpl). reflexivity. }
    rewrite app_nil_r in E.
    revert H. unfold on_inbound. simpl.
    match goal with
    | |- context [bind ?m _] => destruct m as [[? ?]|?]; simpl; [|discriminate]
    end.
    intros [= <-]. simpl. exists ("node" +++ a), ip, port.
    repeat split; auto using node_name_of.
  - right. right. left.
    destruct S as (ip & port & m & t & E & Hi & Hp & Hm & Ht & ->).
    assert (t = "") as ->.
    { eapply (strip_end line
                ("UDPTransport: Sending message to " +++ ip +++ ":" +++ port
                 +++ ": " +++ m)); [|exact Ht].
      rewrite E. simpl. repeat (rewrite app_assoc; simpl). reflexivity. }
    rewrite app_nil_r in E.
    revert H. unfold on_transport. simpl.
    match goal with
    | |- context [bind ?m _] => destruct m as [[? ?]|?]; simpl; [|discriminate]
    end.
    intros [= <-]. simpl. exists ip, port. repeat split; auto.
  - right. right. right.
    destruct S as (dir & clock & lport & raddr & rport & m & t
                   & E & Hd & Hc & Hl & Hr & Hp & Hm & Ht & ->).
    assert (t = "") as ->.
    { eapply (strip_end line
                ("[UDP_LOG] [" +++ dir +++ "] [" +++ clock +++ "] [" +++ lport
                 +++ "] [" +++ raddr +++ ":" +++ rport +++ "] [" +++ m
                 +++ "]")); [|exact Ht].
      rewrite E. simpl. repeat (rewrite app_assoc; simpl). reflexivity. }
    change ("]" +++ "") with "]" in E.
    rewrite (digits_run lport) in Hl. rewrite (digits_run rport) in Hp.
    revert H. unfold on_udp_log, endpoints. simpl.
    destruct (strptime (today i) clock) as [ts|] eqn:T; [simpl|discriminate].
    assert (Hd' := Hd).
    destruct Hd' as [-> | ->]; simpl; open_bind; intros [= <-]; simpl;
      [exists "IN" | exists "OUT"]; exists clock, lport, raddr, rport;
      repeat split; auto; discriminate.
Qed.

End RecordFacts.

(** ** The file as a whole *)

Section FileFacts.
Import Str Re StrFacts ReFacts Pattern PatternFacts PatternFacts2 Exclusive
  Line StripFacts.

Variable json_loads : string -> option pyval.
Variable strptime : Z -> string -> option Z.
Variable today : nat -> Z.

#[local] Abbreviation parse_line := (parse_line json_loads strptime today).
#[local] Abbreviation parse_loop := (parse_loop json_loads strptime today).
#[local] Abbreviation parse_log_file :=
  (parse_log_file json_loads strptime today).
#[local] Abbreviation on_outbound := (on_outbound json_loads).
#[local] Abbreviation on_inbound := (on_inbound json_loads).
#[local] Abbreviation on_transport := (on_transport json_loads).
#[local] Abbreviation on_udp_log := (on_udp_log json_loads strptime today).

Lemma enumerate_nth (logs : list string) :
  forall a i line,
    In (i, line) (enumerate a logs) ->
    a <= i /\ nth_error logs (i - a) = Some line.
Proof.
  unfold enumerate.
  induction logs as [|l logs IH]; intros a i line H; simpl in H; [easy|].
  destruct H as [[= <- <-]|H].
  - split; [lia|]. now rewrite Nat.sub_diag.
  - apply IH in H as [L H]. split; [lia|].
    replace (i - a) with (S (i - S a)) by lia. exact H.
Qed.

(** X4. Every record of the file is the record of one of its lines, and
    tells the grammar of that line: the info is the payload as it is
    written; a record of protocol [P2P] has the names of a peer line and
    no time stamp, a record of protocol [UDP] the [<ip>:<port>] of a
    transport line and no time stamp, or the time stamp and the two ends
    of a [UDP_LOG] line. *)
Theorem record_of_matched_line (logs : list string) (recs : list record) :
  parse_log_file logs = Ok recs ->
  forall r, In r recs ->
  exists i line,
    nth_error logs i = Some line /\
    ((exists src dst,
        outbound_line (strip line) src dst (info r) /\
        source r = PyStr src /\ destination r = dst /\
        protocol r = "P2P" /\ timestamp r = None)
     \/ (exists peer ip port,
           inbound_line (strip line) peer ip port (info r) /\
           destination r = peer /\ protocol r = "P2P" /\ timestamp r = None)
     \/ (exists ip port,
           transport_line (strip line) ip port (info r) /\
           destination r = ip +++ ":" +++ port /\
           protocol r = "UDP" /\ timestamp r = None)
     \/ (exists dir clock lport raddr rport,
           udp_log_line (strip line) dir clock lport raddr rport (info r) /\
           timestamp r = strptime (today i) clock /\
           timestamp r <> None /\
           source r = PyStr (fst (endpoints dir lport raddr rport)) /\
           destination r = snd (endpoints dir lport raddr rport) /\
           protocol r = "UDP")).
Proof.
  intros H r Hr.
  apply (parse_loop_in_order json_loads strptime today) in H as [-> _].
  apply in_flat_map in Hr as ([i line] & Hin & Hr). simpl in Hr.
  apply enumerate_nth in Hin as [_ Hin]. rewrite Nat.sub_0_r in Hin.
  exists i, line. split; [exact Hin|].
  apply (parse_line_grammar json_loads strptime today i).
  unfold line_records in Hr.
  destruct (parse_line i line) as [[r'|]|e]; try easy.
  destruct Hr as [->|[]]. reflexivity.
Qed.

(** *** White space around a line *)

Lemma parse_line_pad (i : nat) (w line w' : string) :
  all is_space w = true -> all is_space w' = true ->
  parse_line i (w +++ line +++ w') = parse_line i line.
Proof.
  intros H H'. unfold parse_line. now rewrite (strip_pad w line w' H H').
Qed.

(** X5. White space before and after the lines of the file changes
    nothing: the records are the same, and so is the exception. *)
Theorem surrounding_space_ignored (logs logs' : list string) :
  Forall2 (fun line line' =>
             exists w w', all is_space w = true /\ all is_space w' = true /\
                          line' = w +++ line +++ w') logs logs' ->
  parse_log_file logs' = parse_log_file logs.
Proof.
  unfold parse_log_file. generalize 0 at 1 2. generalize (@nil record).
  intros acc i F. revert acc i.
  induction F as [|line line' logs logs' (w & w' & H & H' & ->) _ IH];
    intros acc i; [reflexivity|].
  simpl. rewrite (parse_line_pad i w line w' H H').
  destruct (parse_line i line) as [[r|]|e]; auto.
Qed.

(** *** The first line that raises *)

Lemma parse_loop_raise (logs : list string) (e : exn) :
  forall a acc,
    parse_loop a logs acc = Raise e <->
    exists i line,
      nth_error logs i = Some line /\ parse_line (a + i) line = Raise e /\
      forall j l, j < i -> nth_error logs j = Some l ->
                  exists o, parse_line (a + j) l = Ok o.
Proof.
  induction logs as [|log logs IH]; intros a acc; simpl.
  - split; [discriminate|]. intros ([|i] & line & H & _); discriminate.
  - destruct (parse_line a log) as [[r|]|e'] eqn:E.
    1,2: rewrite IH; split;
      [ intros (i & line & H1 & H2 & H3); exists (S i), line;
        rewrite Nat.add_succ_r; repeat split; auto;
        intros [|j] l Hj Hl;
        [ injection Hl as <-; rewrite Nat.add_0_r; eauto
        | rewrite Nat.add_succ_r; apply (H3 j l); [lia|exact Hl] ]
      | intros ([|i] & line & H1 & H2 & H3);
        [ injection H1 as <-; rewrite Nat.add_0_r in H2; congruence
        | exists i, line; rewrite Nat.add_succ_r in H2; repeat split; auto;
          intros j l Hj Hl;
          specialize (H3 (S j) l ltac:(lia) Hl);
          now rewrite Nat.add_succ_r in H3 ] ].
    split.
    + intros [= ->]. exists 0, log. rewrite Nat.add_0_r.
      repeat split; auto. intros j l Hj. lia.
    + intros ([|i] & line & H1 & H2 & H3).
      * injection H1 as <-. rewrite Nat.add_0_r in H2. congruence.
      * destruct (H3 0 log ltac:(lia) eq_refl) as [o Ho].
        rewrite Nat.add_0_r in Ho. congruence.
Qed.

(** X6. [parse_log_file] raises exactly when one of the lines does, with
    the exception of the first such line, and the records of the lines
    before it are lost with it. *)
Theorem first_failure_ends_the_parse (logs : list string) (e : exn) :
  parse_log_file logs = Raise e <->
  exists i line,
    nth_error logs i = Some line /\ parse_line i line = Raise e /\
    forall j l, j < i -> nth_error logs j = Some l ->
                exists o, parse_line j l = Ok o.
Proof. apply (parse_loop_raise logs e 0 []). Qed.

(** *** From a match to the line *)

Lemma outbound_shape_line line g :
  outbound_shape (strip line) g ->
  exists src dst payload,
    outbound_line (strip line) src dst payload /\
    g = [(3, payload); (2, dst); (1, src)].
Proof.
  intros (a & b & m & t & E & Ha & Hb & Hm & Ht & ->).
  assert (t = "") as ->.
  { eapply (strip_end line
              ("node" +++ a +++ ": Sending message to " +++ "node" +++ b
               +++ ": " +++ m)); [|exact Ht].
    rewrite E. simpl. repeat (rewrite app_assoc; simpl). reflexivity. }
  rewrite app_nil_r in E.
  exists ("node" +++ a), ("node" +++ b), m.
  repeat split; auto using node_name_of.
Qed.

Lemma inbound_shape_line line g :
  inbound_shape (strip line) g ->
  exists peer ip port payload,
    inbound_line (strip line) peer ip port payload /\
    g = [(3, payload); (2, ip); (1, peer)].
Proof.
  intros (a & ip & port & m & t & E & Ha & Hi & Hp & Hm & Ht & ->).
  assert (t = "") as ->.
  { eapply (strip_end line
              ("node" +++ a +++ ": Received message from " +++ ip +++ ":"
               +++ port +++ ": " +++ m)); [|exact Ht].
    rewrite E. simpl. repeat (rewrite app_assoc; simpl). reflexivity. }
  rewrite app_nil_r in E.
  exists ("node" +++ a), ip, port, m.
  repeat split; auto using node_name_of.
Qed.

Lemma transport_shape_line line g :
  transport_shape (strip line) g ->
  exists ip port payload,
    transport_line (strip line) ip port payload /\
    g = [(3, payload); (2, port); (1, ip)].
Proof.
  intros (ip & port & m & t & E & Hi & Hp & Hm & Ht & ->).
  assert (t = "") as ->.
  { eapply (strip_end line
              ("UDPTransport: Sending message to " +++ ip +++ ":" +++ port
               +++ ": " +++ m)); [|exact Ht].
    rewrite E. simpl. repeat (rewrite app_assoc; simpl). reflexivity. }
  rewrite app_nil_r in E.
  exists ip, port, m. repeat split; auto.
Qed.

Lemma udp_log_shape_line line g :
  udp_log_shape (strip line) g ->
  exists dir clock lport raddr rport preview,
    udp_log_line (strip line) dir clock lport raddr rport preview /\
    g = [(6, preview); (5, rport); (4, raddr); (3, lport); (2, clock);
         (1, dir)].
Proof.
  intros (dir & clock & lport & raddr & rport & m & t
          & E & Hd & Hc & Hl & Hr & Hp & Hm & Ht & ->).
  assert (t = "") as ->.
  { eapply (strip_end line
              ("[UDP_LOG] [" +++ dir +++ "] [" +++ clock +++ "] [" +++ lport
               +++ "] [" +++ raddr +++ ":" +++ rport +++ "] [" +++ m
               +++ "]")); [|exact Ht].
    rewrite E. simpl. repeat (rewrite app_assoc; simpl). reflexivity. }
  change ("]" +++ "") with "]" in E.
  rewrite (digits_run lport) in Hl. rewrite (digits_run rport) in Hp.
  exists dir, clock, lport, raddr, rport, m. repeat split; auto.
Qed.

Lemma parse_line_raises i line e :
  parse_line i line = Raise e ->
  (exists g, outbound_shape (strip line) g /\ on_outbound g = Raise e) \/
  (exists g, inbound_shape (strip line) g /\ on_inbound g = Raise e) \/
  (exists g, transport_shape (strip line) g /\ on_transport g = Raise e) \/
  (exists g, udp_log_shape (strip line) g /\ on_udp_log i g = Raise e).
Proof.
  unfold parse_line.
  destruct (search outbound (strip line)) as [g|] eqn:E1.
  { intros H. left. exists g. split; [now apply search_outbound|].
    destruct (on_outbound g); simpl in H; congruence. }
  destruct (search inbound (strip line)) as [g|] eqn:E2.
  { intros H. right. left. exists g. split; [now apply search_inbound|].
    destruct (on_inbound g); simpl in H; congruence. }
  destruct (search transport (strip line)) as [g|] eqn:E3.
  { intros H. right. right. left. exists g.
    split; [now apply search_transport|].
    destruct (on_transport g); simpl in H; congruence. }
  destruct (search udp_log (strip line)) as [g|] eqn:E4; [|discriminate].
  intros H. right. right. right. exists g.
  split; [now apply search_udp_log|].
  destruct (on_udp_log i g); simpl in H; congruence.
Qed.

(** The payload, or the message it carries, decoded to something that
    is not an object. *)
Lemma enveloped_raises (payload : string) (fallback : pyval) (e : exn)
    (k : pyval -> pyval -> result (pyval * pyval)) :
  (forall a b, exists x, k a b = Ok x) ->
  try_except
    (message_json <- loads json_loads (PyStr payload) ;;
     sender <- py_get message_json "sender" (PyStr "unknown") ;;
     message <- py_get message_json "message" (PyStr "{}") ;;
     message_content <- loads json_loads message ;;
     msg_type <- py_get message_content "type" (PyStr "json") ;;
     k msg_type sender)
    [JSONDecodeError; TypeError]
    (Ok (PyStr "text", fallback)) = Raise e ->
  e = AttributeError /\
  exists s v,
    json_loads s = Some v /\ (forall d, v <> PyDict d) /\
    (s = payload \/
     exists d, json_loads payload = Some (PyDict d) /\
               get_or d "message" (PyStr "{}") = PyStr s).
Proof.
  intros K. unfold loads. simpl.
  destruct (json_loads payload) as [v|] eqn:E; [|discriminate].
  destruct v as [| | | | | |d]; simpl;
    try (intros [= <-]; split; [reflexivity|];
         eexists payload, _; split; [exact E|]; split; [discriminate|];
         now left).
  destruct (dict_get d "sender") as [sender|]; simpl;
    (destruct (dict_get d "message") as [[| | | | s | |]|] eqn:Em; simpl;
     try discriminate;
     match goal with
     | |- context [json_loads ?t] =>
         destruct (json_loads t) as [v|] eqn:E'; [|discriminate];
         destruct v as [| | | | | |d']; simpl;
         try (intros [= <-]; split; [reflexivity|];
              eexists t, _; split; [exact E'|]; split; [discriminate|];
              right; exists d; split; [reflexivity|];
              unfold get_or; now rewrite Em);
         destruct (dict_get d' "type") as [ty|]; simpl;
         match goal with
         | |- context [k ?a ?b] => destruct (K a b) as [x ->]
         end; discriminate
     end).
Qed.

(** The exceptions of a line in the model, where [json.loads] raises
    nothing but [JSONDecodeError]. *)
Lemma parse_line_raise_cause (i : nat) (line : string) (e : exn) :
  parse_line i line = Raise e ->
  (e = AttributeError /\
   exists payload,
     ((exists src dst, outbound_line (strip line) src dst payload) \/
      (exists peer ip port, inbound_line (strip line) peer ip port payload) \/
      (exists ip port, transport_line (strip line) ip port payload)) /\
     exists s v,
       json_loads s = Some v /\ (forall d, v <> PyDict d) /\
       (s = payload \/
        exists d, json_loads payload = Some (PyDict d) /\
                  get_or d "message" (PyStr "{}") = PyStr s))
  \/ (exists dir clock lport raddr rport preview,
        udp_log_line (strip line) dir clock lport raddr rport preview /\
        ((e = ValueError /\ strptime (today i) clock = None) \/
         (e = TypeError /\ strptime (today i) clock <> None /\
          exists v, json_loads preview = Some v /\
                    forall d, v <> PyDict d))).
Proof.
  intros H.
  apply parse_line_raises in H
    as [(g & S & H)|[(g & S & H)|[(g & S & H)|(g & S & H)]]].
  - left. apply outbound_shape_line in S as (src & dst & payload & L & ->).
    revert H. unfold on_outbound, loads. simpl.
    destruct (json_loads payload) as [v|] eqn:E; [|discriminate].
    destruct v as [| | | | | |d]; simpl;
      try (intros [= <-]; split; [reflexivity|]; exists payload;
           split; [left; now exists src, dst|];
           eexists payload, _; split; [exact E|]; split; [discriminate|];
           now left).
    now destruct (dict_get d "type").
  - left.
    apply inbound_shape_line in S as (peer & ip & port & payload & L & ->).
    revert H. unfold on_inbound. cbn [group Nat.eqb].
    match goal with
    | |- context [try_except ?b ?l ?h] =>
        destruct (try_except b l h) as [[ty src]|e'] eqn:T;
          [discriminate|]
    end.
    intros [= ->].
    apply (enveloped_raises payload (PyStr ip) e
             (fun msg_type sender => Ok (msg_type, sender))) in T
      as (-> & C); [|intros a b; now eexists].
    split; [reflexivity|]. exists payload. split; [|exact C].
    right. left. now exists peer, ip, port.
  - left.
    apply transport_shape_line in S as (ip & port & payload & L & ->).
    revert H. unfold on_transport. cbn [group Nat.eqb].
    match goal with
    | |- context [try_except ?b ?l ?h] =>
        destruct (try_except b l h) as [[ty src]|e'] eqn:T;
          [discriminate|]
    end.
    intros [= ->].
    apply (enveloped_raises payload (PyStr "unknown") e
             (fun msg_type sender => Ok (msg_type, sender))) in T
      as (-> & C); [|intros a b; now eexists].
    split; [reflexivity|]. exists payload. split; [|exact C].
    right. right. now exists ip, port.
  - right.
    apply udp_log_shape_line in S
      as (dir & clock & lport & raddr & rport & preview & L & ->).
    exists dir, clock, lport, raddr, rport, preview. split; [exact L|].
    revert H. unfold on_udp_log, loads. cbn [group Nat.eqb].
    destruct (strptime (today i) clock) as [ts|] eqn:T; simpl;
      [|intros [= <-]; now left].
    destruct (String.eqb dir "IN"); simpl;
      (destruct (json_loads preview) as [v|] eqn:E; [|discriminate];
       destruct v as [| | | | s | l | d]; simpl;
       try (intros [= <-]; right; split; [reflexivity|];
            split; [discriminate|]; eexists; split;
            [reflexivity|discriminate]);
       [ destruct (contains "type" s); simpl; [|discriminate];
         intros [= <-]; right; split; [reflexivity|];
         split; [discriminate|]; eexists; split; [reflexivity|discriminate]
       | destruct (existsb (is_str "type") l); simpl; [|discriminate];
         intros [= <-]; right; split; [reflexivity|];
         split; [discriminate|]; eexists; split; [reflexivity|discriminate]
       | now destruct (dict_get d "type") ]).
Qed.

(** X7. Two exceptions of the parser tell their cause.
    [AttributeError]: the line is a peer or transport line, and its
    payload, or the message that the payload carries, decoded to
    something that is not an object.  [TypeError]: the line is a
    [UDP_LOG] line whose clock [strptime] took and whose preview decoded
    to something that is not an object. *)
Theorem cause_of_exception (i : nat) (line : string) :
  (parse_line i line = Raise AttributeError ->
   exists payload,
     ((exists src dst, outbound_line (strip line) src dst payload) \/
      (exists peer ip port, inbound_line (strip line) peer ip port payload) \/
      (exists ip port, transport_line (strip line) ip port payload)) /\
     exists s v,
       json_loads s = Some v /\ (forall d, v <> PyDict d) /\
       (s = payload \/
        exists d, json_loads payload = Some (PyDict d) /\
                  get_or d "message" (PyStr "{}") = PyStr s))
  /\ (parse_line i line = Raise TypeError ->
      exists dir clock lport raddr rport preview,
        udp_log_line (strip line) dir clock lport raddr rport preview /\
        strptime (today i) clock <> None /\
        exists v, json_loads preview = Some v /\ forall d, v <> PyDict d).
Proof.
  split; intros H; apply parse_line_raise_cause in H
    as [(E & C)
       |(dir & clock & lport & raddr & rport & preview & L
         & [(E & _)|(E & T & C)])];
    try discriminate.
  - exact C.
  - now exists dir, clock, lport, raddr, rport, preview.
Qed.

(** *** How many records *)

Lemma parse_line_recognized i line :
  existsb (fun pattern => matches pattern (strip line)) all_patterns =
  match parse_line i line with
  | Ok None => false
  | _ => true
  end.
Proof.
  unfold parse_line, all_patterns, matches. simpl.
  destruct (search outbound (strip line)) as [g|];
    [now destruct (on_outbound g)|].
  destruct (search inbound (strip line)) as [g|];
    [now destruct (on_inbound g)|].
  destruct (search transport (strip line)) as [g|];
    [now destruct (on_transport g)|].
  destruct (search udp_log (strip line)) as [g|];
    [now destruct (on_udp_log i g)|reflexivity].
Qed.

Lemma parse_loop_length (logs : list string) :
  forall i recs,
    parse_loop i logs [] = Ok recs ->
    List.length recs =
    List.length
      (filter (fun line =>
                 existsb (fun pattern => matches pattern (strip line))
                   all_patterns) logs).
Proof.
  induction logs as [|log logs IH]; intros i recs H; simpl in H.
  - now injection H as <-.
  - cbn [filter]. rewrite (parse_line_recognized i log).
    destruct (parse_line i log) as [[r|]|e]; [| |discriminate].
    + rewrite (parse_loop_acc json_loads strptime today) in H.
      destruct (parse_loop (S i) logs []) as [rs|e] eqn:E; [|discriminate].
      injection H as <-. simpl. f_equal. now apply (IH (S i)).
    + now apply (IH (S i)).
Qed.

(** X8. When the file is parsed, there is one record for each line that
    one of the four patterns matches, and none for the others: the
    records are as many as those lines. *)
Theorem one_record_per_matched_line (logs : list string)
    (recs : list record) :
  parse_log_file logs = Ok recs ->
  List.length recs =
  List.length
    (filter (fun line =>
               existsb (fun pattern => matches pattern (strip line))
                 all_patterns) logs).
Proof. apply parse_loop_length. Qed.

(** *** The local marker *)

Lemma contains_absent (c : ascii) (w s : string) :
  all (fun x => negb (Ascii.eqb x c)) s = true ->
  contains (String c w) s = false.
Proof.
  induction s as [|x s IH]; [reflexivity|].
  cbn [all]. rewrite andb_true_iff, negb_true_iff. intros [Hx Hs].
  cbn [contains]. rewrite (IH Hs). unfold starts_with. cbn [strip_prefix].
  rewrite Ascii.eqb_sym, Hx. reflexivity.
Qed.

Lemma run_not_local cs d :
  in_cset cs "l" = false -> is_run cs d = true ->
  all (fun x => negb (Ascii.eqb x "l")) d = true.
Proof.
  intros Hc H. apply is_run_iff in H as [_ H].
  apply all_impl with (p := in_cset cs); [|exact H].
  intros c Hin.
  destruct (Ascii.eqb_spec c "l") as [->|]; [congruence | reflexivity].
Qed.

Lemma node_not_local peer :
  is_node_name peer = true -> contains "localhost" peer = false.
Proof.
  intros H. apply node_name_parts in H as (a & -> & Ha).
  apply contains_absent. rewrite all_app. simpl.
  now apply (run_not_local (COne IDigit)).
Qed.

Lemma address_not_local ip port :
  is_dotted ip = true -> is_digits port = true ->
  contains "localhost" (ip +++ ":" +++ port) = false.
Proof.
  intros Hi Hp. apply contains_absent. rewrite !all_app. simpl.
  rewrite (run_not_local (CSet [IDigit; IChr "."]) ip eq_refl Hi).
  now apply (run_not_local (COne IDigit)).
Qed.

(** X9. The marker [localhost] that the renderers look for is on one
    end of a [UDP_LOG] record, the destination for [IN] and the source
    for [OUT], and on the destination of no other record: a record of
    the parser has it in its destination exactly when its line is a
    [UDP_LOG] line of direction [IN]. *)
Theorem local_marker (i : nat) (line : string) (r : record) :
  parse_line i line = Ok (Some r) ->
  (contains "localhost" (destination r) = true <->
   exists clock lport raddr rport preview,
     udp_log_line (strip line) "IN" clock lport raddr rport preview)
  /\ (forall dir clock lport raddr rport preview,
        udp_log_line (strip line) dir clock lport raddr rport preview ->
        contains "localhost" (destination r) = String.eqb dir "IN" /\
        py_in "localhost" (source r) = Ok (negb (String.eqb dir "IN"))).
Proof.
  intros H.
  assert (U : forall dir clock lport raddr rport preview,
             udp_log_line (strip line) dir clock lport raddr rport preview ->
             contains "localhost" (destination r) = String.eqb dir "IN" /\
             py_in "localhost" (source r) = Ok (negb (String.eqb dir "IN"))).
  { intros dir clock lport raddr rport preview L.
    assert (L' := L). destruct L' as (_ & Hd & _ & Hl & Hr & Hp & _).
    apply udp_log_line_search in L as (H1 & H2 & H3 & H4).
    revert H. unfold parse_line. rewrite H1, H2, H3, H4.
    unfold on_udp_log. cbn [group Nat.eqb].
    destruct (strptime (today i) clock) as [ts|]; [simpl|discriminate].
    pose proof (address_not_local raddr rport Hr Hp) as A. simpl in A.
    destruct Hd as [-> | ->]; simpl;
      match goal with
      | |- context [try_except ?b ?l ?h] =>
          destruct (try_except b l h) as [?|?]; simpl; [|discriminate]
      end; intros [= <-]; simpl; unfold starts_with; simpl;
      now rewrite ?A. }
  split; [|exact U]. split.
  - intros C.
    apply (parse_line_grammar json_loads strptime today) in H
      as [(src & dst & L & _ & D & _)
         |[(peer & ip & port & L & D & _)
          |[(ip & port & L & D & _)
           |(dir & clock & lport & raddr & rport & L & _)]]].
    + destruct L as (_ & _ & Hn & _). rewrite D, (node_not_local dst Hn) in C.
      discriminate.
    + destruct L as (_ & Hn & _). rewrite D, (node_not_local peer Hn) in C.
      discriminate.
    + destruct L as (_ & Hi & Hp & _).
      rewrite D, (address_not_local ip port Hi Hp) in C. discriminate.
    + destruct (U _ _ _ _ _ _ L) as [E _]. rewrite C in E.
      symmetry in E. apply String.eqb_eq in E as ->.
      now exists clock, lport, raddr, rport, (info r).
  - intros (clock & lport & raddr & rport & preview & L).
    now destruct (U _ _ _ _ _ _ L) as [E _].
Qed.

End FileFacts.

(** ** The type of a record *)

Section TypeFacts.
Import Str Re StrFacts ReFacts Pattern PatternFacts PatternFacts2 Exclusive
  Line StripFacts.

Variable json_loads : string -> option pyval.
Variable strptime : Z -> string -> option Z.
Variable today : nat -> Z.

#[local] Abbreviation parse_line := (parse_line json_loads strptime today).
#[local] Abbreviation parse_loop := (parse_loop json_loads strptime today).
#[local] Abbreviation parse_log_file :=
  (parse_log_file json_loads strptime today).
#[local] Abbreviation on_outbound := (on_outbound json_loads).
#[local] Abbreviation on_inbound := (on_inbound json_loads).
#[local] Abbreviation on_transport := (on_transport json_loads).
#[local] Abbreviation on_udp_log := (on_udp_log json_loads strptime today).
#[local] Abbreviation loads := (loads json_loads).

(** The type of a record, from the payload of its line. *)
Lemma parse_line_type (i : nat) (line : string) (r : record) :
  parse_line i line = Ok (Some r) ->
  (exists src dst,
     outbound_line (strip line) src dst (info r) /\
     match json_loads (info r) with
     | None => type r = PyStr "text"
     | Some (PyDict d) => type r = get_or d "type" (PyStr "json")
     | Some _ => False
     end)
  \/ (((exists peer ip port,
          inbound_line (strip line) peer ip port (info r))
       \/ (exists ip port, transport_line (strip line) ip port (info r))) /\
      match json_loads (info r) with
      | None => type r = PyStr "text"
      | Some (PyDict d) =>
          match loads (get_or d "message" (PyStr "{}")) with
          | Ok (PyDict d') => type r = get_or d' "type" (PyStr "json")
          | Ok _ => False
          | Raise JSONDecodeError | Raise TypeError => type r = PyStr "text"
          | Raise _ => False
          end
      | Some _ => False
      end)
  \/ ((exists dir clock lport raddr rport,
         udp_log_line (strip line) dir clock lport raddr rport (info r)) /\
      match json_loads (info r) with
      | None => type r = PyStr "UDP_DATA"
      | Some (PyDict d) => type r = get_or d "type" (PyStr "UDP_DATA")
      | Some (PyList l) =>
          existsb (is_str "type") l = false /\ type r = PyStr "UDP_DATA"
      | Some (PyStr s) =>
          contains "type" s = false /\ type r = PyStr "UDP_DATA"
      | Some _ => False
      end).
Proof.
  intros H.
  destruct (parse_line_grammar json_loads strptime today i line r H)
    as [(src & dst & L & _)
       |[(peer & ip & port & L & _)
        |[(ip & port & L & _)
         |(dir & clock & lport & raddr & rport & L & _)]]].
  - left. exists src, dst. split; [exact L|].
    remember (info r) as payload eqn:Ep.
    apply outbound_line_search in L. revert H. unfold parse_line.
    rewrite L. unfold on_outbound, loads, get_or. simpl.
    destruct (json_loads payload) as [[| | | | | |d]|]; simpl;
      try discriminate;
      [destruct (dict_get d "type")|]; intros [= <-]; reflexivity.
  - right. left. split; [left; now exists peer, ip, port|].
    remember (info r) as payload eqn:Ep.
    apply inbound_line_search in L as [L1 L2]. revert H. unfold parse_line.
    rewrite L1, L2. unfold on_inbound, loads, get_or. simpl.
    destruct (json_loads payload) as [[| | | | | |d]|]; simpl;
      try discriminate; [|intros [= <-]; reflexivity].
    destruct (dict_get d "sender") as [sender|]; simpl;
      (destruct (dict_get d "message") as [[| | | | s | |]|]; simpl;
       try (intros [= <-]; reflexivity);
       match goal with
       | |- context [json_loads ?t] =>
           destruct (json_loads t) as [[| | | | | |d']|]; simpl;
           try discriminate; try (intros [= <-]; reflexivity);
           destruct (dict_get d' "type"); intros [= <-]; reflexivity
       end).
  - right. left. split; [right; now exists ip, port|].
    remember (info r) as payload eqn:Ep.
    apply transport_line_search in L as (L1 & L2 & L3). revert H.
    unfold parse_line. rewrite L1, L2, L3.
    unfold on_transport, loads, get_or. simpl.
    destruct (json_loads payload) as [[| | | | | |d]|]; simpl;
      try discriminate; [|intros [= <-]; reflexivity].
    destruct (dict_get d "sender") as [sender|]; simpl;
      (destruct (dict_get d "message") as [[| | | | s | |]|]; simpl;
       try (intros [= <-]; reflexivity);
       match goal with
       | |- context [json_loads ?t] =>
           destruct (json_loads t) as [[| | | | | |d']|]; simpl;
           try discriminate; try (intros [= <-]; reflexivity);
           destruct (dict_get d' "type"); intros [= <-]; reflexivity
       end).
  - right. right.
    split; [now exists dir, clock, lport, raddr, rport|].
    remember (info r) as payload eqn:Ep.
    apply udp_log_line_search in L as (L1 & L2 & L3 & L4). revert H.
    unfold parse_line. rewrite L1, L2, L3, L4.
    unfold on_udp_log, loads, get_or. simpl.
    destruct (strptime (today i) clock) as [ts|]; [simpl|discriminate].
    destruct (String.eqb dir "IN"); simpl;
      (destruct (json_loads payload) as [[| | | | s | l | d]|]; simpl;
       try discriminate;
       [ destruct (contains "type" s); simpl; [discriminate|];
         intros [= <-]; now split
       | destruct (existsb (is_str "type") l); simpl; [discriminate|];
         intros [= <-]; now split
       | destruct (dict_get d "type"); intros [= <-]; reflexivity
       | intros [= <-]; reflexivity ]).
Qed.

(** C5, as the code has it. When [json.loads] cannot decode the payload
    of a line, the type of its record is the sentinel of its family,
    ['text'] or, for the records of [UDP_LOG] lines, ['UDP_DATA'].
    Otherwise the type is read from the payload of the record's own
    line, by the policy of its family: the [type] of the payload of an
    outbound-peer line, ['json'] when it has none; the [type] of the
    object that the [message] of an inbound-peer or transport payload
    decodes to, ['json'] when it has none, and ['text'] when that
    message is not a string or does not decode; the [type] of the
    preview of a [UDP_LOG] line, ['UDP_DATA'] when it has none.  The
    value is taken as it is. *)
Theorem type_of_record (logs : list string) (recs : list record) :
  parse_log_file logs = Ok recs ->
  forall r, In r recs ->
    (json_loads (info r) = None -> type r = sentinel r) /\
    exists i line,
      nth_error logs i = Some line /\
      ((exists src dst,
          outbound_line (strip line) src dst (info r) /\
          match json_loads (info r) with
          | None => type r = PyStr "text"
          | Some (PyDict d) => type r = get_or d "type" (PyStr "json")
          | Some _ => False
          end)
       \/ (((exists peer ip port,
               inbound_line (strip line) peer ip port (info r))
            \/ (exists ip port,
                  transport_line (strip line) ip port (info r))) /\
           match json_loads (info r) with
           | None => type r = PyStr "text"
           | Some (PyDict d) =>
               match loads (get_or d "message" (PyStr "{}")) with
               | Ok (PyDict d') => type r = get_or d' "type" (PyStr "json")
               | Ok _ => False
               | Raise JSONDecodeError | Raise TypeError =>
                   type r = PyStr "text"
               | Raise _ => False
               end
           | Some _ => False
           end)
       \/ ((exists dir clock lport raddr rport,
              udp_log_line (strip line) dir clock lport raddr rport
                (info r)) /\
           match json_loads (info r) with
           | None => type r = PyStr "UDP_DATA"
           | Some (PyDict d) => type r = get_or d "type" (PyStr "UDP_DATA")
           | Some (PyList l) =>
               existsb (is_str "type") l = false /\
               type r = PyStr "UDP_DATA"
           | Some (PyStr s) =>
               contains "type" s = false /\ type r = PyStr "UDP_DATA"
           | Some _ => False
           end)).
Proof.
  intros H r Hr.
  apply (parse_loop_in_order json_loads strptime today) in H as [-> _].
  apply in_flat_map in Hr as ([i line] & Hin & Hr). simpl in Hr.
  apply enumerate_nth in Hin as [_ Hin]. rewrite Nat.sub_0_r in Hin.
  assert (E : parse_line i line = Ok (Some r)).
  { unfold line_records in Hr.
    destruct (parse_line i line) as [[r'|]|e]; try easy.
    destruct Hr as [->|[]]. reflexivity. }
  split.
  - now destruct (parse_line_record json_loads strptime today i line r E)
      as (_ & _ & T & _).
  - exists i, line. split; [exact Hin|]. exact (parse_line_type i line r E).
Qed.

End TypeFacts.

(** ** The tabular trace *)

Module TraceFacts.
Import Str.

(** A record the trace can print: it has a time stamp, and its source
    and its type take a format specification. *)
Lemma row_ok relative_time log :
  (exists line, row relative_time log = Ok line) <->
  (exists s ty, Fmt.py_ljust 25 (source log) = Ok s /\
                Fmt.py_ljust 15 (type log) = Ok ty).
Proof.
  unfold row. split.
  - intros [line H].
    destruct (Fmt.py_ljust 25 (source log)) as [s|]; [|discriminate].
    destruct (Fmt.py_ljust 15 (type log)) as [ty|]; [|discriminate].
    now exists s, ty.
  - intros (s & ty & -> & ->). simpl. now eexists.
Qed.



Lemma print_rows_printable start_time logs :
  forall in_count out_count out out' counts,
    print_rows start_time logs in_count out_count out = (out', Ok counts) ->
    Forall (fun log =>
              exists t s ty,
                timestamp log = Some t /\
                Fmt.py_ljust 25 (source log) = Ok s /\
                Fmt.py_ljust 15 (type log) = Ok ty) logs.
Proof.
  induction logs as [|log logs IH]; intros a b out out' counts H;
    [constructor|].
  cbn [print_rows] in H. unfold io_bind, lift, print, get_timestamp in H.
  destruct (timestamp log) as [t|] eqn:Et; [|discriminate].
  destruct (contains "localhost" (destination log));
    (destruct (row (t - start_time) log) as [line|e] eqn:El; [|discriminate];
     destruct (proj1 (row_ok (t - start_time) log)) as (s & ty & Es & Ety);
     [now exists line|];
     constructor; [now exists t, s, ty | eapply IH; exact H]).
Qed.

Lemma trace_printable (parsed_logs : list record) (out : list string) :
  run (print_wireshark_style parsed_logs) = (out, Ok tt) ->
  Forall (fun log =>
            exists t s ty,
              timestamp log = Some t /\
              Fmt.py_ljust 25 (source log) = Ok s /\
              Fmt.py_ljust 15 (type log) = Ok ty) parsed_logs.
Proof.
  destruct parsed_logs as [|first rest]; [constructor|].
  unfold run, print_wireshark_style.
  unfold io_bind at 1 2 3 4. unfold lift at 1, print at 1 2.
  unfold get_timestamp at 1.
  destruct (timestamp first) as [t0|]; [|discriminate].
  match goal with
  | |- context [print_rows ?st ?l ?a ?b ?o] =>
      destruct (print_rows st l a b o) as [out' [counts|e]] eqn:E;
        [|discriminate]
  end.
  intros _. eapply print_rows_printable. exact E.
Qed.


Lemma py_ljust_ok (w : nat) (v : pyval) (s : string) :
  Fmt.py_ljust w v = Ok s ->
  match v with
  | PyNone | PyList _ | PyDict _ => False
  | _ => True
  end.
Proof. now destruct v. Qed.

(** X10. The tabular trace ends without an exception only if every
    record has a time stamp, and a source and a type that take a format
    specification: a record without time stamp, or with [None], a list
    or an object for its source or its type, ends the trace with an
    exception. *)
Theorem tabular_trace_ends_well (parsed_logs : list record)
    (out : list string) :
  run (print_wireshark_style parsed_logs) = (out, Ok tt) ->
  Forall (fun log =>
            timestamp log <> None /\
            match source log with
            | PyNone | PyList _ | PyDict _ => False
            | _ => True
            end /\
            match type log with
            | PyNone | PyList _ | PyDict _ => False
            | _ => True
            end) parsed_logs.
Proof.
  intros H. apply trace_printable in H.
  eapply Forall_impl; [|exact H].
  intros log (t & s & ty & Ht & Hs & Hty). split; [congruence|].
  split; [exact (py_ljust_ok 25 _ s Hs) | exact (py_ljust_ok 15 _ ty Hty)].
Qed.


End TraceFacts.

(** ** Participants *)

Module ParticipantFacts.
Import Str.

(** The order of [sorted] on [str]: code point by code point. *)
#[local] Abbreviation before := (fun a b : string => String.ltb a b = true).

Lemma compare_refl (s : string) : String.compare s s = Eq.
Proof.
  induction s as [|c s IH]; simpl; [reflexivity|].
  unfold Ascii.compare. now rewrite N.compare_refl.
Qed.

Lemma compare_lt_trans (a b c : string) :
  String.compare a b = Lt -> String.compare b c = Lt ->
  String.compare a c = Lt.
Proof.
  revert b c. induction a as [|x a IH]; intros [|y b] [|z c]; simpl;
    try easy.
  destruct (Ascii.compare x y) eqn:Exy; try easy;
    destruct (Ascii.compare y z) eqn:Eyz; try easy; intros H1 H2.
  - apply Ascii.compare_eq_iff in Exy as ->. rewrite Eyz. now apply (IH b).
  - apply Ascii.compare_eq_iff in Exy as ->. now rewrite Eyz.
  - apply Ascii.compare_eq_iff in Eyz as <-. now rewrite Exy.
  - unfold Ascii.compare in *. rewrite N.compare_lt_iff in Exy, Eyz.
    assert (L : (N_of_ascii x < N_of_ascii z)%N) by lia.
    apply N.compare_lt_iff in L. now rewrite L.
Qed.

Lemma before_trans (a b c : string) : before a b -> before b c -> before a c.
Proof.
  unfold String.ltb.
  destruct (String.compare a b) eqn:E1; try easy.
  destruct (String.compare b c) eqn:E2; try easy.
  now rewrite (compare_lt_trans a b c E1 E2).
Qed.

Lemma before_irrefl (a : string) : ~ before a a.
Proof. unfold String.ltb. now rewrite compare_refl. Qed.

Lemma before_total (a b : string) :
  String.eqb a b = false -> String.ltb a b = false -> before b a.
Proof.
  unfold String.ltb. intros N L. apply String.eqb_neq in N.
  rewrite (String.compare_antisym a b) in L.
  destruct (String.compare b a) eqn:E; try easy.
  apply String.compare_eq_iff in E. congruence.
Qed.

Lemma insert_sorted_in (x : string) (l : list string) (p : string) :
  In p (insert_sorted x l) <-> p = x \/ In p l.
Proof.
  induction l as [|y l IH]; simpl; [intuition|].
  destruct (String.eqb_spec x y) as [->|N]; simpl; [intuition|].
  destruct (String.ltb x y); simpl; [intuition|].
  rewrite IH. intuition.
Qed.

Lemma insert_sorted_sorted (x : string) (l : list string) :
  StronglySorted before l -> StronglySorted before (insert_sorted x l).
Proof.
  induction 1 as [|y l S IH F]; simpl; [repeat constructor|].
  destruct (String.eqb x y) eqn:E; [now constructor|].
  destruct (String.ltb x y) eqn:L.
  - constructor; [now constructor|]. constructor; [exact L|].
    eapply Forall_impl; [|exact F]. intros z Hz.
    now apply (before_trans x y z).
  - constructor; [exact IH|]. apply Forall_forall. intros z Hz.
    apply insert_sorted_in in Hz as [->|Hz].
    + now apply before_total.
    + rewrite Forall_forall in F. now apply F.
Qed.

Lemma sorted_set_in (l : list string) (p : string) :
  In p (sorted_set l) <-> In p l.
Proof.
  induction l as [|x l IH]; simpl; [reflexivity|].
  rewrite insert_sorted_in, IH. intuition.
Qed.

Lemma sorted_set_sorted (l : list string) :
  StronglySorted before (sorted_set l).
Proof.
  induction l as [|x l IH]; simpl; [constructor|].
  now apply insert_sorted_sorted.
Qed.

Lemma str_sources_some (logs : list record) :
  Forall (fun log => exists s, source log = PyStr s) logs ->
  exists l, str_sources logs = Some l.
Proof.
  induction 1 as [|log logs (s & E) _ (l & IH)]; simpl; [now eexists|].
  rewrite E, IH. now eexists.
Qed.

Lemma str_sources_in (logs : list record) :
  forall l, str_sources logs = Some l ->
  forall p, In p l <-> exists log, In log logs /\ source log = PyStr p.
Proof.
  induction logs as [|log logs IH]; simpl; intros l H p.
  - injection H as <-. simpl. split; [easy | now intros (? & [] & _)].
  - destruct (source log) as [| | | |s| |] eqn:E; try discriminate.
    destruct (str_sources logs) as [l'|]; [|discriminate].
    injection H as <-. simpl. rewrite (IH l' eq_refl p). split.
    + intros [->|(log' & Hin & E')]; [exists log; auto|].
      exists log'. auto.
    + intros (log' & [<-|Hin] & E'); [left; congruence|].
      right. now exists log'.
Qed.

Lemma str_sources_none (logs : list record) (log : record) :
  In log logs -> (forall s, source log <> PyStr s) ->
  str_sources logs = None.
Proof.
  induction logs as [|log' logs IH]; simpl; [easy|].
  intros [->|Hin] N.
  - destruct (source log) as [| | | |s| |] eqn:E; try reflexivity.
    now destruct (N s).
  - rewrite (IH Hin N). now destruct (source log').
Qed.

(** X12. The participants are the sources and the destinations of the
    records, each once, in increasing order of their code points; they
    are defined when every source is a text, and are a [TypeError]
    otherwise. *)
Theorem participants_sorted_set (parsed_logs : list record) :
  (forall ps,
     participants parsed_logs = Ok ps ->
     StronglySorted (fun a b => String.ltb a b = true) ps /\
     forall p,
       In p ps <->
       exists log, In log parsed_logs /\
                   (source log = PyStr p \/ destination log = p))
  /\ (Forall (fun log => exists s, source log = PyStr s) parsed_logs ->
      exists ps, participants parsed_logs = Ok ps)
  /\ (forall log,
        In log parsed_logs -> (forall s, source log <> PyStr s) ->
        participants parsed_logs = Raise TypeError).
Proof.
  unfold participants. split; [|split].
  - intros ps.
    destruct (str_sources parsed_logs) as [l|] eqn:E; [|discriminate].
    intros [= <-]. split; [apply sorted_set_sorted|].
    intros p. rewrite sorted_set_in, in_app_iff, in_map_iff.
    rewrite (str_sources_in parsed_logs l E p). split.
    + intros [(log & Hin & Es)|(log & Ed & Hin)]; exists log; auto.
    + intros (log & Hin & [Es|Ed]); [left|right]; exists log; auto.
  - intros F. destruct (str_sources_some parsed_logs F) as [l ->].
    now eexists.
  - intros log Hin N. now rewrite (str_sources_none parsed_logs log Hin N).
Qed.

End ParticipantFacts.

(** ** The generators *)

Module DiagramFacts.
Import Str ParticipantFacts.

Lemma sequence_messages_ok (logs : list record) :
  Forall (fun log => exists s, source log = PyStr s) logs ->
  forall out, exists out', sequence_messages logs out = Ok out'.
Proof.
  induction 1 as [|log logs (s & E) _ IH]; intros out; simpl;
    [now eexists|].
  rewrite E. simpl. apply IH.
Qed.

Lemma activity_blocks_ok (logs : list record) :
  Forall (fun log => exists s, source log = PyStr s) logs ->
  forall i out, exists out', activity_blocks i logs out = Ok out'.
Proof.
  induction 1 as [|log logs (s & E) _ IH]; intros i out; simpl;
    [now eexists|].
  rewrite E. simpl. apply IH.
Qed.

Lemma activity_lines_ok (logs : list record) :
  Forall (fun log => exists s, source log = PyStr s) logs ->
  forall i out, exists out', activity_lines i logs out = Ok out'.
Proof.
  induction 1 as [|log logs (s & E) _ IH]; intros i out; simpl;
    [now eexists|].
  rewrite E. simpl. apply IH.
Qed.

(** A participant has its column. *)
Lemma participant_col_ok (ps : list string) (p : string) :
  In p ps ->
  exists i, nth_error ps i = Some p /\ participant_col ps p = Ok (15 * i).
Proof.
  induction ps as [|q ps IH]; [easy|]. intros H. simpl.
  destruct (String.eqb_spec q p) as [->|N]; [now exists 0|].
  destruct H as [->|H]; [easy|].
  destruct (IH H) as (i & Hi & ->). exists (S i). split; [exact Hi|].
  simpl. f_equal. lia.
Qed.

Lemma participant_col_inv (ps : list string) (p : string) (col : nat) :
  participant_col ps p = Ok col ->
  exists i, nth_error ps i = Some p /\ col = 15 * i.
Proof.
  revert col. induction ps as [|q ps IH]; intros col; simpl; [easy|].
  destruct (String.eqb_spec q p) as [->|N].
  - intros [= <-]. now exists 0.
  - destruct (participant_col ps p) as [c|]; [|easy]. simpl.
    intros [= <-]. destruct (IH c eq_refl) as (i & Hi & ->).
    exists (S i). split; [exact Hi | lia].
Qed.

Lemma sequence_line_ok (ps : list string) (log : record) (s : string) :
  source log = PyStr s -> In s ps -> In (destination log) ps ->
  exists line, sequence_line ps log = Ok line.
Proof.
  intros E Hs Hd. unfold sequence_line. rewrite E. cbn [bind].
  destruct (participant_col_ok ps s Hs) as (i & _ & ->).
  destruct (participant_col_ok ps _ Hd) as (j & _ & ->). cbn [bind].
  destruct (15 * i <? 15 * j); now eexists.
Qed.

Lemma sequence_lines_ok (ps : list string) (logs : list record) :
  Forall (fun log => exists s, source log = PyStr s /\ In s ps /\
                               In (destination log) ps) logs ->
  forall out, exists out', sequence_lines ps logs out = Ok out'.
Proof.
  induction 1 as [|log logs (s & E & Hs & Hd) _ IH]; intros out; simpl;
    [now eexists|].
  destruct (sequence_line_ok ps log s E Hs Hd) as [line ->]. simpl.
  apply IH.
Qed.

Lemma str_sources_text (logs : list record) :
  forall l, str_sources logs = Some l ->
  Forall (fun log => exists s, source log = PyStr s) logs.
Proof.
  induction logs as [|log logs IH]; simpl; intros l H; [constructor|].
  destruct (source log) as [| | | |s| |] eqn:E; try discriminate.
  destruct (str_sources logs) as [l'|]; [|discriminate].
  constructor; [now exists s | now apply (IH l')].
Qed.

Lemma participants_cover (parsed_logs : list record) (ps : list string) :
  participants parsed_logs = Ok ps ->
  Forall (fun log => exists s, source log = PyStr s /\ In s ps /\
                               In (destination log) ps) parsed_logs.
Proof.
  unfold participants.
  destruct (str_sources parsed_logs) as [l|] eqn:E; [|discriminate].
  intros [= <-]. apply Forall_forall. intros log Hin.
  pose proof (str_sources_text parsed_logs l E) as F.
  rewrite Forall_forall in F. destruct (F log Hin) as [s Es].
  exists s. split; [exact Es|]. split; apply sorted_set_in, in_app_iff.
  - left. apply (str_sources_in parsed_logs l E). now exists log.
  - right. now apply in_map.
Qed.

Lemma ascii_sequence_ok (parsed_logs : list record) :
  Forall (fun log => exists s, source log = PyStr s) parsed_logs ->
  exists t, generate_ascii_sequence_diagram parsed_logs = Ok t.
Proof.
  intros F. unfold generate_ascii_sequence_diagram.
  destruct (participants parsed_logs) as [ps|] eqn:P.
  - simpl.
    match goal with
    | |- context [sequence_lines _ _ ?o] =>
        destruct (sequence_lines_ok ps parsed_logs
                    (participants_cover parsed_logs ps P) o) as [out ->]
    end. now eexists.
  - revert P. unfold participants.
    now destruct (str_sources_some parsed_logs F) as [l ->].
Qed.

Lemma ascii_activity_ok (parsed_logs : list record) :
  Forall (fun log => exists s, source log = PyStr s) parsed_logs ->
  exists t, generate_ascii_activity_flow parsed_logs = Ok t.
Proof.
  intros F. unfold generate_ascii_activity_flow.
  match goal with
  | |- context [activity_lines ?i _ ?o] =>
      destruct (activity_lines_ok parsed_logs F i o) as [out ->]
  end. now eexists.
Qed.

Lemma ascii_state_ok (parsed_logs : list record) :
  Forall (fun log => exists s, source log = PyStr s) parsed_logs ->
  exists t, generate_ascii_state_flow parsed_logs = Ok t.
Proof.
  intros F. unfold generate_ascii_state_flow, participants.
  destruct (str_sources_some parsed_logs F) as [l ->]. now eexists.
Qed.

(** X13. When the source of every record is a text, the six generators
    return their diagram: no participant is without its column in the
    sequence diagram.  A source that is not a text makes the four that
    list the participants raise [TypeError]. *)
Theorem diagrams_of_text_sources (parsed_logs : list record) :
  (Forall (fun log => exists s, source log = PyStr s) parsed_logs ->
   (exists t, generate_sequence_diagram_plantuml parsed_logs = Ok t) /\
   (exists t, generate_activity_diagram_plantuml parsed_logs = Ok t) /\
   (exists t, generate_state_diagram_plantuml parsed_logs = Ok t) /\
   (exists t, generate_ascii_sequence_diagram parsed_logs = Ok t) /\
   (exists t, generate_ascii_activity_flow parsed_logs = Ok t) /\
   (exists t, generate_ascii_state_flow parsed_logs = Ok t))
  /\ (forall log,
        In log parsed_logs -> (forall s, source log <> PyStr s) ->
        generate_sequence_diagram_plantuml parsed_logs = Raise TypeError /\
        generate_state_diagram_plantuml parsed_logs = Raise TypeError /\
        generate_ascii_sequence_diagram parsed_logs = Raise TypeError /\
        generate_ascii_state_flow parsed_logs = Raise TypeError).
Proof.
  split.
  - intros F.
    assert (P : exists ps, participants parsed_logs = Ok ps).
    { unfold participants.
      destruct (str_sources_some parsed_logs F) as [l ->]. now eexists. }
    destruct P as [ps P].
    split; [|split; [|split; [|split; [|split]]]].
    + unfold generate_sequence_diagram_plantuml. rewrite P. simpl.
      match goal with
      | |- context [sequence_messages _ ?o] =>
          destruct (sequence_messages_ok parsed_logs F o) as [out ->]
      end. now eexists.
    + unfold generate_activity_diagram_plantuml.
      match goal with
      | |- context [activity_blocks ?i _ ?o] =>
          destruct (activity_blocks_ok parsed_logs F i o) as [out ->]
      end. now eexists.
    + unfold generate_state_diagram_plantuml. rewrite P. now eexists.
    + now apply ascii_sequence_ok.
    + now apply ascii_activity_ok.
    + now apply ascii_state_ok.
  - intros log Hin N.
    assert (P : participants parsed_logs = Raise TypeError).
    { unfold participants.
      now rewrite (str_sources_none parsed_logs log Hin N). }
    unfold generate_sequence_diagram_plantuml,
      generate_state_diagram_plantuml, generate_ascii_sequence_diagram,
      generate_ascii_state_flow.
    rewrite P. repeat split.
Qed.

(** *** The lines of the ASCII sequence diagram *)

Lemma set_char_length (i : nat) (c : ascii) (line : list ascii) :
  List.length (set_char i c line) = List.length line.
Proof.
  revert i. induction line as [|x line IH]; intros [|i]; simpl; auto.
Qed.

Lemma fill_length (a b : nat) (c : ascii) (line : list ascii) :
  List.length (fill a b c line) = List.length line.
Proof.
  unfold fill. generalize (seq a (b - a)). intros l. revert line.
  induction l as [|i l IH]; intros line; simpl; [reflexivity|].
  now rewrite IH, set_char_length.
Qed.

Lemma write_text_length (text : string) :
  forall start line,
    List.length (write_text start text line) = List.length line.
Proof.
  induction text as [|c text IH]; intros start line; simpl; [reflexivity|].
  rewrite IH. destruct (start <? List.length line); [|reflexivity].
  apply set_char_length.
Qed.

Lemma lifelines_length (cols : list nat) :
  forall line,
    List.length
      (fold_left
         (fun line col =>
            if col <? List.length line then set_char col "|" line else line)
         cols line)
    = List.length line.
Proof.
  induction cols as [|col cols IH]; intros line; simpl; [reflexivity|].
  rewrite IH. destruct (col <? List.length line); [|reflexivity].
  apply set_char_length.
Qed.

Lemma length_of_list (l : list ascii) :
  String.length (string_of_list_ascii l) = List.length l.
Proof. induction l as [|c l IH]; simpl; [reflexivity | now rewrite IH]. Qed.

Lemma ok_length (l : list ascii) (line : string) :
  Ok (string_of_list_ascii l) = Ok line ->
  String.length line = List.length l.
Proof. intros [= <-]. apply length_of_list. Qed.

(** X14. A line of the ASCII sequence diagram is drawn for a record
    whose source and destination are participants; fifteen columns go to
    each participant, and the line ends fifteen columns after the farther
    of the two, whatever the length of the type it shows. *)
Theorem sequence_line_width (unique_participants : list string)
    (log : record) (line : string) :
  sequence_line unique_participants log = Ok line ->
  exists sender i j,
    source log = PyStr sender /\
    nth_error unique_participants i = Some sender /\
    nth_error unique_participants j = Some (destination log) /\
    String.length line = 15 * Nat.max i j + 15.
Proof.
  unfold sequence_line.
  destruct (source log) as [| | | |sender| |]; try discriminate. cbn [bind].
  destruct (participant_col unique_participants sender) as [sc|] eqn:Es;
    [|discriminate].
  destruct (participant_col unique_participants (destination log))
    as [rc|] eqn:Er; [|discriminate].
  cbn [bind].
  apply participant_col_inv in Es as (i & Hi & ->).
  apply participant_col_inv in Er as (j & Hj & ->).
  intros H. exists sender, i, j. repeat split; auto.
  destruct (15 * i <? 15 * j); apply ok_length in H; rewrite H;
    rewrite write_text_length, !set_char_length,
      fill_length, lifelines_length, repeat_length; lia.
Qed.

(** *** Names for PlantUML *)

(** X15. The name of a participant in a PlantUML diagram has the length
    of the participant and neither colon nor dot: each of them has
    become an underscore, and the other characters are kept. *)
Theorem sanitize_name (p : string) :
  String.length (sanitize p) = String.length p
  /\ all (fun c => negb (Ascii.eqb c ":") && negb (Ascii.eqb c "."))
       (sanitize p) = true
  /\ forall n c,
       String.get n p = Some c ->
       String.get n (sanitize p) =
       Some (if Ascii.eqb c ":" || Ascii.eqb c "." then "_"%char else c).
Proof.
  unfold sanitize. induction p as [|x p (IH1 & IH2 & IH3)]; simpl.
  - repeat split. intros n c. now destruct n.
  - split; [now rewrite IH1|]. split.
    + rewrite IH2.
      destruct (Ascii.eqb_spec x ":") as [->|N1]; [reflexivity|].
      destruct (Ascii.eqb_spec x ".") as [->|N2]; [reflexivity|].
      simpl. apply Ascii.eqb_neq in N1, N2. now rewrite N1, N2.
    + intros [|n] c; [|apply IH3]. intros [= ->].
      destruct (Ascii.eqb_spec c ":") as [->|N1]; [reflexivity|].
      now destruct (Ascii.eqb_spec c ".").
Qed.

(** *** The header of the ASCII sequence diagram *)

Lemma last_segment_from_plain (x : string) :
  forall acc,
    Pattern.no_colon x = true -> last_segment_from x acc = rev acc +++ x.
Proof.
  unfold Pattern.no_colon, Pattern.not_colon.
  induction x as [|c x IH]; intros acc; simpl.
  - intros _. now rewrite StrFacts.app_nil_r.
  - rewrite andb_true_iff, negb_true_iff. intros [-> H].
    rewrite (IH (String c acc) H). unfold rev. simpl.
    rewrite (StripFacts.rev_onto_app acc (String c "")).
    now rewrite StrFacts.app_assoc.
Qed.

Lemma last_segment_from_colon (q x : string) :
  forall acc,
    last_segment_from (q +++ ":" +++ x) acc = last_segment_from x "".
Proof.
  induction q as [|c q IH]; intros acc; simpl; [reflexivity|].
  destruct (Ascii.eqb c ":"); apply IH.
Qed.

(** X16. The header of a participant in the ASCII sequence diagram is
    what follows its last colon: the port of an address
    [<host>:<port>], and the whole of a name without a colon. *)
Theorem last_segment_of_address :
  (forall p, Pattern.no_colon p = true -> last_segment p = p)
  /\ (forall q x,
        Pattern.no_colon x = true -> last_segment (q +++ ":" +++ x) = x).
Proof.
  unfold last_segment. split.
  - intros p H. now rewrite (last_segment_from_plain p "" H).
  - intros q x H. rewrite last_segment_from_colon.
    now rewrite (last_segment_from_plain x "" H).
Qed.

End DiagramFacts.

(** ** The program *)

Section MainFacts.
Import Str Re StrFacts ReFacts Pattern PatternFacts PatternFacts2 Exclusive
  Line StripFacts TraceFacts ParticipantFacts DiagramFacts.

Variable json_loads : string -> option pyval.
Variable strptime : Z -> string -> option Z.
Variable today : nat -> Z.

#[local] Abbreviation parse_line := (parse_line json_loads strptime today).
#[local] Abbreviation parse_loop := (parse_loop json_loads strptime today).
#[local] Abbreviation parse_log_file :=
  (parse_log_file json_loads strptime today).
#[local] Abbreviation main := (main json_loads strptime today).

(** A record with a time stamp has a text for its source. *)
Lemma stamped_source (logs : list string) (parsed : list record) :
  parse_log_file logs = Ok parsed ->
  forall r t, In r parsed -> timestamp r = Some t ->
              exists s, source r = PyStr s.
Proof.
  intros P r t Hr Ht.
  destruct (parse_log_file_line json_loads strptime today logs parsed r
              P Hr) as (i & line & _ & E).
  apply (parse_line_grammar json_loads strptime today) in E
    as [(src & dst & _ & _ & _ & _ & N)
       |[(peer & ip & port & _ & _ & _ & N)
        |[(ip & port & _ & _ & _ & N)
         |(dir & clock & lport & raddr & rport & _ & _ & _ & S & _)]]];
    try congruence.
  eexists. exact S.
Qed.

Lemma main_ends_well_inv (logs : list string) (out : list string) :
  run (main logs) = (out, Ok tt) ->
  exists parsed,
    parse_log_file logs = Ok parsed /\
    Forall (fun r => exists t ty,
                       timestamp r = Some t /\
                       Fmt.py_ljust 15 (type r) = Ok ty) parsed.
Proof.
  unfold run, main. unfold io_bind at 1. unfold lift at 1.
  destruct (parse_log_file logs) as [parsed|e]; [|discriminate].
  unfold io_bind at 1.
  destruct (print_wireshark_style parsed []) as [out1 [[]|e]] eqn:E;
    [|discriminate].
  intros _. exists parsed. split; [reflexivity|].
  apply (trace_printable parsed out1) in E.
  eapply Forall_impl; [|exact E].
  intros r (t & _ & ty & Ht & _ & Hty). now exists t, ty.
Qed.

(** X17. The program ends without an exception only if the file is
    parsed and every record has a time stamp, that is, comes from a
    [UDP_LOG] line, a text for its source, and a type that takes a
    format specification. *)
Theorem main_ends_well (logs : list string) (out : list string) :
  run (main logs) = (out, Ok tt) ->
  exists parsed,
    parse_log_file logs = Ok parsed /\
    Forall (fun r =>
              timestamp r <> None /\
              (exists s, source r = PyStr s) /\
              match type r with
              | PyNone | PyList _ | PyDict _ => False
              | _ => True
              end) parsed.
Proof.
  intros H.
  destruct (main_ends_well_inv logs out H) as (parsed & P & F).
  exists parsed. split; [exact P|].
  apply Forall_forall. intros r Hr. rewrite Forall_forall in F.
  destruct (F r Hr) as (t & ty & Ht & Hty).
  split; [congruence|]. split.
  - exact (stamped_source logs parsed P r t Hr Ht).
  - exact (py_ljust_ok 15 _ ty Hty).
Qed.

(** X18. A line of one of the three grammars without a clock stops the
    program: when the program ends without an exception, no line of the
    file is matched by the outbound, inbound or transport pattern. *)
Theorem main_accepts_udp_log_only (logs : list string) (out : list string) :
  run (main logs) = (out, Ok tt) ->
  forall line,
    In line logs ->
    matches outbound (strip line) = false /\
    matches inbound (strip line) = false /\
    matches transport (strip line) = false.
Proof.
  intros H line Hin.
  apply main_ends_well_inv in H as (parsed & P & F).
  apply In_nth_error in Hin as [i Hi].
  apply (enumerate_in logs 0) in Hi. simpl in Hi.
  destruct (parse_loop_in_order json_loads strptime today logs 0 parsed P)
    as [R A].
  rewrite Forall_forall in A. destruct (A _ Hi) as [o Ho]. simpl in Ho.
  destruct o as [r|].
  - assert (Hr : In r parsed).
    { rewrite R. apply in_flat_map. exists (i, line). split; [exact Hi|].
      unfold line_records. simpl. rewrite Ho. now left. }
    rewrite Forall_forall in F. destruct (F r Hr) as (t & _ & Ht & _).
    apply (parse_line_grammar json_loads strptime today) in Ho
      as [(src & dst & _ & _ & _ & _ & N)
         |[(peer & ip & port & _ & _ & _ & N)
          |[(ip & port & _ & _ & _ & N)
           |(dir & clock & lport & raddr & rport & L & _)]]];
      try congruence.
    apply udp_log_line_search in L as (H1 & H2 & H3 & _).
    unfold matches. now rewrite H1, H2, H3.
  - pose proof (parse_line_recognized json_loads strptime today i line)
      as M.
    rewrite Ho in M. unfold all_patterns in M. simpl in M.
    destruct (matches outbound (strip line)); [discriminate|].
    destruct (matches inbound (strip line)); [discriminate|].
    destruct (matches transport (strip line)); [discriminate|].
    repeat split.
Qed.

Lemma parse_loop_unmatched (logs : list string) :
  Forall (fun line =>
            existsb (fun pattern => matches pattern (strip line))
              all_patterns = false) logs ->
  forall i acc, parse_loop i logs acc = Ok acc.
Proof.
  induction 1 as [|line logs H _ IH]; intros i acc; simpl; [reflexivity|].
  rewrite (parse_line_recognized json_loads strptime today i line) in H.
  destruct (parse_line i line) as [[r|]|e]; try discriminate. apply IH.
Qed.

(** X19. Nothing is printed when the parser raises.  On a file none of
    whose lines is matched, the program prints the notice of the trace
    and the three ASCII diagrams with nothing in them, each between its
    two rules. *)
Theorem main_without_records (logs : list string) :
  (forall e, parse_log_file logs = Raise e ->
             run (main logs) = ([], Raise e))
  /\ (Forall (fun line =>
                existsb (fun pattern => matches pattern (strip line))
                  all_patterns = false) logs ->
      run (main logs) =
      (["No logs to display.";
        String newline (repeat "=" 140);
        lines ["ASCII Sequence Diagram:"; "-----------------------"; "";
               ""; "-----------------------"];
        repeat "=" 140;
        String newline (repeat "=" 140);
        lines ["ASCII Activity Flow:"; "---------------------";
               "---------------------"];
        repeat "=" 140;
        String newline (repeat "=" 140);
        lines ["ASCII State Flow (per participant):";
               "-----------------------------------";
               "-----------------------------------"];
        repeat "=" 140],
       Ok tt)).
Proof.
  split.
  - intros e P. unfold run, main. unfold io_bind at 1.
    unfold lift at 1. now rewrite P.
  - intros F. unfold run, main. unfold io_bind at 1.
    unfold lift at 1. unfold parse_log_file.
    rewrite (parse_loop_unmatched logs F 0 []). reflexivity.
Qed.

End MainFacts.

(** ** The time plot and the state flows *)

Module PlotFacts.
Import Str.


(** The records of the second [k], counted from [start_time]. *)
#[local] Abbreviation in_second start_time k :=
  (fun log : record =>
     match timestamp log with
     | Some t => (Z.quot (t - start_time) 1000000 =? k)%Z
     | None => false
     end).






End PlotFacts.

(** ** Instances of the further properties *)

Module Instances2.
Import Str Pattern Line Scenario Sample.

Lemma outbound_peer_record_witness :
  outbound_line (strip plain) "node1" "node2" "hi"
  /\ run_line 0 plain = Ok (Some plain_record).
Proof.
  split; [repeat split|].
  exact (outbound_peer_record Json.loads Strptime.strptime day0 0 plain
           "node1" "node2" "hi" ltac:(repeat split)).
Defined.

Lemma transport_record_of_line_witness :
  transport_line (strip line3) "10.0.0.9" "5000" transport_payload
  /\ run_line 2 line3
     = Ok (Some (mk_record None (PyStr "node3") "10.0.0.9:5000" "UDP"
                   (PyStr "auth") transport_payload)).
Proof.
  split; [repeat split|].
  exact (transport_record_of_line Json.loads Strptime.strptime day0 2 line3
           "10.0.0.9" "5000" transport_payload ltac:(repeat split)).
Defined.

Lemma udp_log_record_of_line_witness :
  udp_log_line (strip line4_one_bracket) "IN" "12:00:00.000" "4000"
    "10.0.0.5" "5000" (dq "{'type':'ping'}")
  /\ run_line 3 line4_one_bracket = Ok (Some ping_record).
Proof.
  assert (L : udp_log_line (strip line4_one_bracket) "IN" "12:00:00.000"
                "4000" "10.0.0.5" "5000" (dq "{'type':'ping'}")).
  { repeat split. now left. }
  split; [exact L|].
  exact (udp_log_record_of_line Json.loads Strptime.strptime day0 3
           line4_one_bracket "IN" "12:00:00.000" "4000" "10.0.0.5" "5000"
           (dq "{'type':'ping'}") L).
Defined.

Lemma record_of_matched_line_witness :
  run_file [plain] = Ok [plain_record]
  /\ exists i line,
       nth_error [plain] i = Some line /\
       ((exists src dst,
           outbound_line (strip line) src dst (info plain_record) /\
           source plain_record = PyStr src /\
           destination plain_record = dst /\
           protocol plain_record = "P2P" /\ timestamp plain_record = None)
        \/ (exists peer ip port,
              inbound_line (strip line) peer ip port (info plain_record) /\
              destination plain_record = peer /\
              protocol plain_record = "P2P" /\
              timestamp plain_record = None)
        \/ (exists ip port,
              transport_line (strip line) ip port (info plain_record) /\
              destination plain_record = ip +++ ":" +++ port /\
              protocol plain_record = "UDP" /\
              timestamp plain_record = None)
        \/ (exists dir clock lport raddr rport,
              udp_log_line (strip line) dir clock lport raddr rport
                (info plain_record) /\
              timestamp plain_record = Strptime.strptime (day0 i) clock /\
              timestamp plain_record <> None /\
              source plain_record
              = PyStr (fst (endpoints dir lport raddr rport)) /\
              destination plain_record
              = snd (endpoints dir lport raddr rport) /\
              protocol plain_record = "UDP")).
Proof.
  split; [vm_compute; reflexivity|].
  apply (record_of_matched_line Json.loads Strptime.strptime day0
           [plain] [plain_record] ltac:(vm_compute; reflexivity)
           plain_record).
  now left.
Defined.

Lemma surrounding_space_ignored_witness :
  Forall2 (fun line line' =>
             exists w w', all is_space w = true /\ all is_space w' = true /\
                          line' = w +++ line +++ w') [plain] [padded]
  /\ run_file [padded] = run_file [plain].
Proof.
  assert (F : Forall2
                (fun line line' =>
                   exists w w', all is_space w = true /\
                                all is_space w' = true /\
                                line' = w +++ line +++ w') [plain] [padded]).
  { constructor; [|constructor].
    exists (String (ascii_of_nat 9) " "), "  ". repeat split. }
  split; [exact F|].
  exact (surrounding_space_ignored Json.loads Strptime.strptime day0
           [plain] [padded] F).
Defined.

Lemma first_failure_ends_the_parse_witness :
  run_file [plain; number_payload] = Raise AttributeError
  /\ exists i line,
       nth_error [plain; number_payload] i = Some line /\
       run_line i line = Raise AttributeError /\
       forall j l, j < i -> nth_error [plain; number_payload] j = Some l ->
                   exists o, run_line j l = Ok o.
Proof.
  split; [vm_compute; reflexivity|].
  apply (proj1 (first_failure_ends_the_parse Json.loads Strptime.strptime
                  day0 [plain; number_payload] AttributeError)).
  vm_compute. reflexivity.
Defined.

Lemma cause_of_exception_witness :
  run_line 0 number_payload = Raise AttributeError
  /\ exists payload,
       ((exists src dst,
           outbound_line (strip number_payload) src dst payload) \/
        (exists peer ip port,
           inbound_line (strip number_payload) peer ip port payload) \/
        (exists ip port,
           transport_line (strip number_payload) ip port payload)) /\
       exists s v,
         Json.loads s = Some v /\ (forall d, v <> PyDict d) /\
         (s = payload \/
          exists d, Json.loads payload = Some (PyDict d) /\
                    get_or d "message" (PyStr "{}") = PyStr s).
Proof.
  split; [vm_compute; reflexivity|].
  apply (proj1 (cause_of_exception Json.loads Strptime.strptime day0 0
                  number_payload)).
  vm_compute. reflexivity.
Defined.

Lemma one_record_per_matched_line_witness :
  run_file [plain; noise] = Ok [plain_record]
  /\ List.length [plain_record]
     = List.length
         (filter (fun line =>
                    existsb (fun pattern => matches pattern (strip line))
                      all_patterns) [plain; noise]).
Proof.
  split; [vm_compute; reflexivity|].
  apply (one_record_per_matched_line Json.loads Strptime.strptime day0
           [plain; noise] [plain_record]).
  vm_compute. reflexivity.
Defined.

Lemma local_marker_witness :
  run_line 0 line4_one_bracket = Ok (Some ping_record)
  /\ (contains "localhost" (destination ping_record) = true <->
      exists clock lport raddr rport preview,
        udp_log_line (strip line4_one_bracket) "IN" clock lport raddr rport
          preview)
  /\ (forall dir clock lport raddr rport preview,
        udp_log_line (strip line4_one_bracket) dir clock lport raddr rport
          preview ->
        contains "localhost" (destination ping_record)
        = String.eqb dir "IN" /\
        py_in "localhost" (source ping_record)
        = Ok (negb (String.eqb dir "IN"))).
Proof.
  split; [vm_compute; reflexivity|].
  apply (local_marker Json.loads Strptime.strptime day0 0 line4_one_bracket
           ping_record).
  vm_compute. reflexivity.
Defined.

Lemma tabular_trace_ends_well_witness :
  exists out,
    run (print_wireshark_style [ping_record]) = (out, Ok tt)
    /\ Forall (fun log =>
                 timestamp log <> None /\
                 match source log with
                 | PyNone | PyList _ | PyDict _ => False
                 | _ => True
                 end /\
                 match type log with
                 | PyNone | PyList _ | PyDict _ => False
                 | _ => True
                 end) [ping_record].
Proof.
  eexists. split; [vm_compute; reflexivity|].
  eapply (TraceFacts.tabular_trace_ends_well [ping_record]).
  vm_compute. reflexivity.
Defined.


Lemma participants_sorted_set_witness :
  participants [ping_record] = Ok ping_participants
  /\ StronglySorted (fun a b => String.ltb a b = true) ping_participants
  /\ forall p,
       In p ping_participants <->
       exists log, In log [ping_record] /\
                   (source log = PyStr p \/ destination log = p).
Proof.
  split; [reflexivity|].
  exact (proj1 (ParticipantFacts.participants_sorted_set [ping_record])
           ping_participants eq_refl).
Defined.

Lemma diagrams_of_text_sources_witness :
  Forall (fun log => exists s, source log = PyStr s) [ping_record]
  /\ (exists t, generate_sequence_diagram_plantuml [ping_record] = Ok t)
  /\ (exists t, generate_activity_diagram_plantuml [ping_record] = Ok t)
  /\ (exists t, generate_state_diagram_plantuml [ping_record] = Ok t)
  /\ (exists t, generate_ascii_sequence_diagram [ping_record] = Ok t)
  /\ (exists t, generate_ascii_activity_flow [ping_record] = Ok t)
  /\ (exists t, generate_ascii_state_flow [ping_record] = Ok t).
Proof.
  assert (F : Forall (fun log => exists s, source log = PyStr s)
                [ping_record]).
  { constructor; [now eexists | constructor]. }
  split; [exact F|].
  exact (proj1 (DiagramFacts.diagrams_of_text_sources [ping_record]) F).
Defined.

Lemma sequence_line_width_witness :
  sequence_line ping_participants ping_record = Ok ping_arrow
  /\ exists sender i j,
       source ping_record = PyStr sender /\
       nth_error ping_participants i = Some sender /\
       nth_error ping_participants j = Some (destination ping_record) /\
       String.length ping_arrow = 15 * Nat.max i j + 15.
Proof.
  split; [vm_compute; reflexivity|].
  apply (DiagramFacts.sequence_line_width ping_participants ping_record
           ping_arrow).
  vm_compute. reflexivity.
Defined.

Lemma sanitize_name_witness :
  String.get 8 "10.0.0.5:5000" = Some ":"%char
  /\ String.get 8 (sanitize "10.0.0.5:5000") = Some "_"%char.
Proof.
  split; [reflexivity|].
  exact (proj2 (proj2 (DiagramFacts.sanitize_name "10.0.0.5:5000"))
           8 ":"%char eq_refl).
Defined.

Lemma last_segment_of_address_witness :
  no_colon "5000" = true
  /\ last_segment ("10.0.0.5" +++ ":" +++ "5000") = "5000".
Proof.
  split; [reflexivity|].
  exact (proj2 DiagramFacts.last_segment_of_address "10.0.0.5" "5000"
           eq_refl).
Defined.

Lemma main_ends_well_witness :
  exists out,
    run (main Json.loads Strptime.strptime day0 [line4_one_bracket])
    = (out, Ok tt)
    /\ exists parsed,
         run_file [line4_one_bracket] = Ok parsed /\
         Forall (fun r =>
                   timestamp r <> None /\
                   (exists s, source r = PyStr s) /\
                   match type r with
                   | PyNone | PyList _ | PyDict _ => False
                   | _ => True
                   end) parsed.
Proof.
  eexists. split; [vm_compute; reflexivity|].
  eapply (main_ends_well Json.loads Strptime.strptime day0
            [line4_one_bracket]).
  vm_compute. reflexivity.
Defined.

Lemma main_accepts_udp_log_only_witness :
  exists out,
    run (main Json.loads Strptime.strptime day0 [line4_one_bracket])
    = (out, Ok tt)
    /\ forall line,
         In line [line4_one_bracket] ->
         matches outbound (strip line) = false /\
         matches inbound (strip line) = false /\
         matches transport (strip line) = false.
Proof.
  eexists. split; [vm_compute; reflexivity|].
  eapply (main_accepts_udp_log_only Json.loads Strptime.strptime day0
            [line4_one_bracket]).
  vm_compute. reflexivity.
Defined.

Lemma main_without_records_witness :
  run_file [plain; number_payload] = Raise AttributeError
  /\ run (main Json.loads Strptime.strptime day0 [plain; number_payload])
     = ([], Raise AttributeError).
Proof.
  split; [vm_compute; reflexivity|].
  apply (proj1 (main_without_records Json.loads Strptime.strptime day0
                  [plain; number_payload]) AttributeError).
  vm_compute. reflexivity.
Defined.


Lemma type_of_record_witness :
  run_file [line2] = Ok [ack_record]
  /\ (Json.loads (info ack_record) = None ->
      type ack_record = sentinel ack_record)
  /\ exists i line,
       nth_error [line2] i = Some line /\
       ((exists src dst,
           outbound_line (strip line) src dst (info ack_record) /\
           match Json.loads (info ack_record) with
           | None => type ack_record = PyStr "text"
           | Some (PyDict d) =>
               type ack_record = get_or d "type" (PyStr "json")
           | Some _ => False
           end)
        \/ (((exists peer ip port,
                inbound_line (strip line) peer ip port (info ack_record))
             \/ (exists ip port,
                   transport_line (strip line) ip port (info ack_record)))
            /\
            match Json.loads (info ack_record) with
            | None => type ack_record = PyStr "text"
            | Some (PyDict d) =>
                match loads Json.loads (get_or d "message" (PyStr "{}")) with
                | Ok (PyDict d') =>
                    type ack_record = get_or d' "type" (PyStr "json")
                | Ok _ => False
                | Raise JSONDecodeError | Raise TypeError =>
                    type ack_record = PyStr "text"
                | Raise _ => False
                end
            | Some _ => False
            end)
        \/ ((exists dir clock lport raddr rport,
               udp_log_line (strip line) dir clock lport raddr rport
                 (info ack_record)) /\
            match Json.loads (info ack_record) with
            | None => type ack_record = PyStr "UDP_DATA"
            | Some (PyDict d) =>
                type ack_record = get_or d "type" (PyStr "UDP_DATA")
            | Some (PyList l) =>
                existsb (is_str "type") l = false /\
                type ack_record = PyStr "UDP_DATA"
            | Some (PyStr s) =>
                contains "type" s = false /\
                type ack_record = PyStr "UDP_DATA"
            | Some _ => False
            end)).
Proof.
  split; [vm_compute; reflexivity|].
  apply (type_of_record Json.loads Strptime.strptime day0 [line2]
           [ack_record] ltac:(vm_compute; reflexivity) ack_record).
  now left.
Defined.

End Instances2.
